(** * crapmodels: scrolling, selection, wrapping, filtering and sorting

    A shallow embedding of the three list widgets of the repository:

    - [tm]         the line list      (src/tm/textModel.go),
    - [table]      the table with a filter and a sort
                   (package table, src/unnamed/part_000),
    - [basictable] the table without them
                   (package table, src/unnamed/part_001).

    Only the fields that the scroll, selection, wrap, filter and sort code
    reads or writes are kept; styles, borders, titles and key tables are
    left out.  Every method has a value receiver and returns the changed
    copy, so a method is a function from a model to a model.  A method that
    can stop with a run-time panic, or that can loop for ever, returns an
    [option]: [None] stands for "no model is returned". *)

From Stdlib Require Import ZArith List Lia Bool String Ascii.
From stdpp Require Import base option list gmap sorting.

Local Open Scope Z_scope.

(** ** Go's [int]

    [int] is a 64-bit two's complement integer on the platforms the widgets
    run on; [+], [-] and [*] wrap around silently. *)

Definition wrap (z : Z) : Z := (z + 2 ^ 63) mod 2 ^ 64 - 2 ^ 63.

Definition int_add (a b : Z) : Z := wrap (a + b).
Definition int_sub (a b : Z) : Z := wrap (a - b).
Definition int_mul (a b : Z) : Z := wrap (a * b).
Definition int_neg (a : Z) : Z := wrap (- a).

Infix "+i" := int_add (at level 50, left associativity).
Infix "-i" := int_sub (at level 50, left associativity).
Infix "*i" := int_mul (at level 40, left associativity).

(** [a / b] and [a % b]: the quotient is truncated toward zero, the
    remainder has the sign of [a], and a zero divisor is a run-time panic. *)
Definition int_quo (a b : Z) : option Z :=
  if b =? 0 then None else Some (wrap (Z.quot a b)).

Definition int_rem (a b : Z) : option Z :=
  if b =? 0 then None else Some (Z.rem a b).

(** [len(x)] of a slice. *)
Definition len {A} (l : list A) : Z := Z.of_nat (length l).

(** [x[i]]: a panic ([None]) outside [0 <= i < len(x)]. *)
Definition index {A} (l : list A) (i : Z) : option A :=
  if 0 <=? i then l !! Z.to_nat i else None.

(** [x[a:b]] and [x[a:]].  Go checks [0 <= a <= b <= cap(x)]; the two places
    that slice a rune slice never reach past [len(x)] without also breaking
    [a <= b] or [0 <= a], so the bound is taken against [len(x)]. *)
Definition slice {A} (l : list A) (a b : Z) : option (list A) :=
  if (0 <=? a) && (a <=? b) && (b <=? len l)
  then Some (take (Z.to_nat (b - a)) (drop (Z.to_nat a) l))
  else None.

Definition slice_from {A} (l : list A) (a : Z) : option (list A) :=
  slice l a (len l).

(** [for i, x := range xs { body }] with a body that can panic: the state is
    threaded through the rounds, [i] counts from the given start. *)
Fixpoint range_loop {A S} (body : Z -> A -> S -> option S) (i : Z)
    (xs : list A) (s : S) : option S :=
  match xs with
  | [] => Some s
  | x :: xs' => s' ← body i x s; range_loop body (i + 1) xs' s'
  end.

(** ** Text

    A Go string that holds valid UTF-8 is represented by its sequence of
    runes (code points), so [[]rune(s)] and [string(r)] are the identity and
    [len([]rune(s))] is the length of the list. *)

Abbreviation rune := Z (only parsing).
Abbreviation gostring := (list Z) (only parsing).

Definition newline : rune := 10.

Definition rune_of_ascii (a : ascii) : rune := Z.of_N (N_of_ascii a).

(** A literal, for examples. *)
Definition str (s : string) : gostring :=
  map rune_of_ascii (list_ascii_of_string s).

(** [strings.Split(s, "\n")]: the pieces between newlines, at least one. *)
Fixpoint split_newline (s : gostring) : list gostring :=
  match s with
  | [] => [[]]
  | c :: s' =>
      match split_newline s' with
      | [] => [[c]]
      | p :: ps => if Z.eqb c newline then [] :: p :: ps else (c :: p) :: ps
      end
  end.

(** [strings.HasPrefix] and [strings.Contains]. *)
Fixpoint has_prefix (s sub : gostring) : bool :=
  match sub, s with
  | [], _ => true
  | _ :: _, [] => false
  | b :: sub', a :: s' => Z.eqb a b && has_prefix s' sub'
  end.

Fixpoint contains (s sub : gostring) : bool :=
  has_prefix s sub ||
  match s with
  | [] => false
  | _ :: s' => contains s' sub
  end.

(** ** Output strings

    View and addBorders measure and cut the strings they put together by
    bytes ([len(s)], [s[:n]]), so these strings are kept as their bytes.  A
    string that is held as runes becomes its UTF-8 encoding, the one of
    [string(r)]: a code point that is not a Unicode scalar value comes out
    as U+FFFD. *)

Abbreviation gobytes := (list Z) (only parsing).

Definition utf8_rune (r : rune) : gobytes :=
  if (r <? 0) || (1114111 <? r) || ((55296 <=? r) && (r <=? 57343))
  then [239; 191; 189]
  else if r <? 128 then [r]
  else if r <? 2048 then [192 + r / 64; 128 + r mod 64]
  else if r <? 65536
  then [224 + r / 4096; 128 + (r / 64) mod 64; 128 + r mod 64]
  else [240 + r / 262144; 128 + (r / 4096) mod 64;
        128 + (r / 64) mod 64; 128 + r mod 64].

Definition utf8 (s : gostring) : gobytes := concat (map utf8_rune s).

(** [strings.Repeat]: a panic on a negative count and when the length
    of the result does not fit an [int]. *)
Definition Repeat (s : gobytes) (count : Z) : option gobytes :=
  if count <? 0 then None
  else if len s * count >? 2 ^ 63 - 1 then None
  else Some (concat (replicate (Z.to_nat count) s)).

(** [%d] of [fmt.Sprintf]: the decimal digits of an [int], which has at
    most 19 of them, after a minus sign if it is negative. *)
Fixpoint digits (fuel : nat) (n : Z) (acc : gobytes) : gobytes :=
  match fuel with
  | O => acc
  | S fuel' =>
      let acc := (48 + n mod 10) :: acc in
      if n <? 10 then acc else digits fuel' (n / 10) acc
  end.

Definition itoa (n : Z) : gobytes :=
  if n <? 0 then 45 :: digits 19 (- n) [] else digits 19 n [].

(** [fmt.Sprintf("[%d/%d]", a, b)] *)
Definition sprintfOf (a b : Z) : gobytes :=
  str "[" ++ itoa a ++ str "/" ++ itoa b ++ str "]".

(** The two marks of the scroll bar, U+2588 and U+2591. *)
Definition barMark : gobytes := [226; 150; 136].
Definition spaceMark : gobytes := [226; 150; 145].

(** How a round of a loop ends: at its end or with [continue], or with
    [break]. *)
Inductive Flow (St : Type) :=
| Next (s : St)
| Break (s : St).

Arguments Next {St} s.
Arguments Break {St} s.

(** [for i, x := range xs { body }] with a body that can [break] and can
    panic. *)
Fixpoint range_break {A St} (body : Z -> A -> St -> option (Flow St))
    (i : Z) (xs : list A) (s : St) : option St :=
  match xs with
  | [] => Some s
  | x :: xs' =>
      match body i x s with
      | Some (Next s') => range_break body (i + 1) xs' s'
      | Some (Break s') => Some s'
      | None => None
      end
  end.

(** ** lipgloss

    github.com/charmbracelet/lipgloss and its package table are outside
    the repository: a style is known by what [Render] makes of a string,
    the joins by their result. *)

Module lipgloss.

(** The fields of [lipgloss.Border] that addBorders reads. *)
Record Border := mkBorder {
  Top : gobytes;
  Bottom : gobytes;
  Left : gobytes;
  Right : gobytes;
  TopLeft : gobytes;
  TopRight : gobytes;
  BottomLeft : gobytes;
  BottomRight : gobytes
}.

(** The positions [lipgloss.Left] and [lipgloss.Top] are both 0.0. *)
Definition PositionLeft : Z := 0.
Definition PositionTop : Z := 0.

Class Lib := {
  Style : Type;
  Render : Style -> gobytes -> gobytes;
  Width : Style -> Z -> Style;
  Height : Style -> Z -> Style;
  MaxWidth : Style -> Z -> Style;
  Inline : Style -> bool -> Style;
  JoinHorizontal : Z -> list gobytes -> gobytes;
  JoinVertical : Z -> list gobytes -> gobytes;
  (** package table: [table.HeaderRow], and the text that [Render] gives
      for a table of the given headers, rows and width, all four borders
      off, with the given style function; the style function can panic,
      and then so does [Render]. *)
  HeaderRow : Z;
  RenderTable :
    list gostring -> list (list gostring) -> Z ->
    (Z -> Z -> option Style) -> option gobytes
}.

End lipgloss.

(** ** Messages and key tables

    What Update reads of a [tea.Msg] of bubbletea: the size of a
    [tea.WindowSizeMsg], the text [msg.String()] of a [tea.KeyMsg]; any other
    message is handed back as it came. *)

Inductive Msg :=
| WindowSizeMsg (Width Height : Z)
| KeyMsg (text : gostring)
| OtherMsg.

(** The struct [Keys], which each of the three packages declares with the
    same fields. *)
Record Keys := mkKeys {
  SelectLineDown1 : gostring;
  SelectLineDown2 : gostring;
  SelectLineDown3 : gostring;
  SelectLineUp1 : gostring;
  SelectLineUp2 : gostring;
  SelectLineUp3 : gostring;
  MoveViewDown1 : gostring;
  MoveViewDown2 : gostring;
  MoveViewDown3 : gostring;
  MoveViewUp1 : gostring;
  MoveViewUp2 : gostring;
  MoveViewUp3 : gostring;
  PageDown1 : gostring;
  PageDown2 : gostring;
  PageDown3 : gostring;
  PageUp1 : gostring;
  PageUp2 : gostring;
  PageUp3 : gostring;
  Top1 : gostring;
  Top2 : gostring;
  Top3 : gostring;
  Bottom1 : gostring;
  Bottom2 : gostring;
  Bottom3 : gostring
}.

(** [case a, b, c:] of a switch on the text [k]. *)
Definition oneOf (k a b c : gostring) : bool :=
  bool_decide (k = a) || bool_decide (k = b) || bool_decide (k = c).

(** ** The line list: package tm *)

Module tm.

Record TextModel := mkTextModel {
  width : Z;
  height : Z;
  content : list gostring;
  parsedContent : list gostring;
  selectedLine : Z;
  selectedParsedLines : list Z;
  selectableParsedLinesMap : gmap Z Z;
  parsedSelectableLinesMap : gmap Z (list Z);
  scrolledTop : Z
}.

Definition set_content (v : list gostring) (m : TextModel) : TextModel :=
  mkTextModel (width m) (height m) v (parsedContent m) (selectedLine m)
    (selectedParsedLines m) (selectableParsedLinesMap m)
    (parsedSelectableLinesMap m) (scrolledTop m).

Definition set_parsedContent (v : list gostring) (m : TextModel) : TextModel :=
  mkTextModel (width m) (height m) (content m) v (selectedLine m)
    (selectedParsedLines m) (selectableParsedLinesMap m)
    (parsedSelectableLinesMap m) (scrolledTop m).

Definition set_selectedLine (v : Z) (m : TextModel) : TextModel :=
  mkTextModel (width m) (height m) (content m) (parsedContent m) v
    (selectedParsedLines m) (selectableParsedLinesMap m)
    (parsedSelectableLinesMap m) (scrolledTop m).

Definition set_selectedParsedLines (v : list Z) (m : TextModel) : TextModel :=
  mkTextModel (width m) (height m) (content m) (parsedContent m)
    (selectedLine m) v (selectableParsedLinesMap m)
    (parsedSelectableLinesMap m) (scrolledTop m).

Definition set_selectableParsedLinesMap (v : gmap Z Z) (m : TextModel)
  : TextModel :=
  mkTextModel (width m) (height m) (content m) (parsedContent m)
    (selectedLine m) (selectedParsedLines m) v
    (parsedSelectableLinesMap m) (scrolledTop m).

Definition set_parsedSelectableLinesMap (v : gmap Z (list Z)) (m : TextModel)
  : TextModel :=
  mkTextModel (width m) (height m) (content m) (parsedContent m)
    (selectedLine m) (selectedParsedLines m) (selectableParsedLinesMap m)
    v (scrolledTop m).

Definition set_scrolledTop (v : Z) (m : TextModel) : TextModel :=
  mkTextModel (width m) (height m) (content m) (parsedContent m)
    (selectedLine m) (selectedParsedLines m) (selectableParsedLinesMap m)
    (parsedSelectableLinesMap m) v.

(** Reading a map: a missing key gives the zero value ([0], the nil slice). *)
Definition lineOfParsed (m : TextModel) (k : Z) : Z :=
  default 0 (selectableParsedLinesMap m !! k).

Definition parsedOfLine (m : TextModel) (k : Z) : list Z :=
  default [] (parsedSelectableLinesMap m !! k).

Section wrapper.

(** [wordwrap.String] of github.com/muesli/reflow and the [Render] of the
    selected-line style of lipgloss are libraries outside the repository. *)
Variable wordwrap : gostring -> Z -> gostring.
Variable render : gostring -> gostring.

(** The [for i := 0; i < len(w)-1-m.width-2+5; i += (m.width - 2)] loop of
    parseContent; the result is the last [z] and the lines appended. *)
Fixpoint splitLoop (fuel : nat) (w : gostring) (width i z : Z)
    (ws2 : list gostring) : option (Z * list gostring) :=
  match fuel with
  | O => None
  | S fuel' =>
      if i <? len w -i 1 -i width -i 2 +i 5 then
        chunk ← slice w i (i +i width -i 2);
        splitLoop fuel' w width (i +i (width -i 2)) i (ws2 ++ [chunk])
      else Some (z, ws2)
  end.

(** The body of [for _, wl := range ws].  The loop advances by [width-2]
    runes, so [len(w)+1] rounds are enough whenever it advances at all. *)
Definition splitLine (width : Z) (ws2 : list gostring) (w : gostring)
  : option (list gostring) :=
  if len w -i 1 >=? width -i 2 then
    '(z, ws2') ← splitLoop (S (length w)) w width 0 0 ws2;
    rest ← slice_from w (z +i width -i 2);
    Some (ws2' ++ [rest])
  else Some (ws2 ++ [w]).

Definition splitLines (width : Z) (ws2 : list gostring) (ws : list gostring)
  : option (list gostring) :=
  range_loop (fun _ wl ws2 => splitLine width ws2 wl) 0 ws ws2.

(** The display lines [ws2] of one content row, before the selected row is
    rendered. *)
Definition wrapRow (width : Z) (line : gostring) : option (list gostring) :=
  splitLines width [] (split_newline (wordwrap line (width -i 2))).

(** The first [for i := range ws2] loop: both index maps. *)
Definition indexRow (lineNum parsedContentLineNum : Z) (n : nat)
    (m : TextModel) : TextModel :=
  foldl (fun m i =>
           let m := set_selectableParsedLinesMap
                      (<[i +i parsedContentLineNum := lineNum]>
                         (selectableParsedLinesMap m)) m in
           set_parsedSelectableLinesMap
             (<[lineNum := parsedOfLine m lineNum ++ [i +i parsedContentLineNum]]>
                (parsedSelectableLinesMap m)) m)
        m (seqZ 0 (Z.of_nat n)).

(** The second one, taken when [lineNum == m.selectedLine]. *)
Definition selectRow (parsedContentLineNum : Z) (ws2 : list gostring)
    (m : TextModel) : list gostring * TextModel :=
  (map render ws2,
   foldl (fun m i =>
            set_selectedParsedLines
              (selectedParsedLines m ++ [parsedContentLineNum +i i]) m)
         m (seqZ 0 (len ws2))).

(** The body of [for lineNum, line := range m.content]. *)
Definition parseRow (lineNum : Z) (line : gostring)
    (st : TextModel * Z) : option (TextModel * Z) :=
  let '(m, parsedContentLineNum) := st in
  ws2 ← wrapRow (width m) line;
  let m := indexRow lineNum parsedContentLineNum (length ws2) m in
  let '(ws2, m) :=
    if lineNum =? selectedLine m
    then selectRow parsedContentLineNum ws2 m
    else (ws2, m) in
  Some (set_parsedContent (parsedContent m ++ ws2) m,
        parsedContentLineNum +i len ws2).

Definition parseRows (lineNum : Z) (rows : list gostring)
    (st : TextModel * Z) : option (TextModel * Z) :=
  range_loop parseRow lineNum rows st.

Definition parseContent (m : TextModel) : option TextModel :=
  if (width m =? 0) || (height m =? 0) then Some m
  else
    let m := set_parsedContent [] m in
    let m := set_selectedParsedLines [] m in
    let m := set_selectableParsedLinesMap ∅ m in
    let m := set_parsedSelectableLinesMap ∅ m in
    fst <$> parseRows 0 (content m) (m, 0).

Definition AppendContent (text : list gostring) (m : TextModel)
  : option TextModel :=
  let move := selectedLine m =? len (content m) -i 1 in
  let m := if move
           then set_selectedLine (len (content m) -i 1 +i len text) m
           else m in
  let m := set_content (content m ++ text) m in
  m ← parseContent m;
  Some (if move && (len (parsedContent m) >? height m -i 2)
        then set_scrolledTop (len (parsedContent m) -i height m +i 2) m
        else m).

Definition SetContent (text : list gostring) (m : TextModel)
  : option TextModel :=
  let m := set_selectedLine 0 m in
  let m := set_scrolledTop 0 m in
  let m := set_content text m in
  parseContent m.

Definition ViewScroll (num : Z) (m : TextModel) : TextModel :=
  let m :=
    if (num >? 0)
       && (scrolledTop m +i num <? len (parsedContent m) -i height m +i 3)
    then set_scrolledTop (scrolledTop m +i num) m else m in
  if (num <? 0) && (scrolledTop m +i num >? 0)
  then set_scrolledTop (scrolledTop m +i num) m else m.

(** [m.parsedSelectableLinesMap[m.selectedLine][i]] *)
Definition parsedAt (m : TextModel) (i : Z) : option Z :=
  index (parsedOfLine m (selectedLine m)) i.

Definition PageScroll (num : Z) (moveSelected : bool) (m : TextModel)
  : option TextModel :=
  m ←
    (if num >? 0 then
       if scrolledTop m <? len (parsedContent m) -i height m +i 2 then
         let m := set_scrolledTop
                    (scrolledTop m +i (height m -i 2) *i num) m in
         if scrolledTop m >? len (parsedContent m) -i 2 then
           let m := set_scrolledTop
                      (len (parsedContent m) -i height m +i 2) m in
           Some (if moveSelected
                 then set_selectedLine (len (content m) -i 1) m else m)
         else if scrolledTop m >? len (parsedContent m) -i 1 -i height m -i 2
         then
           let m := set_scrolledTop
                      (len (parsedContent m) -i height m +i 2) m in
           Some (if moveSelected
                 then set_selectedLine (len (content m) -i 1) m else m)
         else if moveSelected then
           let m := set_selectedLine
                      (lineOfParsed m (scrolledTop m +i height m -i 3)) m in
           last ← parsedAt m (len (parsedOfLine m (selectedLine m)) -i 1);
           Some (set_scrolledTop (last -i height m +i 3) m)
         else Some m
       else Some m
     else if num <? 0 then
       if scrolledTop m >? 0 then
         let m := set_scrolledTop
                    (scrolledTop m -i (height m -i 2) *i (int_neg num)) m in
         if scrolledTop m <? 0 then
           let m := set_scrolledTop 0 m in
           Some (if moveSelected then set_selectedLine 0 m else m)
         else if moveSelected then
           let m := set_selectedLine (lineOfParsed m (scrolledTop m)) m in
           first ← parsedAt m 0;
           Some (set_scrolledTop first m)
         else Some m
       else Some m
     else Some m);
  parseContent m.

Definition SetSelectedLine (numLine : Z) (m : TextModel)
  : option TextModel :=
  let m := set_selectedLine numLine m in
  m ← parseContent m;
  last ← index (selectedParsedLines m) (len (selectedParsedLines m) -i 1);
  let m :=
    if last >? scrolledTop m +i height m -i len (selectedParsedLines m) -i 2
    then set_scrolledTop (last -i height m +i 3) m else m in
  first ← index (selectedParsedLines m) 0;
  let m := if first <? scrolledTop m then set_scrolledTop first m else m in
  Some (if scrolledTop m <? 0 then set_scrolledTop 0 m else m).

Definition SelectLastLine (m : TextModel) : option TextModel :=
  if selectedLine m <? len (content m) -i 1
  then SetSelectedLine (len (content m) -i 1) m
  else Some m.

Definition set_width (v : Z) (m : TextModel) : TextModel :=
  mkTextModel v (height m) (content m) (parsedContent m) (selectedLine m)
    (selectedParsedLines m) (selectableParsedLinesMap m)
    (parsedSelectableLinesMap m) (scrolledTop m).

Definition set_height (v : Z) (m : TextModel) : TextModel :=
  mkTextModel (width m) v (content m) (parsedContent m) (selectedLine m)
    (selectedParsedLines m) (selectableParsedLinesMap m)
    (parsedSelectableLinesMap m) (scrolledTop m).

Definition SetSize (w h : Z) (m : TextModel) : option TextModel :=
  let m := set_width w m in
  let m := set_height h m in
  parseContent m.

(** Update, with the key table [m.keys] as an argument.  The [tea.Cmd] it
    returns is always nil and is left out; the message comes back in every
    case. *)
Definition Update (keys : Keys) (msg : Msg) (m : TextModel)
  : option (TextModel * Msg) :=
  m ←
    match msg with
    | WindowSizeMsg Width Height =>
        let m := if width m >? Width then set_width Width m else m in
        Some (if height m >? Height then set_height Height m else m)
    | KeyMsg text =>
        if len (content m) =? 0 then Some m
        else if oneOf text (SelectLineDown1 keys) (SelectLineDown2 keys)
                  (SelectLineDown3 keys) then
          if selectedLine m <? len (content m) -i 1
          then SetSelectedLine (selectedLine m +i 1) m else Some m
        else if oneOf text (SelectLineUp1 keys) (SelectLineUp2 keys)
                  (SelectLineUp3 keys) then
          if selectedLine m >? 0
          then SetSelectedLine (selectedLine m -i 1) m else Some m
        else if oneOf text (MoveViewDown1 keys) (MoveViewDown2 keys)
                  (MoveViewDown3 keys) then
          Some (ViewScroll 1 m)
        else if oneOf text (MoveViewUp1 keys) (MoveViewUp2 keys)
                  (MoveViewUp3 keys) then
          Some (ViewScroll (-1) m)
        else if oneOf text (PageDown1 keys) (PageDown2 keys)
                  (PageDown3 keys) then
          PageScroll 1 true m
        else if oneOf text (PageUp1 keys) (PageUp2 keys) (PageUp3 keys) then
          PageScroll (-1) true m
        else if oneOf text (Top1 keys) (Top2 keys) (Top3 keys) then
          if selectedLine m >? 0 then SetSelectedLine 0 m else Some m
        else if oneOf text (Bottom1 keys) (Bottom2 keys) (Bottom3 keys) then
          if selectedLine m <? len (content m) -i 1
          then SetSelectedLine (len (content m) -i 1) m else Some m
        else Some m
    | OtherMsg => Some m
    end;
  Some (m, msg).

End wrapper.

(** The key names are those of [tea.KeyType.String]. *)
Definition DefaultKeys : Keys :=
  mkKeys (str "j") (str "down") []
    (str "k") (str "up") []
    (str "J") (str "shift+down") []
    (str "K") (str "shift+up") []
    (str "ctrl+d") (str "ctrl+f") (str "pgdown")
    (str "ctrl+u") (str "ctrl+b") (str "pgup")
    (str "g") [] []
    (str "G") [] [].

(** The rows that View shows: display lines [scrolledTop] up to and
    including [scrolledTop + height - 3], so [height - 2] of them. *)
Definition viewportHeight (m : TextModel) : Z := height m - 2.

Section rendering.

Context {lib : lipgloss.Lib}.

(** [fmt.Sprintf("[%.0f%%]", (float64(a)/float64(b))*100)], outside the
    repository. *)
Variable sprintfPercent : Z -> Z -> gobytes.

(** The fields of TextModel that only View and addBorders read. *)
Record Decor := mkDecor {
  title : gobytes;
  borderType : lipgloss.Border;
  borderStyle : lipgloss.Style;
  scrollBarStyleBar : lipgloss.Style;
  scrollBarStyleSpace : lipgloss.Style;
  titleStyle : lipgloss.Style;
  linesStyle : lipgloss.Style
}.

(** The top border of addBorders. *)
Definition borderTop (d : Decor) (m : TextModel) : option gobytes :=
  let borderTop := lipgloss.TopLeft (borderType d) in
  borderTop ←
    match title d with
    | [] =>
        r ← Repeat (lipgloss.Top (borderType d)) (width m -i 2);
        let borderTop := borderTop ++ r in
        Some (borderTop ++ lipgloss.TopRight (borderType d))
    | _ :: _ =>
        t ← (if len (title d) >? width m -i 4
             then p ← slice (title d) 0 (width m -i 7);
                  Some (p ++ str "...")
             else Some (title d));
        let o := Z.rem (len t) 2 in
        r ← Repeat (lipgloss.Top (borderType d))
              (Z.quot (width m -i 1) 2 -i Z.quot (len t) 2 -i 1);
        let borderTop := borderTop ++ r in
        let borderTop :=
          borderTop ++ str "[" ++ lipgloss.Render (titleStyle d) t
            ++ lipgloss.Render (borderStyle d) (str "]") in
        r ← Repeat (lipgloss.Top (borderType d))
              (width m -i Z.quot (width m -i 1) 2 -i Z.quot (len t) 2
                 -i 3 -i o);
        let borderTop := borderTop ++ lipgloss.Render (borderStyle d) r in
        Some (borderTop
                ++ lipgloss.Render (borderStyle d)
                     (lipgloss.TopRight (borderType d)))
    end;
  Some (lipgloss.Render (borderStyle d) borderTop).

Definition borderLeft (d : Decor) (m : TextModel) : option gobytes :=
  r ← Repeat (lipgloss.Left (borderType d) ++ [newline]) (height m -i 3);
  let borderLeft := r ++ lipgloss.Left (borderType d) in
  Some (lipgloss.Render (borderStyle d) borderLeft).

(** The right border: the plain border when all display lines fit, the
    scroll bar otherwise. *)
Definition borderRight (d : Decor) (m : TextModel) : option gobytes :=
  if len (parsedContent m) <=? height m -i 2 then
    r ← Repeat (lipgloss.Right (borderType d) ++ [newline]) (height m -i 3);
    Some (r ++ lipgloss.Right (borderType d))
  else
    q ← int_quo (len (parsedContent m) -i 1) (height m -i 2);
    s ← int_quo (scrolledTop m) q;
    if scrolledTop m >? len (parsedContent m) -i height m +i 1 then
      r ← Repeat
            (lipgloss.Render (scrollBarStyleSpace d) spaceMark ++ [newline])
            (height m -i 3);
      Some (r ++ lipgloss.Render (scrollBarStyleBar d) barMark)
    else
      Some (foldl
              (fun borderRight l =>
                 let borderRight :=
                   if s =? l
                   then borderRight
                          ++ lipgloss.Render (scrollBarStyleBar d) barMark
                   else borderRight
                          ++ lipgloss.Render (scrollBarStyleSpace d)
                               spaceMark in
                 if l <? height m -i 3 then borderRight ++ [newline]
                 else borderRight)
              [] (seqZ 0 (height m -i 2))).

Definition borderBottom (d : Decor) (m : TextModel) : option gobytes :=
  borderBottom ←
    (if len (parsedContent m) <=? height m -i 2 then
       let borderBottom := lipgloss.BottomLeft (borderType d) in
       r ← Repeat (lipgloss.Bottom (borderType d)) (width m -i 2);
       let borderBottom := borderBottom ++ r in
       Some (borderBottom ++ lipgloss.BottomRight (borderType d))
     else
       let borderBottom :=
         if scrolledTop m >=? len (parsedContent m) -i height m +i 2
         then str "[100%]"
         else sprintfPercent (scrolledTop m) (len (parsedContent m) -i 1) in
       r ← Repeat (lipgloss.Bottom (borderType d))
             (width m -i 3 -i len borderBottom);
       Some (lipgloss.BottomLeft (borderType d) ++ r ++ borderBottom
               ++ lipgloss.Bottom (borderType d)
               ++ lipgloss.BottomRight (borderType d)));
  Some (lipgloss.Render (borderStyle d) borderBottom).

(** addBorders: the four borders in the order in which the function
    builds them, then the three joins. *)
Definition addBorders (d : Decor) (text : gobytes) (m : TextModel)
  : option gobytes :=
  if height m <? 3 then Some text
  else
    borderTop ← borderTop d m;
    borderLeft ← borderLeft d m;
    borderRight ← borderRight d m;
    borderBottom ← borderBottom d m;
    let ret :=
      lipgloss.JoinHorizontal lipgloss.PositionLeft
        [borderLeft; text; borderRight] in
    let ret := lipgloss.JoinVertical lipgloss.PositionLeft [borderTop; ret] in
    Some (lipgloss.JoinVertical lipgloss.PositionLeft [ret; borderBottom]).

(** A round of [for lineNum, line := range m.parsedContent], and the text
    that the loop collects. *)
Definition viewLine (m : TextModel) (lineNum : Z) (line s : gostring)
  : option (Flow gostring) :=
  if lineNum <? scrolledTop m then Some (Next s)
  else if lineNum >? height m -i 3 +i scrolledTop m then Some (Break s)
  else
    let s := if negb (lineNum =? scrolledTop m)
             then s ++ [newline] else s in
    Some (Next (s ++ line)).

Definition viewText (m : TextModel) : option gostring :=
  range_break (viewLine m) 0 (parsedContent m) [].

Definition View (d : Decor) (m : TextModel) : option gobytes :=
  s ← viewText m;
  let s :=
    lipgloss.Render
      (lipgloss.Height (lipgloss.Width (linesStyle d) (width m -i 2))
         (height m -i 2))
      (utf8 s) in
  addBorders d s m.

End rendering.

End tm.

(** ** The table with a filter and a sort: package table (part_000) *)

Module table.

Inductive SortOrder := SortAscendig | SortDescending | SortUnsorted.

Definition SortOrder_eqb (a b : SortOrder) : bool :=
  match a, b with
  | SortAscendig, SortAscendig
  | SortDescending, SortDescending
  | SortUnsorted, SortUnsorted => true
  | _, _ => false
  end.

(** One table row: its cells. *)
Abbreviation row := (list (list Z)) (only parsing).

Record TableModel := mkTableModel {
  width : Z;
  height : Z;
  headers : list gostring;
  content : list row;
  selectedLine : Z;
  scrolledTop : Z;
  filter : gostring;
  filterColums : list Z;
  filteredContent : list row;
  sortByCol : Z;
  sortOrder : SortOrder;
  sortedContent : list row
}.

Definition set_content (v : list row) (m : TableModel) : TableModel :=
  mkTableModel (width m) (height m) (headers m) v (selectedLine m)
    (scrolledTop m) (filter m) (filterColums m) (filteredContent m)
    (sortByCol m) (sortOrder m) (sortedContent m).

Definition set_selectedLine (v : Z) (m : TableModel) : TableModel :=
  mkTableModel (width m) (height m) (headers m) (content m) v
    (scrolledTop m) (filter m) (filterColums m) (filteredContent m)
    (sortByCol m) (sortOrder m) (sortedContent m).

Definition set_scrolledTop (v : Z) (m : TableModel) : TableModel :=
  mkTableModel (width m) (height m) (headers m) (content m) (selectedLine m)
    v (filter m) (filterColums m) (filteredContent m)
    (sortByCol m) (sortOrder m) (sortedContent m).

Definition set_filter (v : gostring) (m : TableModel) : TableModel :=
  mkTableModel (width m) (height m) (headers m) (content m) (selectedLine m)
    (scrolledTop m) v (filterColums m) (filteredContent m)
    (sortByCol m) (sortOrder m) (sortedContent m).

Definition set_filteredContent (v : list row) (m : TableModel) : TableModel :=
  mkTableModel (width m) (height m) (headers m) (content m) (selectedLine m)
    (scrolledTop m) (filter m) (filterColums m) v
    (sortByCol m) (sortOrder m) (sortedContent m).

Definition set_sortByCol (v : Z) (m : TableModel) : TableModel :=
  mkTableModel (width m) (height m) (headers m) (content m) (selectedLine m)
    (scrolledTop m) (filter m) (filterColums m) (filteredContent m)
    v (sortOrder m) (sortedContent m).

Definition set_sortOrder (v : SortOrder) (m : TableModel) : TableModel :=
  mkTableModel (width m) (height m) (headers m) (content m) (selectedLine m)
    (scrolledTop m) (filter m) (filterColums m) (filteredContent m)
    (sortByCol m) v (sortedContent m).

Definition set_sortedContent (v : list row) (m : TableModel) : TableModel :=
  mkTableModel (width m) (height m) (headers m) (content m) (selectedLine m)
    (scrolledTop m) (filter m) (filterColums m) (filteredContent m)
    (sortByCol m) (sortOrder m) v.

Definition hasCell (col : Z) (line : row) : bool :=
  match index line col with Some _ => true | None => false end.

(** [line[col]] where the index is known to be in range. *)
Definition cellOr (line : row) (col : Z) : gostring :=
  default [] (index line col).

Section pipeline.

(** The standard library and golang.org/x/text, outside the repository:
    [unicode.ToLower], which [strings.ToLower] maps over the runes;
    [CompareString] of the Czech collator; [slices.SortFunc]. *)
Variable toLower : rune -> rune.
Variable compareString : gostring -> gostring -> Z.
Variable sortFunc : (row -> row -> Z) -> list row -> list row.

Definition ToLower (s : gostring) : gostring := map toLower s.

(** The comparison function handed to [slices.SortFunc]. *)
Definition compareRows (m : TableModel) (a b : row) : Z :=
  match sortOrder m with
  | SortAscendig =>
      compareString (cellOr a (sortByCol m)) (cellOr b (sortByCol m))
  | SortDescending =>
      compareString (cellOr b (sortByCol m)) (cellOr a (sortByCol m))
  | SortUnsorted => 0
  end.

(** sortFilteredContent works on a copy of [filteredContent].  The
    comparison reads [a[m.sortByCol]] of both rows and a sort of two or more
    rows compares every row at least once, so a row without that cell is an
    index-out-of-range panic; with fewer than two rows nothing is
    compared. *)
Definition sortFilteredContent (m : TableModel) : option (list row) :=
  let s := filteredContent m in
  match sortOrder m with
  | SortUnsorted => Some s
  | _ =>
      if (2 <=? len s) && negb (forallb (hasCell (sortByCol m)) s)
      then None
      else Some (sortFunc (compareRows m) s)
  end.

(** The inner [for _, colN := range m.filterColums] with its [break line]:
    does the row go into the result? *)
Fixpoint lineMatches (flt : gostring) (line : row) (cols : list Z)
  : option bool :=
  match cols with
  | [] => Some false
  | colN :: cols' =>
      c ← index line colN;
      if contains (ToLower c) flt then Some true
      else lineMatches flt line cols'
  end.

Definition filterContent (m : TableModel) : option (list row) :=
  match filter m with
  | [] => Some (content m)
  | _ :: _ =>
      let flt := ToLower (filter m) in
      range_loop
        (fun _ line ret =>
           keep ← lineMatches flt line (filterColums m);
           Some (if keep : bool then ret ++ [line] else ret))
        0 (content m) []
  end.

Definition Sort (col : Z) (dir : SortOrder) (m : TableModel)
  : option TableModel :=
  if col >? len (headers m) -i 1 then Some m
  else
    let m := set_sortByCol col m in
    let m := set_sortOrder dir m in
    if SortOrder_eqb dir SortUnsorted
    then Some (set_sortedContent (filteredContent m) m)
    else s ← sortFilteredContent m; Some (set_sortedContent s m).

Definition SetFilter (flt : gostring) (m : TableModel) : option TableModel :=
  let m := set_filter flt m in
  f ← filterContent m;
  let m := set_filteredContent f m in
  s ← sortFilteredContent m;
  let m := set_sortedContent s m in
  let m := set_scrolledTop 0 m in
  Some (set_selectedLine 0 m).

Definition SetContent (rows : list row) (m : TableModel)
  : option TableModel :=
  let m := set_content rows m in
  f ← filterContent m;
  let m := set_filteredContent f m in
  s ← sortFilteredContent m;
  Some (set_sortedContent s m).

Definition AppendContent (rows : list row) (m : TableModel)
  : option TableModel :=
  let m := set_content (content m ++ rows) m in
  f ← filterContent m;
  let m := set_filteredContent f m in
  s ← sortFilteredContent m;
  Some (set_sortedContent s m).

End pipeline.

Definition isNil {A} (l : list A) : bool :=
  match l with [] => true | _ => false end.

Definition SetSelectedLine (line : Z) (m : TableModel) : TableModel :=
  if (line <? len (filteredContent m)) && (line >=? 0) then
    let m := set_selectedLine line m in
    if selectedLine m >=? scrolledTop m +i (height m -i 4) then
      if isNil (filter m)
      then set_scrolledTop (selectedLine m -i (height m -i 4)) m
      else set_scrolledTop (selectedLine m -i (height m -i 5)) m
    else if selectedLine m <? scrolledTop m
    then set_scrolledTop (selectedLine m) m
    else m
  else m.

Definition SelectLastLine (m : TableModel) : TableModel :=
  SetSelectedLine (len (filteredContent m) -i 1) m.

Definition ViewScroll (num : Z) (m : TableModel) : TableModel :=
  if num >? 0 then
    if scrolledTop m +i num <=? len (filteredContent m) -i height m +i 3
    then set_scrolledTop (scrolledTop m +i num) m else m
  else if num <? 0 then
    if scrolledTop m +i num >=? 0
    then set_scrolledTop (scrolledTop m +i num) m else m
  else m.

(** The local [height] of PageScroll and View: one row less under a
    filter bar. *)
Definition pageHeight (m : TableModel) : Z :=
  if isNil (filter m) then height m else height m -i 1.

Definition PageScroll (num : Z) (moveSelected : bool) (m : TableModel)
  : TableModel :=
  let height := pageHeight m in
  let m := set_scrolledTop (scrolledTop m +i (height -i 3) *i num) m in
  let m :=
    if num >? 0 then
      if moveSelected
      then set_selectedLine (scrolledTop m +i height -i 4) m else m
    else if num <? 0 then
      if moveSelected then set_selectedLine (scrolledTop m) m else m
    else m in
  let m :=
    if scrolledTop m <? 0 then
      let m := set_scrolledTop 0 m in
      if moveSelected then set_selectedLine (scrolledTop m) m else m
    else m in
  let lenContent := len (filteredContent m) in
  if scrolledTop m >? lenContent -i height -i 3 then
    let m := set_scrolledTop (lenContent -i height +i 3) m in
    let m := set_scrolledTop (Z.max (scrolledTop m) 0) m in
    if moveSelected then
      let m := set_selectedLine (scrolledTop m +i height -i 4) m in
      if selectedLine m >? lenContent
      then set_selectedLine (lenContent -i 1) m else m
    else m
  else m.

(** The rows that View shows: [sortedContent[scrolledTop:linesHeight]] with
    [linesHeight = min(height-3+scrolledTop, len(sortedContent))]. *)
Definition viewportHeight (m : TableModel) : Z := pageHeight m - 3.

Definition set_width (v : Z) (m : TableModel) : TableModel :=
  mkTableModel v (height m) (headers m) (content m) (selectedLine m)
    (scrolledTop m) (filter m) (filterColums m) (filteredContent m)
    (sortByCol m) (sortOrder m) (sortedContent m).

Definition set_height (v : Z) (m : TableModel) : TableModel :=
  mkTableModel (width m) v (headers m) (content m) (selectedLine m)
    (scrolledTop m) (filter m) (filterColums m) (filteredContent m)
    (sortByCol m) (sortOrder m) (sortedContent m).

Definition set_headers (v : list gostring) (m : TableModel) : TableModel :=
  mkTableModel (width m) (height m) v (content m) (selectedLine m)
    (scrolledTop m) (filter m) (filterColums m) (filteredContent m)
    (sortByCol m) (sortOrder m) (sortedContent m).

Definition set_filterColums (v : list Z) (m : TableModel) : TableModel :=
  mkTableModel (width m) (height m) (headers m) (content m) (selectedLine m)
    (scrolledTop m) (filter m) v (filteredContent m)
    (sortByCol m) (sortOrder m) (sortedContent m).

(** The options of NewTableModel that set a field kept here; an option is
    a function that changes the model under construction. *)
Definition WithHeaders (headers : list gostring) : TableModel -> TableModel :=
  fun tm => set_headers headers tm.

Definition WithContent (content : list row) : TableModel -> TableModel :=
  fun tm => set_filteredContent content (set_content content tm).

Definition WithFilterColums (cols : list Z) : TableModel -> TableModel :=
  fun tm => set_filterColums cols tm.

(** NewTableModel: the struct literal leaves every field kept here at its
    zero value but [sortOrder]; without headers it panics. *)
Definition NewTableModel (options : list (TableModel -> TableModel))
  : option TableModel :=
  let m := mkTableModel 0 0 [] [] 0 0 [] [] [] 0 SortUnsorted [] in
  let m := foldl (fun m opt => opt m) m options in
  if len (headers m) =? 0 then None
  else
    Some (if len (filterColums m) =? 0
          then foldl (fun m i => set_filterColums (filterColums m ++ [i]) m)
                 m (seqZ 0 (len (headers m)))
          else m).

Definition SetHeaders (headers : list gostring) (m : TableModel)
  : TableModel :=
  set_headers headers m.

Definition SetSize (w h : Z) (m : TableModel) : TableModel :=
  set_height h (set_width w m).

(** Update, with the key table [m.keys] as an argument.  The message comes
    back unless a key of the table was pressed ([None] is the nil
    message). *)
Definition Update (keys : Keys) (msg : Msg) (m : TableModel)
  : TableModel * option Msg :=
  match msg with
  | WindowSizeMsg Width Height =>
      let m := if width m >? Width then set_width Width m else m in
      let m := if height m >? Height then set_height Height m else m in
      (m, Some msg)
  | KeyMsg text =>
      if oneOf text (SelectLineDown1 keys) (SelectLineDown2 keys)
           (SelectLineDown3 keys) then
        (SetSelectedLine (selectedLine m +i 1) m, None)
      else if oneOf text (SelectLineUp1 keys) (SelectLineUp2 keys)
                (SelectLineUp3 keys) then
        (SetSelectedLine (selectedLine m -i 1) m, None)
      else if oneOf text (MoveViewDown1 keys) (MoveViewDown2 keys)
                (MoveViewDown3 keys) then
        (ViewScroll 1 m, None)
      else if oneOf text (MoveViewUp1 keys) (MoveViewUp2 keys)
                (MoveViewUp3 keys) then
        (ViewScroll (-1) m, None)
      else if oneOf text (PageDown1 keys) (PageDown2 keys)
                (PageDown3 keys) then
        (PageScroll 1 true m, None)
      else if oneOf text (PageUp1 keys) (PageUp2 keys) (PageUp3 keys) then
        (PageScroll (-1) true m, None)
      else if oneOf text (Top1 keys) (Top2 keys) (Top3 keys) then
        (SetSelectedLine 0 m, None)
      else if oneOf text (Bottom1 keys) (Bottom2 keys) (Bottom3 keys) then
        (SelectLastLine m, None)
      else (m, Some msg)
  | OtherMsg => (m, Some msg)
  end.

Definition DefaultKeys : Keys :=
  mkKeys (str "j") (str "down") []
    (str "k") (str "up") []
    (str "J") (str "shift+down") []
    (str "K") (str "shift+up") []
    (str "ctrl+d") (str "ctrl+f") (str "pgdown")
    (str "ctrl+u") (str "ctrl+b") (str "pgup")
    (str "g") (str "home") []
    (str "G") (str "end") [].

Section columns.

(** [stripansi.Strip], a library outside the repository. *)
Variable Strip : gostring -> gostring.

(** [if colSizes[colNum] < l { colSizes[colNum] = l }] *)
Definition widen (colNum l : Z) (colSizes : list Z) : option (list Z) :=
  cur ← index colSizes colNum;
  Some (if cur <? l then <[Z.to_nat colNum := l]> colSizes else colSizes).

(** computeColSizes, with the field [m.colSizes] as the argument
    [mcolSizes].  The five loops in their order; [colSizes] is the slice
    under construction. *)
Definition computeColSizes (mcolSizes : list Z) (m : TableModel)
  : option (list Z) :=
  let colSizes := replicate (length (headers m)) 0 in
  '(colSizes, fixedSize) ←
    range_loop
      (fun colNum (_ : gostring) '(colSizes, fixedSize) =>
         c ← index mcolSizes colNum;
         Some (if negb (c =? 0)
               then (<[Z.to_nat colNum := c]> colSizes, fixedSize +i c)
               else (colSizes, fixedSize)))
      0 (headers m) (colSizes, 0);
  colSizes ←
    range_loop
      (fun colNum hCol colSizes =>
         c ← index mcolSizes colNum;
         if c =? 0 then widen colNum (len (Strip hCol)) colSizes
         else Some colSizes)
      0 (headers m) colSizes;
  colSizes ←
    range_loop
      (fun _ (line : row) colSizes =>
         range_loop
           (fun colNum col colSizes =>
              c ← index mcolSizes colNum;
              if c =? 0 then widen colNum (len (Strip col)) colSizes
              else Some colSizes)
           0 line colSizes)
      0 (filteredContent m) colSizes;
  '(varSize, varNum) ←
    range_loop
      (fun i col '(varSize, varNum) =>
         c ← index mcolSizes i;
         Some (if c =? 0 then (varSize +i col, varNum +i 1)
               else (varSize, varNum)))
      0 colSizes (0, 0);
  base ← int_quo (width m -i (len (headers m) +i 1) -i fixedSize) varNum;
  rem ← int_rem (width m -i (len (headers m) +i 1) -i fixedSize) varNum;
  '(colSizes, rem) ←
    range_loop
      (fun i (_ : Z) '(colSizes, rem) =>
         c ← index mcolSizes i;
         Some (if c =? 0 then
                 if rem >? 0
                 then (<[Z.to_nat i := base +i 1]> colSizes, rem -i 1)
                 else (<[Z.to_nat i := base]> colSizes, rem)
               else (colSizes, rem)))
      0 colSizes (colSizes, rem);
  Some colSizes.

End columns.

Section rendering.

Context {lib : lipgloss.Lib}.

(** Outside the repository: [stripansi.Strip]; [len([]rune(s))] of a string
    that is kept as bytes; and
    [fmt.Sprintf("[%.0f%%]", (float64(a)/float64(b))*100)]. *)
Variable Strip : gostring -> gostring.
Variable runeCount : gobytes -> Z.
Variable sprintfPercent : Z -> Z -> gobytes.

(** The fields of TableModel that only View and addBorders read. *)
Record Decor := mkDecor {
  title : gobytes;
  colSizes : list Z;
  borderType : lipgloss.Border;
  borderStyle : lipgloss.Style;
  titleStyle : lipgloss.Style;
  scrollBarStyleBar : lipgloss.Style;
  scrollBarStyleSpace : lipgloss.Style;
  headerStyle : lipgloss.Style;
  linesStyle : lipgloss.Style;
  selectedLineStyle : lipgloss.Style;
  filterStyle : lipgloss.Style
}.

(** The top border of addBorders. *)
Definition borderTop (d : Decor) (m : TableModel) : option gobytes :=
  let borderTop := lipgloss.TopLeft (borderType d) in
  borderTop ←
    match title d with
    | [] =>
        r ← Repeat (lipgloss.Top (borderType d)) (width m -i 2);
        let borderTop := borderTop ++ r in
        Some (borderTop
                ++ lipgloss.Render (borderStyle d)
                     (lipgloss.TopRight (borderType d)))
    | _ :: _ =>
        t ← (if runeCount (title d) >? width m -i 4
             then p ← slice (title d) 0 (width m -i 7);
                  Some (p ++ str "...")
             else Some (title d));
        let o := Z.rem (runeCount t) 2 in
        r ← Repeat (lipgloss.Top (borderType d))
              (Z.quot (width m -i 1) 2 -i Z.quot (runeCount t) 2 -i 1);
        let borderTop := borderTop ++ r in
        let borderTop :=
          borderTop ++ str "[" ++ lipgloss.Render (titleStyle d) t
            ++ lipgloss.Render (borderStyle d) (str "]") in
        r ← Repeat (lipgloss.Top (borderType d))
              (width m -i Z.quot (width m -i 1) 2
                 -i Z.quot (runeCount t) 2 -i 3 -i o);
        let borderTop := borderTop ++ lipgloss.Render (borderStyle d) r in
        Some (borderTop
                ++ lipgloss.Render (borderStyle d)
                     (lipgloss.TopRight (borderType d)))
    end;
  Some (lipgloss.Render (borderStyle d) borderTop).

Definition borderLeft (d : Decor) (m : TableModel) : option gobytes :=
  r ← Repeat (lipgloss.Left (borderType d) ++ [newline]) (height m -i 3);
  let borderLeft := r ++ lipgloss.Left (borderType d) in
  Some (lipgloss.Render (borderStyle d) borderLeft).

(** The right border; [height] is the local variable [m.height - 3] of
    addBorders. *)
Definition borderRight (d : Decor) (m : TableModel) : option gobytes :=
  let contentLength := len (sortedContent m) in
  let height := height m -i 3 in
  if contentLength <=? height then
    r ← Repeat
          (lipgloss.Render (borderStyle d) (lipgloss.Right (borderType d))
             ++ [newline])
          height;
    Some (r ++ lipgloss.Render (borderStyle d)
                 (lipgloss.Right (borderType d)))
  else
    q ← int_quo (contentLength -i 1) (height -i 1);
    s ← int_quo (scrolledTop m) q;
    let borderRight :=
      lipgloss.Render (borderStyle d) (lipgloss.Right (borderType d))
        ++ [newline] in
    if scrolledTop m >? contentLength -i height -i 1 then
      r ← Repeat
            (lipgloss.Render (scrollBarStyleSpace d) spaceMark ++ [newline])
            (height -i 1);
      let borderRight := borderRight ++ r in
      Some (borderRight ++ lipgloss.Render (scrollBarStyleBar d) barMark)
    else
      Some (foldl
              (fun borderRight l =>
                 let borderRight :=
                   if s =? l
                   then borderRight
                          ++ lipgloss.Render (scrollBarStyleBar d) barMark
                   else borderRight
                          ++ lipgloss.Render (scrollBarStyleSpace d)
                               spaceMark in
                 if l <? height -i 1 then borderRight ++ [newline]
                 else borderRight)
              borderRight (seqZ 0 height)).

Definition borderBottom (d : Decor) (m : TableModel) : option gobytes :=
  let contentLength := len (sortedContent m) in
  let height := height m -i 3 in
  borderBottom ←
    (if contentLength =? 0 then
       let borderBottom := lipgloss.BottomLeft (borderType d) in
       r ← Repeat (lipgloss.Bottom (borderType d)) (width m -i 2);
       let borderBottom := borderBottom ++ r in
       Some (borderBottom ++ lipgloss.BottomRight (borderType d))
     else if contentLength <=? height then
       let borderBottom :=
         sprintfOf (selectedLine m +i 1) (len (sortedContent m))
           ++ lipgloss.Bottom (borderType d) in
       r ← Repeat (lipgloss.Bottom (borderType d))
             (width m -i len borderBottom);
       Some (lipgloss.BottomLeft (borderType d) ++ r ++ borderBottom
               ++ lipgloss.BottomRight (borderType d))
     else
       let borderBottom :=
         (if scrolledTop m >=? contentLength -i height then str "[100%]"
          else sprintfPercent (scrolledTop m) (contentLength -i 1))
           ++ lipgloss.Bottom (borderType d) in
       let borderBottom :=
         borderBottom
           ++ sprintfOf (selectedLine m +i 1) (len (sortedContent m)) in
       r ← Repeat (lipgloss.Bottom (borderType d))
             (width m -i 1 -i len borderBottom);
       Some (lipgloss.BottomLeft (borderType d) ++ r ++ borderBottom
               ++ lipgloss.Bottom (borderType d)
               ++ lipgloss.BottomRight (borderType d)));
  Some (lipgloss.Render (borderStyle d) borderBottom).

(** addBorders: the four borders in the order in which the function
    builds them, then the three joins. *)
Definition addBorders (d : Decor) (table : gobytes) (m : TableModel)
  : option gobytes :=
  borderTop ← borderTop d m;
  borderLeft ← borderLeft d m;
  borderRight ← borderRight d m;
  borderBottom ← borderBottom d m;
  let ret :=
    lipgloss.JoinHorizontal lipgloss.PositionLeft
      [borderLeft; table; borderRight] in
  let ret := lipgloss.JoinVertical lipgloss.PositionLeft [borderTop; ret] in
  Some (lipgloss.JoinVertical lipgloss.PositionLeft [ret; borderBottom]).

(** [style.Width(n).Inline(true).MaxWidth(n)] *)
Definition cellStyle (style : lipgloss.Style) (n : Z) : lipgloss.Style :=
  lipgloss.MaxWidth (lipgloss.Inline (lipgloss.Width style n) true) n.

(** The runes of the literals of View: the cut mark U+2026 and the two
    sort marks, U+F519 and U+F51A with a space. *)
Definition cutMark : gostring := [8230].
Definition ascendingMark : gostring := [62745; 32].
Definition descendingMark : gostring := [62746; 32].

(** A round of [for i, h := range m.headers]; [line] is the header line
    so far. *)
Definition viewHeader (d : Decor) (m : TableModel) (colSizes : list Z)
    (i : Z) (h : gostring) (line : gobytes) : option gobytes :=
  let line :=
    if (i >? 0) && (i <? len (headers m))
    then lipgloss.JoinHorizontal lipgloss.PositionLeft
           [line;
            lipgloss.Render (headerStyle d) (lipgloss.Right (borderType d))]
    else line in
  let h :=
    if sortByCol m =? i then
      match sortOrder m with
      | SortAscendig => ascendingMark ++ h
      | SortDescending => descendingMark ++ h
      | SortUnsorted => h
      end
    else h in
  let stripCol := Strip h in
  let hLen := len stripCol in
  size ← index colSizes i;
  h ← (if hLen >? size then
         if hLen >? 3
         then p ← slice stripCol 0 (size -i 1); Some (p ++ cutMark)
         else Some h
       else Some h);
  Some (lipgloss.JoinHorizontal lipgloss.PositionLeft
          [line; lipgloss.Render (cellStyle (headerStyle d) size) (utf8 h)]).

(** A round of [for i, col := range line]; [tl] is the table line so
    far. *)
Definition viewCell (d : Decor) (m : TableModel) (style : lipgloss.Style)
    (colSizes : list Z) (i : Z) (col : gostring) (tl : gobytes)
  : option gobytes :=
  let tl :=
    if (i >? 0) && (i <? len (headers m))
    then lipgloss.JoinHorizontal lipgloss.PositionLeft
           [tl; lipgloss.Render style (lipgloss.Right (borderType d))]
    else tl in
  let stripCol := Strip col in
  size ← index colSizes i;
  col ← (if len stripCol >? size
         then p ← slice stripCol 0 (size -i 1); Some (p ++ cutMark)
         else Some col);
  Some (lipgloss.JoinHorizontal lipgloss.PositionLeft
          [tl; lipgloss.Render (cellStyle style size) (utf8 col)]).

(** A round of [for lineNum, line := range
    m.sortedContent[m.scrolledTop:linesHeight]]. *)
Definition viewRow (d : Decor) (m : TableModel) (colSizes : list Z)
    (linesHeight selectedLine : Z) (lineNum : Z) (line : row)
    (table : gobytes) : option (Flow gobytes) :=
  if lineNum >? linesHeight then Some (Break table)
  else
    let style :=
      if lineNum =? selectedLine then selectedLineStyle d
      else linesStyle d in
    tl ← range_loop (viewCell d m style colSizes) 0 line [];
    Some (Next (if lineNum =? 0 then tl
                else lipgloss.JoinVertical lipgloss.PositionTop
                       [table; tl])).

(** The empty table line [fill], and the loop that adds it below the
    rows. *)
Definition viewFill (d : Decor) (m : TableModel) (colSizes : list Z)
  : option gobytes :=
  range_loop
    (fun i (size : Z) fill =>
       let fill :=
         if (i >? 0) && (i <? len (headers m))
         then lipgloss.JoinHorizontal lipgloss.PositionLeft
                [fill;
                 lipgloss.Render (linesStyle d)
                   (lipgloss.Right (borderType d))]
         else fill in
       Some (lipgloss.JoinHorizontal lipgloss.PositionLeft
               [fill;
                lipgloss.Render (cellStyle (linesStyle d) size)
                  (str " ")]))
    0 colSizes [].

Definition View (d : Decor) (m : TableModel) : option gobytes :=
  let height := pageHeight m in
  let linesHeight :=
    Z.min (height -i 3 +i scrolledTop m) (len (sortedContent m)) in
  colSizes ← computeColSizes Strip (colSizes d) m;
  headerLine ← range_loop (viewHeader d m colSizes) 0 (headers m) [];
  let headerLine :=
    if isNil (filter m) then headerLine
    else lipgloss.JoinVertical lipgloss.PositionTop
           [lipgloss.Render (filterStyle d)
              (utf8 (str " Filtr: " ++ filter m));
            headerLine] in
  let selectedLine := selectedLine m -i scrolledTop m in
  rows ← slice (sortedContent m) (scrolledTop m) linesHeight;
  table ← range_break (viewRow d m colSizes linesHeight selectedLine)
            0 rows [];
  let lines := len rows in
  table ←
    (if lines <? height then
       fill ← viewFill d m colSizes;
       Some (foldl
               (fun table i =>
                  if len (sortedContent m) >? 0
                  then lipgloss.JoinVertical lipgloss.PositionTop
                         [table; fill]
                  else
                    let table := table ++ fill in
                    if i <? height -i lines -i 4 then table ++ [newline]
                    else table)
               table (seqZ 0 (height -i lines -i 3)))
     else Some table);
  let s := lipgloss.JoinVertical lipgloss.PositionTop [headerLine; table] in
  addBorders d s m.

End rendering.

End table.

(** ** The table without filter and sort: package table (part_001) *)

Module basictable.

Abbreviation row := (list (list Z)) (only parsing).

Record TableModel := mkTableModel {
  width : Z;
  height : Z;
  content : list row;
  selectedLine : Z;
  scrolledTop : Z
}.

Definition set_content (v : list row) (m : TableModel) : TableModel :=
  mkTableModel (width m) (height m) v (selectedLine m) (scrolledTop m).

Definition set_selectedLine (v : Z) (m : TableModel) : TableModel :=
  mkTableModel (width m) (height m) (content m) v (scrolledTop m).

Definition set_scrolledTop (v : Z) (m : TableModel) : TableModel :=
  mkTableModel (width m) (height m) (content m) (selectedLine m) v.

Definition SetContent (rows : list row) (m : TableModel) : TableModel :=
  set_content rows m.

Definition AppendContent (rows : list row) (m : TableModel) : TableModel :=
  set_content (content m ++ rows) m.

Definition SetSelectedLine (line : Z) (m : TableModel) : TableModel :=
  if (line <? len (content m)) && (line >=? 0) then
    let m := set_selectedLine line m in
    if selectedLine m >=? scrolledTop m +i (height m -i 5)
    then set_scrolledTop (selectedLine m -i (height m -i 5)) m
    else if selectedLine m <? scrolledTop m
    then set_scrolledTop (selectedLine m) m
    else m
  else m.

Definition SelectLastLine (m : TableModel) : TableModel :=
  SetSelectedLine (len (content m) -i 1) m.

Definition ViewScroll (num : Z) (m : TableModel) : TableModel :=
  if num >? 0 then
    if scrolledTop m +i num <=? len (content m) -i height m +i 4
    then set_scrolledTop (scrolledTop m +i num) m else m
  else if num <? 0 then
    if scrolledTop m +i num >=? 0
    then set_scrolledTop (scrolledTop m +i num) m else m
  else m.

Definition PageScroll (num : Z) (moveSelected : bool) (m : TableModel)
  : TableModel :=
  let m :=
    if num >? 0 then
      let m := set_scrolledTop
                 (scrolledTop m +i ((height m -i 5) *i num +i 1)) m in
      if moveSelected
      then set_selectedLine (scrolledTop m +i height m -i 5) m else m
    else if num <? 0 then
      let m := set_scrolledTop
                 (scrolledTop m +i ((height m -i 5) *i num -i 1)) m in
      if moveSelected then set_selectedLine (scrolledTop m) m else m
    else m in
  let m :=
    if scrolledTop m <=? 0 then
      let m := set_scrolledTop 0 m in
      if moveSelected then set_selectedLine (scrolledTop m) m else m
    else m in
  if scrolledTop m >? len (content m) -i height m -i 5 then
    let m := set_scrolledTop (len (content m) -i height m +i 4) m in
    if moveSelected
    then set_selectedLine (scrolledTop m +i height m -i 5) m else m
  else m.

(** The rows that View shows: [content[scrolledTop:height]] with
    [height = min(m.height-4+m.scrolledTop, len(m.content))]. *)
Definition viewportHeight (m : TableModel) : Z := height m - 4.

Definition set_width (v : Z) (m : TableModel) : TableModel :=
  mkTableModel v (height m) (content m) (selectedLine m) (scrolledTop m).

Definition set_height (v : Z) (m : TableModel) : TableModel :=
  mkTableModel (width m) v (content m) (selectedLine m) (scrolledTop m).

Definition SetSize (w h : Z) (m : TableModel) : TableModel :=
  set_height h (set_width w m).

(** Update, with the key table [m.keys] as an argument.  The message comes
    back unless a key of the table was pressed on a table with rows
    ([None] is the nil message). *)
Definition Update (keys : Keys) (msg : Msg) (m : TableModel)
  : TableModel * option Msg :=
  match msg with
  | WindowSizeMsg Width Height =>
      let m := if width m >? Width then set_width Width m else m in
      let m := if height m >? Height then set_height Height m else m in
      (m, Some msg)
  | KeyMsg text =>
      if len (content m) =? 0 then (m, Some msg)
      else if oneOf text (SelectLineDown1 keys) (SelectLineDown2 keys)
                (SelectLineDown3 keys) then
        (SetSelectedLine (selectedLine m +i 1) m, None)
      else if oneOf text (SelectLineUp1 keys) (SelectLineUp2 keys)
                (SelectLineUp3 keys) then
        (SetSelectedLine (selectedLine m -i 1) m, None)
      else if oneOf text (MoveViewDown1 keys) (MoveViewDown2 keys)
                (MoveViewDown3 keys) then
        (ViewScroll 1 m, None)
      else if oneOf text (MoveViewUp1 keys) (MoveViewUp2 keys)
                (MoveViewUp3 keys) then
        (ViewScroll (-1) m, None)
      else if oneOf text (PageDown1 keys) (PageDown2 keys)
                (PageDown3 keys) then
        (PageScroll 1 true m, None)
      else if oneOf text (PageUp1 keys) (PageUp2 keys) (PageUp3 keys) then
        (PageScroll (-1) true m, None)
      else if oneOf text (Top1 keys) (Top2 keys) (Top3 keys) then
        (if selectedLine m >? 0 then SetSelectedLine 0 m else m, None)
      else if oneOf text (Bottom1 keys) (Bottom2 keys) (Bottom3 keys) then
        (if selectedLine m <? len (content m) -i 1
         then SetSelectedLine (len (content m) -i 1) m else m, None)
      else (m, Some msg)
  | OtherMsg => (m, Some msg)
  end.

Definition DefaultKeys : Keys :=
  mkKeys (str "j") (str "down") []
    (str "k") (str "up") []
    (str "J") (str "shift+down") []
    (str "K") (str "shift+up") []
    (str "ctrl+d") (str "ctrl+f") (str "pgdown")
    (str "ctrl+u") (str "ctrl+b") (str "pgup")
    (str "g") (str "home") []
    (str "G") (str "end") [].

Section rendering.

Context {lib : lipgloss.Lib}.

(** Outside the repository: [stripansi.Strip] and [strings.Split] on the
    text of the rendered table, [len([]rune(s))] of a string that is kept
    as bytes, and
    [fmt.Sprintf("[%.0f%%]", (float64(a)/float64(b))*100)]. *)
Variable Strip : gobytes -> gobytes.
Variable Split : gobytes -> gobytes -> list gobytes.
Variable runeCount : gobytes -> Z.
Variable sprintfPercent : Z -> Z -> gobytes.

(** The fields of TableModel that only View and addBorders read;
    [colSizes] is [None] for the nil slice. *)
Record Decor := mkDecor {
  title : gobytes;
  headers : list gostring;
  colSizes : option (list Z);
  borderType : lipgloss.Border;
  borderStyle : lipgloss.Style;
  titleStyle : lipgloss.Style;
  scrollBarStyleBar : lipgloss.Style;
  scrollBarStyleSpace : lipgloss.Style;
  headerStyle : lipgloss.Style;
  linesStyle : lipgloss.Style;
  selectedLineStyle : lipgloss.Style
}.

(** The top border of addBorders. *)
Definition borderTop (d : Decor) (m : TableModel) : option gobytes :=
  let borderTop := lipgloss.TopLeft (borderType d) in
  borderTop ←
    match title d with
    | [] =>
        r ← Repeat (lipgloss.Top (borderType d)) (width m -i 2);
        let borderTop := borderTop ++ r in
        Some (borderTop ++ lipgloss.TopRight (borderType d))
    | _ :: _ =>
        t ← (if runeCount (title d) >? width m -i 4
             then p ← slice (title d) 0 (width m -i 7);
                  Some (p ++ str "...")
             else Some (title d));
        let o := Z.rem (runeCount t) 2 in
        r ← Repeat (lipgloss.Top (borderType d))
              (Z.quot (width m -i 1) 2 -i Z.quot (runeCount t) 2 -i 1);
        let borderTop := borderTop ++ r in
        let borderTop :=
          borderTop ++ str "[" ++ lipgloss.Render (titleStyle d) t
            ++ lipgloss.Render (borderStyle d) (str "]") in
        r ← Repeat (lipgloss.Top (borderType d))
              (width m -i Z.quot (width m -i 1) 2
                 -i Z.quot (runeCount t) 2 -i 3 -i o);
        let borderTop := borderTop ++ lipgloss.Render (borderStyle d) r in
        Some (borderTop
                ++ lipgloss.Render (borderStyle d)
                     (lipgloss.TopRight (borderType d)))
    end;
  Some (lipgloss.Render (borderStyle d) borderTop).

Definition borderLeft (d : Decor) (m : TableModel) : option gobytes :=
  r ← Repeat (lipgloss.Left (borderType d) ++ [newline]) (height m -i 3);
  let borderLeft := r ++ lipgloss.Left (borderType d) in
  Some (lipgloss.Render (borderStyle d) borderLeft).

Definition borderRight (d : Decor) (m : TableModel) : option gobytes :=
  if len (content m) <=? height m -i 2 then
    r ← Repeat (lipgloss.Right (borderType d) ++ [newline]) (height m -i 3);
    Some (r ++ lipgloss.Right (borderType d))
  else
    q ← int_quo (len (content m) -i 1) (height m -i 4);
    s ← int_quo (scrolledTop m) q;
    let borderRight :=
      lipgloss.Render (borderStyle d) (lipgloss.Right (borderType d))
        ++ [newline] in
    let borderRight :=
      borderRight
        ++ lipgloss.Render (borderStyle d) (lipgloss.Right (borderType d))
        ++ [newline] in
    if scrolledTop m >? len (content m) -i height m -i 5 then
      r ← Repeat
            (lipgloss.Render (scrollBarStyleSpace d) spaceMark ++ [newline])
            (height m -i 5);
      let borderRight := borderRight ++ r in
      Some (borderRight ++ lipgloss.Render (scrollBarStyleBar d) barMark)
    else
      Some (foldl
              (fun borderRight l =>
                 let borderRight :=
                   if s =? l
                   then borderRight
                          ++ lipgloss.Render (scrollBarStyleBar d) barMark
                   else borderRight
                          ++ lipgloss.Render (scrollBarStyleSpace d)
                               spaceMark in
                 if l <? height m -i 5 then borderRight ++ [newline]
                 else borderRight)
              borderRight (seqZ 0 (height m -i 4))).

Definition borderBottom (d : Decor) (m : TableModel) : option gobytes :=
  borderBottom ←
    (if len (content m) <=? height m -i 2 then
       let borderBottom := lipgloss.BottomLeft (borderType d) in
       r ← Repeat (lipgloss.Bottom (borderType d)) (width m -i 2);
       let borderBottom := borderBottom ++ r in
       Some (borderBottom ++ lipgloss.BottomRight (borderType d))
     else
       let borderBottom :=
         if scrolledTop m >=? len (content m) -i height m +i 3
         then str "[100%]"
         else sprintfPercent (scrolledTop m) (len (content m) -i 1) in
       r ← Repeat (lipgloss.Bottom (borderType d))
             (width m -i 3 -i len borderBottom);
       Some (lipgloss.BottomLeft (borderType d) ++ r ++ borderBottom
               ++ lipgloss.Bottom (borderType d)
               ++ lipgloss.BottomRight (borderType d)));
  Some (lipgloss.Render (borderStyle d) borderBottom).

(** The empty lines that addBorders puts below a table that is shorter
    than the window. *)
Definition borderFill (d : Decor) (table : gobytes) (m : TableModel)
  : option gobytes :=
  let zb := height m -i 5 -i len (content m) in
  if zb >? 0 then
    ll ← index (Split (Strip table) [newline]) 0;
    let ls := Split ll (lipgloss.Right (borderType d)) in
    ls' ← slice ls 0 (len ls -i 1);
    range_loop
      (fun _ (_ : Z) fill =>
         let fill := fill ++ [newline] in
         range_loop
           (fun _ lf fill =>
              r ← Repeat (str " ") (runeCount lf);
              Some (fill ++ r ++ lipgloss.Right (borderType d)))
           0 ls' fill)
      0 (seqZ 0 (zb +i 1)) []
  else Some [].

(** addBorders: the four borders and the fill in the order in which the
    function builds them, then the three joins. *)
Definition addBorders (d : Decor) (table : gobytes) (m : TableModel)
  : option gobytes :=
  if height m <? 5 then Some table
  else
    borderTop ← borderTop d m;
    borderLeft ← borderLeft d m;
    borderRight ← borderRight d m;
    borderBottom ← borderBottom d m;
    fill ← borderFill d table m;
    let table := table ++ fill in
    let ret :=
      lipgloss.JoinHorizontal lipgloss.PositionLeft
        [borderLeft; table; borderRight] in
    let ret := lipgloss.JoinVertical lipgloss.PositionLeft [borderTop; ret] in
    Some (lipgloss.JoinVertical lipgloss.PositionLeft [ret; borderBottom]).

(** [style.Width(m.colSizes[col])] where the size is not 0. *)
Definition sized (style : lipgloss.Style) (colSizes : list Z) (col : Z)
  : option lipgloss.Style :=
  c ← index colSizes col;
  Some (if negb (c =? 0) then lipgloss.Width style c else style).

(** The function that View hands to [StyleFunc]. *)
Definition styleFunc (d : Decor) (m : TableModel) (row col : Z)
  : option lipgloss.Style :=
  match colSizes d with
  | Some colSizes =>
      if row =? lipgloss.HeaderRow then sized (headerStyle d) colSizes col
      else if row =? selectedLine m -i scrolledTop m
      then sized (selectedLineStyle d) colSizes col
      else sized (linesStyle d) colSizes col
  | None =>
      Some (if row =? lipgloss.HeaderRow then headerStyle d
            else if row =? selectedLine m -i scrolledTop m
            then selectedLineStyle d
            else linesStyle d)
  end.

Definition View (d : Decor) (m : TableModel) : option gobytes :=
  let height := Z.min (height m -i 4 +i scrolledTop m) (len (content m)) in
  rows ← slice (content m) (scrolledTop m) height;
  s ← lipgloss.RenderTable (headers d) rows (width m) (styleFunc d m);
  addBorders d s m.

End rendering.

End basictable.

(** ** Reference definitions

    Written from the wording of the specification, to be compared with the
    code above. *)

(** A hard split "at exactly [W] runes per produced line": a text of at most
    [W] runes is one line; a longer one gives its first [W] runes and the
    hard split of the rest. *)
Fixpoint chunks (fuel W : nat) (p : gostring) : list gostring :=
  match fuel with
  | O => [p]
  | S fuel' =>
      if (length p <=? W)%nat then [p]
      else take W p :: chunks fuel' W (drop W p)
  end.

Definition hardSplit (W : nat) (p : gostring) : list gostring :=
  chunks (length p) W p.

(** [x] clamped into [[lo, hi]]. *)
Definition clamp (lo hi x : Z) : Z := Z.max lo (Z.min hi x).

(** The largest scroll position of the specification,
    [max(0, totalDisplayLines - height)]. *)
Definition maxScroll (totalDisplayLines height : Z) : Z :=
  Z.max 0 (totalDisplayLines - height).

(** The scroll bound of the specification. *)
Definition scrollBound (scrolledTop totalDisplayLines height : Z) : Prop :=
  0 <= scrolledTop <= maxScroll totalDisplayLines height.

(** The wrap geometry of the line list: row [r] takes [hs !! r] display
    lines, which follow those of the rows before it. *)
Definition total (hs : list Z) : Z := foldr Z.add 0 hs.

Definition start (hs : list Z) (r : nat) : Z := total (take r hs).

(** The model keeps its size, its rows, its selection and its scroll
    position. *)
Definition sameSettings (m m' : tm.TextModel) : Prop :=
  tm.width m' = tm.width m /\
  tm.height m' = tm.height m /\
  tm.content m' = tm.content m /\
  tm.selectedLine m' = tm.selectedLine m /\
  tm.scrolledTop m' = tm.scrolledTop m.

(** The display state of [m] is the one of rows with the heights [hs]:
    the number of display lines, the lines of the selected row, and both
    index maps. *)
Record geometry (hs : list Z) (m : tm.TextModel) : Prop := mkGeometry {
  geo_total : len (tm.parsedContent m) = total hs;
  geo_selected :
    tm.selectedParsedLines m =
      match index hs (tm.selectedLine m) with
      | Some h => seqZ (start hs (Z.to_nat (tm.selectedLine m))) h
      | None => []
      end;
  geo_rows : forall r : nat,
    tm.parsedSelectableLinesMap m !! Z.of_nat r
      = (fun h => seqZ (start hs r) h) <$> hs !! r;
  geo_rows_out : forall r : Z,
    r < 0 -> tm.parsedSelectableLinesMap m !! r = None;
  geo_lines : forall (r : nat) (h k : Z),
    hs !! r = Some h -> start hs r <= k < start hs r + h ->
    tm.selectableParsedLinesMap m !! k = Some (Z.of_nat r);
  geo_lines_out : forall k : Z,
    ~ (0 <= k < total hs) -> tm.selectableParsedLinesMap m !! k = None
}.

(** The display lines of a row, by the reference hard split of what the word
    wrapper returns for the row, and their number for every row. *)
Definition rowLines (wordwrap : gostring -> Z -> gostring) (width : Z)
    (row : gostring) : list gostring :=
  concat (map (hardSplit (Z.to_nat (width - 2)))
            (split_newline (wordwrap row (width - 2)))).

Definition heights (wordwrap : gostring -> Z -> gostring) (width : Z)
    (rows : list gostring) : list Z :=
  map (fun row => len (rowLines wordwrap width row)) rows.

(** The widget is wide enough to wrap ([width - 2] is at least one rune) and
    every length involved is far from the end of [int]. *)
Definition wrapFits (wordwrap : gostring -> Z -> gostring) (width : Z)
    (rows : list gostring) : Prop :=
  3 <= width <= 2 ^ 60 /\
  Forall (fun row => len (wordwrap row (width - 2)) <= 2 ^ 60) rows /\
  total (heights wordwrap width rows) <= 2 ^ 60.

(** Where SetSelectedLine of the line list leaves [scrolledTop], for a
    selected row of [h] display lines that starts at line [first]. *)
Definition scrollToRow (height st first h : Z) : Z :=
  let last := first + h - 1 in
  let st1 := if last >? st + height - h - 2 then last - height + 3 else st in
  let st2 := if first <? st1 then first else st1 in
  if st2 <? 0 then 0 else st2.

(** The display lines of all rows in order, the lines of the selected row
    rendered; [i] is the index of the first row. *)
Fixpoint shownLines (render : gostring -> gostring) (selected i : Z)
    (lss : list (list gostring)) : list gostring :=
  match lss with
  | [] => []
  | ls :: lss' =>
      (if i =? selected then map render ls else ls)
      ++ shownLines render selected (i + 1) lss'
  end.

(** "Some configured filter-target column contains [text] as a
    case-insensitive substring": the lowered text occurs in a lowered
    cell. *)
Definition matchesFilter (toLower : rune -> rune) (cols : list Z)
    (text : gostring) (line : list gostring) : bool :=
  existsb
    (fun c =>
       contains (table.ToLower toLower (table.cellOr line c))
         (table.ToLower toLower text))
    cols.

(** Every row has a cell in each of the given columns. *)
Definition rowsHave (cols : list Z) (rows : list (list gostring)) : Prop :=
  Forall (fun line => Forall (fun c => table.hasCell c line = true) cols) rows.

(** The rows by their key in column [col], upwards. *)
Definition keyLe (compareString : gostring -> gostring -> Z) (col : Z)
    (a b : list gostring) : Prop :=
  compareString (table.cellOr a col) (table.cellOr b col) <= 0.

(** Some display line of the selected row is inside the window
    [[scrolledTop, scrolledTop + height)]; all display lines fit the
    window. *)
Definition tmSelectionVisible (m : tm.TextModel) : bool :=
  existsb
    (fun k =>
       (tm.scrolledTop m <=? k)
       && (k <? tm.scrolledTop m + tm.viewportHeight m))
    (tm.selectedParsedLines m).

Definition tmContentFits (m : tm.TextModel) : bool :=
  len (tm.parsedContent m) <=? tm.viewportHeight m.

(** The same for the table, where a row is one display line: the selected
    row exists and is inside the window. *)
Definition tableSelectionVisible (m : table.TableModel) : bool :=
  (0 <=? table.selectedLine m)
  && (table.selectedLine m <? len (table.sortedContent m))
  && (table.scrolledTop m <=? table.selectedLine m)
  && (table.selectedLine m <? table.scrolledTop m + table.viewportHeight m).

Definition tableContentFits (m : table.TableModel) : bool :=
  len (table.sortedContent m) <=? table.viewportHeight m.

(** ** Stand-ins for the libraries, for examples *)

(** A word wrapper that finds no place to break, which is what a row
    without spaces is to any word wrapper; a renderer that adds no escape
    sequences. *)
Definition plainWrap : gostring -> Z -> gostring := fun s _ => s.
Definition plainRender : gostring -> gostring := fun s => s.

(** ASCII lower case, which is what [unicode.ToLower] does below 128. *)
Definition rune_lower (c : rune) : rune :=
  if (65 <=? c) && (c <=? 90) then c + 32 else c.

(** A comparison of texts rune by rune: negative, zero or positive. *)
Fixpoint lexCompare (a b : gostring) : Z :=
  match a, b with
  | [], [] => 0
  | [], _ :: _ => -1
  | _ :: _, [] => 1
  | x :: a', y :: b' =>
      if x <? y then -1 else if y <? x then 1 else lexCompare a' b'
  end.

(** A sort by comparison function. *)
Definition mergeSortFunc (cmp : list gostring -> list gostring -> Z)
    (l : list (list gostring)) : list (list gostring) :=
  @merge_sort _ (fun a b => cmp a b <= 0)
    (fun a b => decide (cmp a b <= 0)) l.

(** ** Example models *)

(** NewTextModel followed by SetSize. *)
Definition tmEmpty (width height : Z) : tm.TextModel :=
  tm.mkTextModel width height [] [] 0 [] ∅ ∅ 0.

(** The line list after SetContent. *)
Definition tmOf (width height : Z) (rows : list gostring) : tm.TextModel :=
  default (tmEmpty width height)
    (tm.SetContent plainWrap plainRender rows (tmEmpty width height)).

(** Three rows in a window of three lines, the last row selected. *)
Definition tmTail : tm.TextModel :=
  default (tmEmpty 10 5)
    (tm.SetSelectedLine plainWrap plainRender 2
       (tmOf 10 5 [str "one"; str "two"; str "three"])).

(** WithContent("a") and SetSize(10, -1): nothing is wrapped yet. *)
Definition tmNegativeHeight : tm.TextModel :=
  tm.mkTextModel 10 (-1) [str "a"] [] 0 [] ∅ ∅ 0.

(** WithContent("a") and SetSize(-1, 5). *)
Definition tmNegativeWidth : tm.TextModel :=
  tm.mkTextModel (-1) 5 [str "a"] [] 0 [] ∅ ∅ 0.

(** A row with a line break in it: "a", newline, "b". *)
Definition twoLineRow : gostring := str "a" ++ [newline] ++ str "b".

(** A hundred one-line rows in a window of ten lines (Scenario C). *)
Definition tmHundred : tm.TextModel := tmOf 10 12 (replicate 100 (str "x")).

Definition basicHundred : basictable.TableModel :=
  basictable.mkTableModel 20 14 (replicate 100 [str "x"]) 0 0.

Definition tableHundred : table.TableModel :=
  table.mkTableModel 20 13 [str "name"] (replicate 100 [str "x"]) 0 0 []
    [0] (replicate 100 [str "x"]) 0 table.SortUnsorted
    (replicate 100 [str "x"]).

(** Twenty one-line rows in a window of ten lines. *)
Definition tmTwenty : tm.TextModel := tmOf 10 12 (replicate 20 (str "x")).

(** Three rows in a table window of six rows (part_001). *)
Definition basicShort : basictable.TableModel :=
  basictable.mkTableModel 20 10 [[str "a"]; [str "b"]; [str "c"]] 0 0.

(** The table of Scenario B, without a filter and unsorted. *)
Definition people : list (list gostring) :=
  [[str "Alice"; str "30"]; [str "bob"; str "25"]; [str "Cathy"; str "40"]].

Definition tablePeople : table.TableModel :=
  table.mkTableModel 40 10 [str "name"; str "age"] people 0 0 []
    [0] people 0 table.SortUnsorted people.

(** The table of a hundred rows scrolled to its end. *)
Definition tableHundredEnd : table.TableModel :=
  table.set_scrolledTop 90 (table.set_selectedLine 99 tableHundred).

(** The hundred rows with the last one selected and the window moved away
    from it: SetSelectedLine(99), then ViewScroll(-50). *)
Definition tmHundredAway : tm.TextModel :=
  tm.ViewScroll (-50)
    (default tmHundred (tm.SetSelectedLine plainWrap plainRender 99 tmHundred)).

(** The hundred rows with the first one selected and the window at the
    end: ViewScroll(90). *)
Definition tmHundredEnd : tm.TextModel := tm.ViewScroll 90 tmHundred.

(** ** Reference definitions for the column widths, the key handling and
    the working order of the line list *)

(** The number of automatic columns: those of size 0. *)
Definition autoCount (sizes : list Z) : Z :=
  len (filter (fun c => c = 0) sizes).

(** The width left for the automatic columns of a table [width] wide: what
    the two side borders, the separators between the columns and the fixed
    columns leave. *)
Definition freeWidth (width : Z) (sizes : list Z) : Z :=
  width - (len sizes + 1) - total sizes.

(** Sharing out: a fixed column keeps its size; an automatic one gets
    [base], and one more while fewer than [rem] automatic columns were
    [seen] before it. *)
Fixpoint shareOut (base rem seen : Z) (sizes : list Z) : list Z :=
  match sizes with
  | [] => []
  | c :: sizes' =>
      if c =? 0
      then (if seen <? rem then base + 1 else base)
             :: shareOut base rem (seen + 1) sizes'
      else c :: shareOut base rem seen sizes'
  end.

Definition columnSizes (width : Z) (sizes : list Z) : list Z :=
  shareOut (Z.quot (freeWidth width sizes) (autoCount sizes))
    (Z.rem (freeWidth width sizes) (autoCount sizes)) 0 sizes.

(** What computeColSizes needs of a row: a size for each of its cells, and
    a header over each cell in an automatic column. *)
Definition rowFits (n : nat) (mcolSizes : list Z) (line : list gostring)
  : Prop :=
  (length line <= length mcolSizes)%nat /\
  forall i : nat, (i < length line)%nat -> mcolSizes !! i = Some 0 ->
    (i < n)%nat.

(** A slice of sizes under construction in computeColSizes: one entry for
    each of the [n] headers, the fixed ones in place. *)
Definition agree (mcolSizes : list Z) (n : nat) (cs : list Z) : Prop :=
  length cs = n /\
  forall (i : nat) c, mcolSizes !! i = Some c -> c <> 0 -> (i < n)%nat ->
    cs !! i = Some c.

(** What computeColSizes needs to return: a size for each header, an
    automatic column among them, and rows that fit. *)
Definition columnsFit (mcolSizes : list Z) (m : table.TableModel) : Prop :=
  (length (table.headers m) <= length mcolSizes)%nat /\
  0 < autoCount (take (length (table.headers m)) mcolSizes) /\
  Forall (rowFits (length (table.headers m)) mcolSizes)
    (table.filteredContent m).

(** [stripansi.Strip] on texts without escape sequences. *)
Definition plainStrip : gostring -> gostring := fun s => s.

(** A line list in working order: it can wrap its rows, its window has at
    least one line, the display state is the one of its rows, a row that
    exists is selected, and the scroll position is inside the bound. *)
Definition tmReady (wordwrap : gostring -> Z -> gostring) (m : tm.TextModel)
  : Prop :=
  wrapFits wordwrap (tm.width m) (tm.content m) /\
  3 <= tm.height m <= 2 ^ 30 /\
  geometry (heights wordwrap (tm.width m) (tm.content m)) m /\
  0 <= tm.selectedLine m < len (tm.content m) /\
  scrollBound (tm.scrolledTop m) (len (tm.parsedContent m))
    (tm.viewportHeight m).

(** The scroll bound of the table with a filter, over its filtered rows. *)
Definition tableBound (m : table.TableModel) : Prop :=
  scrollBound (table.scrolledTop m) (len (table.filteredContent m))
    (table.viewportHeight m).

(** Three rows in a table window of four rows. *)
Definition tableNearlyFull : table.TableModel := table.set_height 7 tablePeople.

(** * Properties *)

(** ** Arithmetic that does not wrap *)

Lemma wrap_id z : - 2 ^ 63 <= z < 2 ^ 63 -> wrap z = z.
Proof. intros H. unfold wrap. rewrite Z.mod_small by lia. lia. Qed.

Ltac unwrap :=
  unfold int_add, int_sub, int_mul, int_neg in *;
  repeat match goal with
    | |- context [wrap ?z] => rewrite (wrap_id z) by lia
    | H : context [wrap ?z] |- _ => rewrite (wrap_id z) in H by lia
    end.

Lemma len_app {A} (l k : list A) : len (l ++ k) = len l + len k.
Proof. unfold len. rewrite length_app. lia. Qed.

Lemma len_nonneg {A} (l : list A) : 0 <= len l.
Proof. unfold len. lia. Qed.

Lemma slice_Some {A} (l : list A) (a b : nat) :
  (a <= b <= length l)%nat ->
  slice l (Z.of_nat a) (Z.of_nat b) = Some (take (b - a) (drop a l)).
Proof.
  intros H. unfold slice, len.
  replace (Z.to_nat (Z.of_nat b - Z.of_nat a)) with (b - a)%nat by lia.
  rewrite Nat2Z.id.
  destruct (Z.leb_spec 0 (Z.of_nat a)); [|lia].
  destruct (Z.leb_spec (Z.of_nat a) (Z.of_nat b)); [|lia].
  destruct (Z.leb_spec (Z.of_nat b) (Z.of_nat (length l))); [|lia].
  reflexivity.
Qed.

Lemma slice_from_Some {A} (l : list A) (a : nat) :
  (a <= length l)%nat -> slice_from l (Z.of_nat a) = Some (drop a l).
Proof.
  intros H. unfold slice_from, len. rewrite slice_Some by lia.
  rewrite take_ge; [reflexivity|]. rewrite length_drop. lia.
Qed.

(** ** Splitting at newlines *)

Lemma split_newline_nonempty s : split_newline s <> [].
Proof.
  destruct s as [|c s]; simpl; [discriminate|].
  destruct (split_newline s); [discriminate|].
  destruct (c =? newline); discriminate.
Qed.

Lemma split_newline_concat s :
  concat (split_newline s) = filter (fun c => c <> newline) s.
Proof.
  induction s as [|c s IH]; [reflexivity|].
  rewrite filter_cons, <- IH. cbn [split_newline].
  pose proof (split_newline_nonempty s) as Hne.
  destruct (split_newline s) as [|p ps]; [congruence|].
  destruct (Z.eqb_spec c newline) as [->|Hc].
  - rewrite decide_False by (intros H; apply H; reflexivity). reflexivity.
  - rewrite decide_True by assumption. reflexivity.
Qed.

Lemma split_newline_length s :
  Forall (fun p => (length p <= length s)%nat) (split_newline s).
Proof.
  induction s as [|c s IH]; simpl; [repeat constructor|].
  pose proof (split_newline_nonempty s) as Hne.
  destruct (split_newline s) as [|p ps]; [congruence|].
  inversion IH as [|? ? Hp Hps]; subst.
  assert (Forall (fun p0 => (length p0 <= S (length s))%nat) ps) as Hps'.
  { eapply Forall_impl; [exact Hps|]. simpl. intros; lia. }
  destruct (c =? newline); constructor; simpl; try lia;
    try constructor; simpl; try lia; assumption.
Qed.

Lemma split_newline_free s :
  Forall (fun p => newline ∉ p) (split_newline s).
Proof.
  induction s as [|c s IH]; simpl.
  - constructor; [|constructor]. apply not_elem_of_nil.
  - pose proof (split_newline_nonempty s) as Hne.
    destruct (split_newline s) as [|p ps]; [congruence|].
    inversion IH as [|? ? Hp Hps]; subst.
    destruct (Z.eqb_spec c newline) as [->|Hc].
    + constructor; [apply not_elem_of_nil|]. constructor; assumption.
    + constructor; [|assumption].
      rewrite elem_of_cons. intros [E|E]; [congruence|contradiction].
Qed.

(** ** The reference hard split *)

Lemma chunks_fuel W p f1 f2 :
  (1 <= W)%nat -> (length p <= f1)%nat -> (length p <= f2)%nat ->
  chunks f1 W p = chunks f2 W p.
Proof.
  intros HW. revert p f2.
  induction f1 as [|f1 IH]; intros p f2 H1 H2.
  - destruct p; [|simpl in H1; lia]. destruct f2; reflexivity.
  - destruct f2 as [|f2].
    + destruct p; [|simpl in H2; lia]. reflexivity.
    + simpl. destruct (Nat.leb_spec (length p) W); [reflexivity|].
      f_equal. apply IH; rewrite length_drop; lia.
Qed.

Lemma chunks_concat fuel W p : concat (chunks fuel W p) = p.
Proof.
  revert p. induction fuel as [|fuel IH]; intros p; simpl.
  - apply app_nil_r.
  - destruct (length p <=? W)%nat; simpl; [apply app_nil_r|].
    rewrite IH. apply take_drop.
Qed.

Lemma chunks_short fuel W p :
  (length p <= W)%nat -> chunks fuel W p = [p].
Proof.
  intros H. destruct fuel; simpl; [reflexivity|].
  destruct (Nat.leb_spec (length p) W); [reflexivity|lia].
Qed.

Lemma chunks_long fuel W p :
  (1 <= W)%nat -> (W < length p)%nat -> (length p <= fuel)%nat ->
  chunks fuel W p = take W p :: chunks fuel W (drop W p).
Proof.
  intros HW Hl Hf. destruct fuel as [|fuel]; [lia|].
  rewrite (chunks_fuel W (drop W p) (S fuel) fuel);
    [|lia|rewrite length_drop; lia..].
  simpl. destruct (Nat.leb_spec (length p) W); [lia|reflexivity].
Qed.

(** Every line but the last has exactly [W] runes, the last has from one to
    [W] (none only for the empty text). *)
Lemma chunks_sizes fuel W p :
  (1 <= W)%nat -> (length p <= fuel)%nat ->
  exists cs last,
    chunks fuel W p = cs ++ [last] /\
    Forall (fun c => length c = W) cs /\
    (length last <= W)%nat /\
    (p <> [] -> (1 <= length last)%nat).
Proof.
  intros HW. revert p. induction fuel as [|fuel IH]; intros p Hf.
  - exists [], p. simpl. repeat split; [constructor|lia|].
    destruct p; [congruence|simpl in Hf; lia].
  - simpl. destruct (Nat.leb_spec (length p) W) as [Hs|Hl].
    + exists [], p. simpl. repeat split; [constructor|lia|].
      destruct p; [congruence|simpl; lia].
    + destruct (IH (drop W p)) as (cs & last & E & Hcs & Hlast & Hne).
      { rewrite length_drop. lia. }
      exists (take W p :: cs), last. rewrite E. simpl.
      repeat split; [|assumption|].
      * constructor; [|assumption]. rewrite length_take. lia.
      * intros _. apply Hne. intros E0.
        apply (f_equal length) in E0. rewrite length_drop in E0.
        simpl in E0. lia.
Qed.

(** ** The wrapper of the line list *)

Section tm_wrap.

Variable wordwrap : gostring -> Z -> gostring.

(** The loop of parseContent on a text [w] longer than [W] runes, entered
    at rune [k]: it cuts the lines the reference does and stops with a [z]
    that leaves the last one to [w[z+W:]]. *)
Lemma splitLoop_chunks (W : nat) (w : gostring) :
  (1 <= W)%nat -> Z.of_nat W <= 2 ^ 60 -> len w <= 2 ^ 60 ->
  forall fuel k z acc,
    (k + W < length w)%nat -> (length w - k <= fuel)%nat ->
    exists k' cs,
      tm.splitLoop fuel w (Z.of_nat W + 2) (Z.of_nat k) z acc
        = Some (Z.of_nat k', acc ++ cs) /\
      (k' + W < length w <= k' + W + W)%nat /\
      cs ++ [drop (k' + W) w] = chunks (length w) W (drop k w).
Proof.
  intros HW HWs Hws. unfold len in Hws.
  induction fuel as [|fuel IH]; intros k z acc Hk Hf; [lia|].
  cbn [tm.splitLoop]. unfold len. unwrap.
  destruct (Z.ltb_spec (Z.of_nat k)
              (Z.of_nat (length w) - 1 - (Z.of_nat W + 2) - 2 + 5)); [|lia].
  replace (Z.of_nat k + (Z.of_nat W + 2) - 2) with (Z.of_nat (k + W)) by lia.
  rewrite slice_Some by lia. cbn [mbind option_bind].
  replace (Z.of_nat k + (Z.of_nat W + 2 - 2)) with (Z.of_nat (k + W)) by lia.
  replace (k + W - k)%nat with W by lia.
  assert (chunks (length w) W (drop k w)
          = take W (drop k w) :: chunks (length w) W (drop (k + W) w)) as Hc.
  { rewrite chunks_long, drop_drop; [reflexivity|lia|..];
      rewrite length_drop; lia. }
  destruct (Nat.lt_ge_cases (k + W + W) (length w)) as [Hmore|Hlast].
  - destruct (IH (k + W)%nat (Z.of_nat k) (acc ++ [take W (drop k w)]))
      as (k' & cs & E & Hk' & Hcs); [lia..|].
    exists k', (take W (drop k w) :: cs). rewrite E, <- app_assoc.
    split; [reflexivity|]. split; [lia|].
    rewrite Hc. simpl. f_equal. exact Hcs.
  - destruct fuel as [|fuel]; [lia|]. cbn [tm.splitLoop]. unfold len. unwrap.
    destruct (Z.ltb_spec (Z.of_nat (k + W))
                (Z.of_nat (length w) - 1 - (Z.of_nat W + 2) - 2 + 5)); [lia|].
    exists k, [take W (drop k w)].
    split; [reflexivity|]. split; [lia|].
    rewrite Hc. simpl. f_equal. symmetry. apply chunks_short.
    rewrite length_drop. lia.
Qed.

(** One wrapped line becomes the lines of the reference hard split. *)
Lemma splitLine_hardSplit (W : nat) (acc : list gostring) (w : gostring) :
  (1 <= W)%nat -> Z.of_nat W <= 2 ^ 60 -> len w <= 2 ^ 60 ->
  tm.splitLine (Z.of_nat W + 2) acc w = Some (acc ++ hardSplit W w).
Proof.
  intros HW HWs Hws. unfold tm.splitLine, hardSplit.
  pose proof Hws as Hws'. unfold len in Hws'. unfold len. unwrap.
  rewrite Z.geb_leb.
  destruct (Z.leb_spec (Z.of_nat W + 2 - 2) (Z.of_nat (length w) - 1)).
  - destruct (splitLoop_chunks W w HW HWs Hws (S (length w)) 0%nat 0 acc)
      as (k' & cs & E & Hk' & Hcs); [lia..|].
    change (Z.of_nat 0) with 0 in E. rewrite E. cbn [mbind option_bind].
    unwrap.
    replace (Z.of_nat k' + (Z.of_nat W + 2) - 2) with (Z.of_nat (k' + W))
      by lia.
    rewrite slice_from_Some by lia. cbn [mbind option_bind].
    rewrite <- app_assoc, Hcs. reflexivity.
  - rewrite chunks_short by lia. reflexivity.
Qed.

Lemma splitLines_hardSplit (W : nat) (ws : list gostring) :
  (1 <= W)%nat -> Z.of_nat W <= 2 ^ 60 ->
  Forall (fun w => len w <= 2 ^ 60) ws ->
  forall acc,
    tm.splitLines (Z.of_nat W + 2) acc ws
      = Some (acc ++ concat (map (hardSplit W) ws)).
Proof.
  intros HW HWs Hws. unfold tm.splitLines. generalize 0 as i.
  induction Hws as [|w ws Hw Hws IH]; intros i acc; simpl.
  - rewrite app_nil_r. reflexivity.
  - rewrite splitLine_hardSplit by assumption. cbn [mbind option_bind].
    rewrite IH, <- app_assoc. reflexivity.
Qed.

(** The display lines of a row are the hard-split pieces of what the word
    wrapper returned. *)
Lemma wrapRow_hardSplit (width : Z) (line : gostring) :
  3 <= width <= 2 ^ 60 ->
  len (wordwrap line (width - 2)) <= 2 ^ 60 ->
  tm.wrapRow wordwrap width line
    = Some (concat (map (hardSplit (Z.to_nat (width - 2)))
                      (split_newline (wordwrap line (width - 2))))).
Proof.
  intros Hw Hl. unfold tm.wrapRow. unwrap.
  replace width with (Z.of_nat (Z.to_nat (width - 2)) + 2) at 1 by lia.
  rewrite splitLines_hardSplit; [reflexivity|lia|lia|].
  eapply Forall_impl; [apply split_newline_length|].
  simpl. intros p Hp. unfold len in *. lia.
Qed.

(** Whatever the word wrapper returns, a row that is wrapped at all has at
    least one display line. *)
Lemma splitLine_grows width acc w ws2 :
  tm.splitLine width acc w = Some ws2 -> ws2 <> [].
Proof.
  unfold tm.splitLine. destruct (_ >=? _).
  - destruct (tm.splitLoop _ _ _ _ _ _) as [[z l]|]; [|discriminate].
    cbn [mbind option_bind]. destruct (slice_from _ _); [|discriminate].
    cbn [mbind option_bind]. intros [= <-]. destruct l; discriminate.
  - intros [= <-]. destruct acc; discriminate.
Qed.

Lemma splitLines_keeps width ws :
  forall i acc ws2,
    acc <> [] ->
    range_loop (fun _ wl ws2 => tm.splitLine width ws2 wl) i ws acc
      = Some ws2 ->
    ws2 <> [].
Proof.
  induction ws as [|w ws IH]; intros i acc ws2 Hacc; simpl.
  - intros [= <-]. exact Hacc.
  - destruct (tm.splitLine width acc w) as [acc'|] eqn:E; [|discriminate].
    cbn [mbind option_bind]. apply IH. eapply splitLine_grows, E.
Qed.

Lemma wrapRow_nonempty width line ws2 :
  tm.wrapRow wordwrap width line = Some ws2 -> ws2 <> [].
Proof.
  unfold tm.wrapRow, tm.splitLines.
  pose proof (split_newline_nonempty (wordwrap line (width -i 2))) as Hne.
  destruct (split_newline _) as [|w ws]; [congruence|]. simpl.
  destruct (tm.splitLine width [] w) as [acc|] eqn:E; [|discriminate].
  cbn [mbind option_bind]. apply splitLines_keeps. eapply splitLine_grows, E.
Qed.

End tm_wrap.

(** ** The index that parseContent builds *)

Lemma range_loop_snoc {A S} (body : Z -> A -> S -> option S) xs x :
  forall i s,
    range_loop body i (xs ++ [x]) s
      = s' ← range_loop body i xs s; body (i + len xs) x s'.
Proof.
  induction xs as [|y xs IH]; intros i s; simpl.
  - replace (i + len []) with i by (unfold len; simpl; lia).
    destruct (body i x s); reflexivity.
  - destruct (body i y s) as [s1|]; [|reflexivity]. cbn [mbind option_bind].
    rewrite IH. replace (i + 1 + len xs) with (i + len (y :: xs)); [reflexivity|].
    unfold len. simpl. lia.
Qed.

Lemma total_app hs ks : total (hs ++ ks) = total hs + total ks.
Proof. induction hs as [|h hs IH]; simpl; [reflexivity|]. rewrite IH. lia. Qed.

Lemma total_nonneg hs : Forall (fun h => 1 <= h) hs -> 0 <= total hs.
Proof. induction 1; simpl; lia. Qed.

Lemma total_length hs : Forall (fun h => 1 <= h) hs -> len hs <= total hs.
Proof. unfold len. induction 1; simpl; lia. Qed.

(** A row ends where the next one starts, inside the total. *)
Lemma start_next hs (r : nat) h :
  hs !! r = Some h -> start hs (S r) = start hs r + h.
Proof.
  intros H. unfold start. erewrite take_S_r by exact H.
  rewrite total_app. simpl. lia.
Qed.

Lemma start_mono hs (r s : nat) :
  Forall (fun h => 1 <= h) hs -> (r <= s)%nat -> start hs r <= start hs s.
Proof.
  intros Hhs Hrs. unfold start.
  replace s with (r + (s - r))%nat by lia.
  rewrite <- take_take_drop, total_app.
  assert (0 <= total (take (s - r) (drop r hs))); [|lia].
  apply total_nonneg, Forall_take, Forall_drop, Hhs.
Qed.

Lemma start_all hs (r : nat) : (length hs <= r)%nat -> start hs r = total hs.
Proof. intros H. unfold start. rewrite take_ge by lia. reflexivity. Qed.

Lemma start_end hs (r : nat) h :
  Forall (fun h => 1 <= h) hs -> hs !! r = Some h ->
  0 <= start hs r /\ 1 <= h /\ start hs r + h <= total hs.
Proof.
  intros Hhs H. split; [|split].
  - apply total_nonneg, Forall_take, Hhs.
  - eapply Forall_lookup_1 in Hhs; [|exact H]. exact Hhs.
  - rewrite <- (start_next _ _ _ H), <- (start_all hs (length hs)) by lia.
    apply start_mono; [assumption|]. apply lookup_lt_Some in H. lia.
Qed.

Lemma start_snoc hs h (r : nat) :
  (r <= length hs)%nat -> start (hs ++ [h]) r = start hs r.
Proof. intros H. unfold start. rewrite take_app_le by lia. reflexivity. Qed.

Lemma indexRow_fields i p n m :
  sameSettings m (tm.indexRow i p n m) /\
  tm.parsedContent (tm.indexRow i p n m) = tm.parsedContent m /\
  tm.selectedParsedLines (tm.indexRow i p n m) = tm.selectedParsedLines m.
Proof.
  unfold tm.indexRow. generalize (seqZ 0 (Z.of_nat n)) as l.
  intros l. revert m. induction l as [|j l IH]; intros m; simpl.
  - unfold sameSettings. tauto.
  - destruct (IH (tm.set_parsedSelectableLinesMap
                    (<[i := tm.parsedOfLine
                              (tm.set_selectableParsedLinesMap
                                 (<[j +i p := i]> (tm.selectableParsedLinesMap m)) m) i
                            ++ [j +i p]]>
                       (tm.parsedSelectableLinesMap
                          (tm.set_selectableParsedLinesMap
                             (<[j +i p := i]> (tm.selectableParsedLinesMap m)) m)))
                    (tm.set_selectableParsedLinesMap
                       (<[j +i p := i]> (tm.selectableParsedLinesMap m)) m)))
      as (Hs & Hp & Hl).
    unfold sameSettings in *. simpl in *. tauto.
Qed.

Lemma indexRow_snoc i p (n : nat) m :
  tm.indexRow i p (S n) m =
    let m1 := tm.indexRow i p n m in
    let m2 := tm.set_selectableParsedLinesMap
                (<[Z.of_nat n +i p := i]> (tm.selectableParsedLinesMap m1)) m1 in
    tm.set_parsedSelectableLinesMap
      (<[i := tm.parsedOfLine m2 i ++ [Z.of_nat n +i p]]>
         (tm.parsedSelectableLinesMap m2)) m2.
Proof.
  unfold tm.indexRow. rewrite seqZ_S, foldl_app. simpl.
  rewrite Z.add_0_l. reflexivity.
Qed.

Lemma indexRow_lines i p (n : nat) m :
  0 <= p -> p + Z.of_nat n <= 2 ^ 62 ->
  forall k,
    tm.selectableParsedLinesMap (tm.indexRow i p n m) !! k =
      if decide (p <= k < p + Z.of_nat n) then Some i
      else tm.selectableParsedLinesMap m !! k.
Proof.
  intros Hp. induction n as [|n IH]; intros Hn k.
  - unfold tm.indexRow. simpl. rewrite decide_False by lia. reflexivity.
  - rewrite indexRow_snoc. simpl. unwrap.
    destruct (decide (Z.of_nat n + p = k)) as [<-|Hk].
    + rewrite lookup_insert_eq, decide_True by lia. reflexivity.
    + rewrite lookup_insert_ne, IH by lia.
      destruct (decide (p <= k < p + Z.of_nat n));
        [rewrite decide_True by lia|rewrite decide_False by lia]; reflexivity.
Qed.

Lemma indexRow_rows i p (n : nat) m :
  0 <= p -> p + Z.of_nat n <= 2 ^ 62 -> (1 <= n)%nat ->
  tm.parsedSelectableLinesMap (tm.indexRow i p n m) =
    <[i := tm.parsedOfLine m i ++ seqZ p (Z.of_nat n)]>
      (tm.parsedSelectableLinesMap m).
Proof.
  intros Hp. induction n as [|n IH]; intros Hn H1; [lia|].
  rewrite indexRow_snoc. simpl. unwrap.
  destruct n as [|n].
  - unfold tm.indexRow, tm.parsedOfLine. simpl. reflexivity.
  - unfold tm.parsedOfLine at 1. simpl. rewrite IH by lia.
    rewrite lookup_insert_eq. simpl. rewrite insert_insert_eq.
    rewrite (seqZ_S p (S n)), <- app_assoc. do 4 f_equal. lia.
Qed.

Section tm_parse.

Variable render : gostring -> gostring.

Lemma selectRow_fields p ws2 m :
  0 <= p -> p + len ws2 <= 2 ^ 62 ->
  let m' := snd (tm.selectRow render p ws2 m) in
  sameSettings m m' /\
  tm.parsedContent m' = tm.parsedContent m /\
  tm.selectableParsedLinesMap m' = tm.selectableParsedLinesMap m /\
  tm.parsedSelectableLinesMap m' = tm.parsedSelectableLinesMap m /\
  tm.selectedParsedLines m' = tm.selectedParsedLines m ++ seqZ p (len ws2).
Proof.
  intros Hp. unfold tm.selectRow, len. simpl.
  induction (length ws2) as [|n IH]; intros Hn.
  - simpl. rewrite app_nil_r. unfold sameSettings. tauto.
  - rewrite seqZ_S, foldl_app. simpl.
    destruct IH as (Hs & Hc & Hl & Hr & Hsel); [lia|].
    unfold sameSettings in *. simpl. rewrite Hsel, (seqZ_S p n), <- app_assoc.
    unwrap. rewrite Z.add_0_l. tauto.
Qed.

End tm_parse.

(** ** Indexing *)

Lemma index_Some {A} (l : list A) i x :
  index l i = Some x <-> 0 <= i /\ l !! Z.to_nat i = Some x.
Proof.
  unfold index. destruct (Z.leb_spec 0 i); split.
  - intros H1. split; [lia|exact H1].
  - intros [_ H1]. exact H1.
  - discriminate.
  - intros [H1 _]. lia.
Qed.

Lemma index_None {A} (l : list A) i :
  index l i = None <-> i < 0 \/ len l <= i.
Proof.
  unfold index, len. destruct (Z.leb_spec 0 i).
  - rewrite lookup_ge_None. lia.
  - split; [intros _; lia|reflexivity].
Qed.

Lemma index_nat {A} (l : list A) (r : nat) : index l (Z.of_nat r) = l !! r.
Proof.
  unfold index. destruct (Z.leb_spec 0 (Z.of_nat r)); [|lia].
  rewrite Nat2Z.id. reflexivity.
Qed.

Lemma index_app_l {A} (l k : list A) i :
  i < len l -> index (l ++ k) i = index l i.
Proof.
  unfold index, len. intros H. destruct (Z.leb_spec 0 i); [|reflexivity].
  apply lookup_app_l. lia.
Qed.

Lemma index_snoc_last {A} (l : list A) x : index (l ++ [x]) (len l) = Some x.
Proof.
  unfold len. rewrite index_nat, lookup_app_r by lia.
  rewrite Nat.sub_diag. reflexivity.
Qed.

Lemma index_seqZ m n i :
  0 <= i < n -> index (seqZ m n) i = Some (m + i).
Proof.
  intros H. apply index_Some. split; [lia|].
  rewrite lookup_seqZ_lt by lia. f_equal. lia.
Qed.

Section tm_geometry.

Variable wordwrap : gostring -> Z -> gostring.
Variable render : gostring -> gostring.

Lemma geometry_nil m :
  tm.parsedContent m = [] -> tm.selectedParsedLines m = [] ->
  tm.selectableParsedLinesMap m = ∅ -> tm.parsedSelectableLinesMap m = ∅ ->
  geometry [] m.
Proof.
  intros Hc Hs Hl Hr. constructor.
  - rewrite Hc. reflexivity.
  - rewrite Hs. unfold index. destruct (0 <=? _); reflexivity.
  - intros r. rewrite Hr, lookup_empty. reflexivity.
  - intros r _. rewrite Hr. apply lookup_empty.
  - intros r h k H. rewrite lookup_nil in H. discriminate.
  - intros k _. rewrite Hl. apply lookup_empty.
Qed.

(** One more row of [h] display lines, recorded the way parseContent does. *)
Lemma geometry_snoc hs h m m1 :
  Forall (fun h => 1 <= h) hs -> 1 <= h -> geometry hs m ->
  tm.selectedLine m1 = tm.selectedLine m ->
  len (tm.parsedContent m1) = len (tm.parsedContent m) + h ->
  tm.selectedParsedLines m1 =
    tm.selectedParsedLines m ++
    (if len hs =? tm.selectedLine m then seqZ (total hs) h else []) ->
  (forall k,
     tm.selectableParsedLinesMap m1 !! k =
       if decide (total hs <= k < total hs + h) then Some (len hs)
       else tm.selectableParsedLinesMap m !! k) ->
  tm.parsedSelectableLinesMap m1 =
    <[len hs := tm.parsedOfLine m (len hs) ++ seqZ (total hs) h]>
      (tm.parsedSelectableLinesMap m) ->
  geometry (hs ++ [h]) m1.
Proof.
  intros Hhs Hh G Hsel Hpc Hspl Hlines Hrows.
  pose proof (total_nonneg hs Hhs) as Hp.
  assert (start (hs ++ [h]) (length hs) = total hs) as Hst.
  { rewrite start_snoc, start_all by lia. reflexivity. }
  constructor.
  - rewrite Hpc, (geo_total _ _ G), total_app. simpl. lia.
  - rewrite Hspl, Hsel, (geo_selected _ _ G).
    destruct (Z.eqb_spec (len hs) (tm.selectedLine m)) as [E|E].
    + rewrite <- E, index_snoc_last.
      assert (index hs (len hs) = None) as -> by (apply index_None; lia).
      unfold len. rewrite Nat2Z.id, Hst. reflexivity.
    + rewrite app_nil_r.
      destruct (Z.lt_ge_cases (tm.selectedLine m) (len hs)) as [Hlt|Hge].
      * rewrite index_app_l by assumption.
        destruct (index hs (tm.selectedLine m)) eqn:Ei; [|reflexivity].
        apply index_Some in Ei. rewrite start_snoc; [reflexivity|].
        unfold len in Hlt. lia.
      * assert (index hs (tm.selectedLine m) = None) as ->
          by (apply index_None; lia).
        assert (index (hs ++ [h]) (tm.selectedLine m) = None) as ->;
          [|reflexivity].
        apply index_None. right. rewrite len_app. unfold len in *. simpl. lia.
  - intros r. rewrite Hrows. unfold len.
    destruct (decide (r = length hs)) as [->|Hr].
    + rewrite lookup_insert_eq, lookup_app_r, Nat.sub_diag by lia. simpl.
      rewrite Hst. unfold tm.parsedOfLine.
      rewrite (geo_rows _ _ G), lookup_ge_None_2 by lia. reflexivity.
    + rewrite lookup_insert_ne, (geo_rows _ _ G) by lia.
      destruct (Nat.lt_ge_cases r (length hs)).
      * rewrite lookup_app_l, start_snoc by lia. reflexivity.
      * rewrite (lookup_ge_None_2 hs r) by lia.
        rewrite lookup_ge_None_2; [reflexivity|].
        rewrite length_app. simpl. lia.
  - intros r Hr. rewrite Hrows, lookup_insert_ne by (unfold len; lia).
    apply (geo_rows_out _ _ G), Hr.
  - intros r h' k Hr Hk. rewrite Hlines.
    destruct (Nat.lt_ge_cases r (length hs)) as [Hlt|Hge].
    + rewrite lookup_app_l in Hr by lia. rewrite start_snoc in Hk by lia.
      destruct (start_end hs r h' Hhs Hr) as (? & ? & ?).
      rewrite decide_False by lia. eapply (geo_lines _ _ G); eassumption.
    + apply lookup_lt_Some in Hr as Hr'.
      rewrite length_app in Hr'. simpl in Hr'.
      assert (r = length hs) as -> by lia.
      rewrite lookup_app_r, Nat.sub_diag in Hr by lia.
      injection Hr as <-. rewrite Hst in Hk.
      rewrite decide_True by lia. reflexivity.
  - intros k Hk. rewrite total_app in Hk. simpl in Hk. rewrite Hlines.
    rewrite decide_False by lia. apply (geo_lines_out _ _ G). lia.
Qed.

Lemma sameSettings_trans m1 m2 m3 :
  sameSettings m1 m2 -> sameSettings m2 m3 -> sameSettings m1 m3.
Proof. unfold sameSettings. intuition congruence. Qed.

Lemma parseRow_geometry hs m line ls :
  Forall (fun h => 1 <= h) hs ->
  geometry hs m ->
  tm.wrapRow wordwrap (tm.width m) line = Some ls ->
  total hs + len ls <= 2 ^ 62 ->
  exists m1,
    tm.parseRow wordwrap render (len hs) line (m, total hs)
      = Some (m1, total (hs ++ [len ls])) /\
    sameSettings m m1 /\ geometry (hs ++ [len ls]) m1.
Proof.
  intros Hhs G Hw Hb.
  assert (1 <= len ls) as Hls.
  { apply wrapRow_nonempty in Hw. destruct ls; [congruence|].
    unfold len. simpl. lia. }
  pose proof (total_nonneg hs Hhs) as Hp.
  unfold tm.parseRow. rewrite Hw. cbn [mbind option_bind].
  destruct (indexRow_fields (len hs) (total hs) (length ls) m)
    as (Hset & Hpc & Hspl).
  pose proof (indexRow_lines (len hs) (total hs) (length ls) m Hp Hb)
    as Hlines.
  assert (1 <= length ls)%nat as Hls' by (unfold len in Hls; lia).
  pose proof (indexRow_rows (len hs) (total hs) (length ls) m Hp Hb Hls')
    as Hrows.
  set (mi := tm.indexRow (len hs) (total hs) (length ls) m) in *.
  assert (total hs +i len ls = total (hs ++ [len ls])) as Ht.
  { rewrite total_app. simpl. unwrap. lia. }
  destruct Hset as (Hw1 & Hh1 & Hc1 & Hs1 & Ht1).
  rewrite Hs1.
  destruct (Z.eqb_spec (len hs) (tm.selectedLine m)) as [E|E].
  - destruct (selectRow_fields render (total hs) ls mi Hp Hb)
      as ((Hw2 & Hh2 & Hc2 & Hs2 & Ht2) & Hpc2 & Hl2 & Hr2 & Hspl2).
    unfold tm.selectRow in *. cbn [snd] in *.
    eexists. split.
    { f_equal. apply pair_equal_spec. split; [reflexivity|].
      rewrite <- Ht. unfold len. rewrite length_map. reflexivity. }
    split.
    + unfold sameSettings. simpl. intuition congruence.
    + apply geometry_snoc with (m := m); try assumption; simpl.
      * congruence.
      * rewrite Hpc2, Hpc, len_app. unfold len. rewrite length_map. lia.
      * rewrite Hspl2, Hspl.
        destruct (Z.eqb_spec (len hs) (tm.selectedLine m)); [|lia].
        reflexivity.
      * intros k. rewrite Hl2. apply Hlines.
      * rewrite Hr2. exact Hrows.
  - eexists. split.
    { f_equal. apply pair_equal_spec. split; [reflexivity|exact Ht]. }
    split.
    + unfold sameSettings. simpl. intuition congruence.
    + apply geometry_snoc with (m := m); try assumption; simpl.
      * rewrite Hpc, len_app. lia.
      * rewrite Hspl.
        destruct (Z.eqb_spec (len hs) (tm.selectedLine m)); [lia|].
        rewrite app_nil_r. reflexivity.
Qed.

Lemma parseRows_geometry (w : Z) (rows : list gostring) :
  forall (lss : list (list gostring)) (m0 : tm.TextModel),
    Forall2 (fun row ls => tm.wrapRow wordwrap w row = Some ls) rows lss ->
    total (map len lss) <= 2 ^ 62 ->
    tm.width m0 = w ->
    geometry [] m0 ->
    exists m',
      tm.parseRows wordwrap render 0 rows (m0, 0)
        = Some (m', total (map len lss)) /\
      sameSettings m0 m' /\
      geometry (map len lss) m' /\
      Forall (fun h => 1 <= h) (map len lss).
Proof.
  induction rows as [|row rows IH] using rev_ind; intros lss m0 Hw Hb Hw0 G0.
  - inversion Hw; subst. exists m0. simpl.
    split; [reflexivity|]. split; [unfold sameSettings; tauto|].
    split; [exact G0|constructor].
  - apply Forall2_app_inv_l in Hw as (lss1 & lss2 & H1 & H2 & ->).
    inversion H2 as [|? ls ? ? Hrow Hnil]; subst. inversion Hnil; subst.
    rewrite map_app in *. simpl in *. rewrite total_app in Hb. simpl in Hb.
    assert (1 <= len ls) as Hls.
    { apply wrapRow_nonempty in Hrow. destruct ls; [congruence|].
      unfold len. simpl. lia. }
    destruct (IH lss1 m0 H1) as (m1 & E1 & S1 & G1 & F1);
      [lia|reflexivity|assumption|].
    assert (tm.width m1 = tm.width m0) as Hw1 by apply S1.
    rewrite <- Hw1 in Hrow.
    destruct (parseRow_geometry (map len lss1) m1 row ls F1 G1 Hrow)
      as (m2 & E2 & S2 & G2); [lia|].
    exists m2. unfold tm.parseRows in *. rewrite range_loop_snoc, E1.
    cbn [mbind option_bind].
    assert (0 + len rows = len (map len lss1)) as ->.
    { unfold len. rewrite length_map. apply Forall2_length in H1. lia. }
    split; [exact E2|]. split; [eapply sameSettings_trans; eassumption|].
    split; [exact G2|]. apply Forall_app. split; [exact F1|].
    constructor; [exact Hls|constructor].
Qed.

(** parseContent on a widget that is ready: every row that the wrapper can
    wrap is laid out, and nothing else of the model changes. *)
Lemma parseContent_geometry (m : tm.TextModel) (lss : list (list gostring)) :
  tm.width m <> 0 -> tm.height m <> 0 ->
  Forall2 (fun row ls => tm.wrapRow wordwrap (tm.width m) row = Some ls)
    (tm.content m) lss ->
  total (map len lss) <= 2 ^ 62 ->
  exists m',
    tm.parseContent wordwrap render m = Some m' /\
    sameSettings m m' /\
    geometry (map len lss) m' /\
    Forall (fun h => 1 <= h) (map len lss).
Proof.
  intros Hw Hh Hrows Hb. unfold tm.parseContent.
  destruct (Z.eqb_spec (tm.width m) 0); [contradiction|].
  destruct (Z.eqb_spec (tm.height m) 0); [contradiction|]. simpl.
  edestruct (parseRows_geometry (tm.width m) (tm.content m) lss)
    as (m' & E & S & G & F); [exact Hrows|exact Hb|..|].
  3: { rewrite E. simpl. exists m'. split; [reflexivity|].
       split; [|split; assumption]. exact S. }
  - reflexivity.
  - apply geometry_nil; reflexivity.
Qed.

(** parseContent on a widget that is not ready. *)
Lemma parseContent_not_ready (m : tm.TextModel) :
  tm.width m = 0 \/ tm.height m = 0 ->
  tm.parseContent wordwrap render m = Some m.
Proof.
  intros H. unfold tm.parseContent.
  destruct (Z.eqb_spec (tm.width m) 0); [reflexivity|].
  destruct (Z.eqb_spec (tm.height m) 0); [reflexivity|]. lia.
Qed.

End tm_geometry.

(** ** What parseContent never touches *)

(** Reading a field of an updated model. *)
Ltac tm_fields :=
  cbn [tm.width tm.height tm.content tm.parsedContent tm.selectedLine
       tm.selectedParsedLines tm.selectableParsedLinesMap
       tm.parsedSelectableLinesMap tm.scrolledTop
       tm.set_content tm.set_parsedContent tm.set_selectedLine
       tm.set_selectedParsedLines tm.set_selectableParsedLinesMap
       tm.set_parsedSelectableLinesMap tm.set_scrolledTop] in *.

(** The geometry does not depend on the scroll position. *)
Ltac tm_geo :=
  match goal with
  | G : geometry _ _ |- geometry _ _ => destruct G; constructor; assumption
  end.

Section tm_settings.

Variable wordwrap : gostring -> Z -> gostring.
Variable render : gostring -> gostring.

Lemma selectRow_settings p ws2 m :
  sameSettings m (snd (tm.selectRow render p ws2 m)) /\
  tm.parsedContent (snd (tm.selectRow render p ws2 m)) = tm.parsedContent m.
Proof.
  unfold tm.selectRow. cbn [snd]. generalize (seqZ 0 (len ws2)) as l.
  intros l. revert m. induction l as [|j l IH]; intros m; simpl.
  - unfold sameSettings. tauto.
  - destruct (IH (tm.set_selectedParsedLines
                    (tm.selectedParsedLines m ++ [p +i j]) m)) as (Hs & Hp).
    unfold sameSettings in *. simpl in *. tauto.
Qed.

Lemma parseRow_settings i line m p m1 p1 :
  tm.parseRow wordwrap render i line (m, p) = Some (m1, p1) ->
  sameSettings m m1 /\
  exists ws, ws <> [] /\ tm.parsedContent m1 = tm.parsedContent m ++ ws.
Proof.
  unfold tm.parseRow.
  destruct (tm.wrapRow wordwrap (tm.width m) line) as [ls|] eqn:Hw;
    [|discriminate].
  cbn [mbind option_bind]. apply wrapRow_nonempty in Hw.
  destruct (indexRow_fields i p (length ls) m) as (Hs & Hpc & _).
  set (mi := tm.indexRow i p (length ls) m) in *.
  destruct (i =? tm.selectedLine mi).
  - destruct (selectRow_settings p ls mi) as (Hs2 & Hpc2).
    unfold tm.selectRow in *. cbn [snd] in *. intros [= <- <-].
    split.
    + unfold sameSettings in *. simpl. intuition congruence.
    + exists (map render ls). simpl. rewrite Hpc2, Hpc.
      split; [|reflexivity]. destruct ls; [congruence|discriminate].
  - intros [= <- <-]. split.
    + unfold sameSettings in *. simpl. intuition congruence.
    + exists ls. simpl. rewrite Hpc. split; [assumption|reflexivity].
Qed.

Lemma parseRows_settings rows :
  forall i m p m1 p1,
    tm.parseRows wordwrap render i rows (m, p) = Some (m1, p1) ->
    sameSettings m m1 /\
    exists ws,
      (rows <> [] -> ws <> []) /\
      tm.parsedContent m1 = tm.parsedContent m ++ ws.
Proof.
  unfold tm.parseRows.
  induction rows as [|row rows IH]; intros i m p m1 p1; cbn [range_loop].
  - intros [= <- <-]. split; [unfold sameSettings; tauto|].
    exists []. rewrite app_nil_r. split; [congruence|reflexivity].
  - destruct (tm.parseRow wordwrap render i row (m, p)) as [[m2 p2]|] eqn:E;
      cbn [mbind option_bind]; [|discriminate].
    intros H.
    apply parseRow_settings in E as (S1 & ws1 & Hne & E1).
    apply IH in H as (S2 & ws2 & _ & E2).
    split; [eapply sameSettings_trans; eassumption|].
    exists (ws1 ++ ws2). rewrite E2, E1, app_assoc.
    split; [|reflexivity]. intros _. destruct ws1; [congruence|discriminate].
Qed.

Lemma parseContent_settings m m' :
  tm.parseContent wordwrap render m = Some m' -> sameSettings m m'.
Proof.
  unfold tm.parseContent. destruct (_ || _).
  - intros [= <-]. unfold sameSettings. tauto.
  - destruct (tm.parseRows _ _ _ _ _) as [[m1 p1]|] eqn:E; [|discriminate].
    simpl. intros [= <-]. apply parseRows_settings in E as (S & _). exact S.
Qed.

(** A ready widget with at least one row shows at least one line. *)
Lemma parseContent_shows m m' :
  tm.width m <> 0 -> tm.height m <> 0 -> tm.content m <> [] ->
  tm.parseContent wordwrap render m = Some m' -> tm.parsedContent m' <> [].
Proof.
  intros Hw Hh Hc. unfold tm.parseContent.
  destruct (Z.eqb_spec (tm.width m) 0); [contradiction|].
  destruct (Z.eqb_spec (tm.height m) 0); [contradiction|]. simpl.
  destruct (tm.parseRows _ _ _ _ _) as [[m1 p1]|] eqn:E; [|discriminate].
  simpl. intros [= <-]. apply parseRows_settings in E as (_ & ws & Hne & E).
  simpl in E. rewrite E. apply Hne, Hc.
Qed.

Lemma wrapFits_rows width rows :
  wrapFits wordwrap width rows ->
  Forall2 (fun row ls => tm.wrapRow wordwrap width row = Some ls)
    rows (map (rowLines wordwrap width) rows).
Proof.
  intros (Hw & Hrows & _). induction Hrows as [|row rows Hrow _ IH]; simpl.
  - constructor.
  - constructor; [|exact IH]. apply wrapRow_hardSplit; assumption.
Qed.

(** parseContent on a ready widget whose sizes fit. *)
Lemma parseContent_ready m :
  wrapFits wordwrap (tm.width m) (tm.content m) -> tm.height m <> 0 ->
  exists m',
    tm.parseContent wordwrap render m = Some m' /\
    sameSettings m m' /\
    geometry (heights wordwrap (tm.width m) (tm.content m)) m' /\
    Forall (fun h => 1 <= h) (heights wordwrap (tm.width m) (tm.content m)).
Proof.
  intros Hfit Hh. pose proof (wrapFits_rows _ _ Hfit) as Hrows.
  destruct Hfit as (Hw & _ & Ht).
  destruct (parseContent_geometry wordwrap render m _ ltac:(lia) Hh Hrows)
    as (m' & E & S & G & F).
  - unfold heights in Ht. rewrite map_map. lia.
  - exists m'. unfold heights. rewrite map_map in G, F. tauto.
Qed.

Lemma heights_length rows width :
  length (heights wordwrap width rows) = length rows.
Proof. unfold heights. apply length_map. Qed.

(** SetSelectedLine on a ready widget, for a row that exists. *)
Lemma SetSelectedLine_ready m (n : nat) h :
  wrapFits wordwrap (tm.width m) (tm.content m) -> tm.height m <> 0 ->
  - 2 ^ 60 <= tm.height m <= 2 ^ 60 ->
  - 2 ^ 60 <= tm.scrolledTop m <= 2 ^ 60 ->
  heights wordwrap (tm.width m) (tm.content m) !! n = Some h ->
  exists m',
    tm.SetSelectedLine wordwrap render (Z.of_nat n) m = Some m' /\
    tm.width m' = tm.width m /\ tm.height m' = tm.height m /\
    tm.content m' = tm.content m /\
    tm.selectedLine m' = Z.of_nat n /\
    geometry (heights wordwrap (tm.width m) (tm.content m)) m' /\
    tm.scrolledTop m' =
      scrollToRow (tm.height m) (tm.scrolledTop m)
        (start (heights wordwrap (tm.width m) (tm.content m)) n) h.
Proof.
  intros Hfit Hh Hhb Hsb Hn.
  set (hs := heights wordwrap (tm.width m) (tm.content m)) in *.
  destruct (parseContent_ready (tm.set_selectedLine (Z.of_nat n) m))
    as (m1 & E & (Hw1 & Hh1 & Hc1 & Hs1 & Ht1) & G & F); [assumption..|].
  simpl in *. fold hs in G, F.
  destruct (start_end hs n h F Hn) as (Hst0 & Hh1' & Hend).
  assert (total hs <= 2 ^ 60) as Htot by apply Hfit.
  pose proof (geo_selected _ _ G) as Hsel.
  rewrite Hs1, index_nat, Hn, Nat2Z.id in Hsel.
  unfold tm.SetSelectedLine. rewrite E. cbn [mbind option_bind].
  rewrite Hsel. unfold len. rewrite length_seqZ, Z2Nat.id by lia. unwrap.
  rewrite index_seqZ by lia. cbn [mbind option_bind].
  rewrite ?Ht1, ?Hh1. unwrap.
  unfold scrollToRow. replace (start hs n + h - 1) with (start hs n + (h - 1))
    by lia.
  destruct (start hs n + (h - 1) >? tm.scrolledTop m + tm.height m - h - 2);
    tm_fields; rewrite Hsel, index_seqZ by lia; cbn [mbind option_bind];
    tm_fields; rewrite ?Ht1, ?Z.add_0_r.
  - destruct (start hs n <? start hs n + (h - 1) - tm.height m + 3);
      tm_fields.
    + destruct (start hs n <? 0); eexists; (split; [reflexivity|]);
        tm_fields; repeat apply conj; solve [assumption | reflexivity | tm_geo].
    + destruct (start hs n + (h - 1) - tm.height m + 3 <? 0); eexists;
        (split; [reflexivity|]);
        tm_fields; repeat apply conj; solve [assumption | reflexivity | tm_geo].
  - destruct (start hs n <? tm.scrolledTop m); tm_fields; rewrite ?Ht1.
    + destruct (start hs n <? 0); eexists; (split; [reflexivity|]);
        tm_fields; repeat apply conj; solve [assumption | reflexivity | tm_geo].
    + destruct (tm.scrolledTop m <? 0); eexists; (split; [reflexivity|]);
        tm_fields; repeat apply conj; solve [assumption | reflexivity | tm_geo].
Qed.

End tm_settings.

(** ** The display lines that parseContent stores *)

Section tm_lines.

Variable wordwrap : gostring -> Z -> gostring.
Variable render : gostring -> gostring.

Lemma parseRow_lines i line m p m1 p1 :
  tm.parseRow wordwrap render i line (m, p) = Some (m1, p1) ->
  exists ls,
    tm.wrapRow wordwrap (tm.width m) line = Some ls /\
    tm.parsedContent m1
      = tm.parsedContent m
        ++ (if i =? tm.selectedLine m then map render ls else ls).
Proof.
  unfold tm.parseRow.
  destruct (tm.wrapRow wordwrap (tm.width m) line) as [ls|] eqn:Hw;
    [|discriminate].
  cbn [mbind option_bind]. exists ls. split; [reflexivity|].
  destruct (indexRow_fields i p (length ls) m) as ((_ & _ & _ & Hs & _) & Hpc & _).
  set (mi := tm.indexRow i p (length ls) m) in *. rewrite Hs in H.
  destruct (i =? tm.selectedLine m).
  - destruct (selectRow_settings wordwrap render p ls mi) as (_ & Hpc2).
    unfold tm.selectRow in *. cbn [snd] in *. injection H as <- _.
    tm_fields. rewrite Hpc2, Hpc. reflexivity.
  - injection H as <- _. tm_fields. rewrite Hpc. reflexivity.
Qed.

Lemma parseRows_lines rows :
  forall i m p m1 p1,
    tm.parseRows wordwrap render i rows (m, p) = Some (m1, p1) ->
    exists lss,
      Forall2 (fun row ls => tm.wrapRow wordwrap (tm.width m) row = Some ls)
        rows lss /\
      tm.parsedContent m1
        = tm.parsedContent m ++ shownLines render (tm.selectedLine m) i lss.
Proof.
  unfold tm.parseRows.
  induction rows as [|row rows IH]; intros i m p m1 p1; cbn [range_loop].
  - intros [= <- <-]. exists []. split; [constructor|].
    simpl. rewrite app_nil_r. reflexivity.
  - destruct (tm.parseRow wordwrap render i row (m, p)) as [[m2 p2]|] eqn:E;
      cbn [mbind option_bind]; [|discriminate].
    intros H. pose proof (parseRow_settings _ _ _ _ _ _ _ _ E) as (S & _).
    apply parseRow_lines in E as (ls & Hw & E1).
    apply IH in H as (lss & Hrows & E2).
    destruct S as (Hw2 & _ & _ & Hs2 & _). rewrite Hw2, Hs2 in *.
    exists (ls :: lss). split; [constructor; assumption|].
    rewrite E2, E1, <- app_assoc. reflexivity.
Qed.

(** On a ready widget the stored display lines are the display lines of
    the rows, those of the selected row rendered. *)
Lemma parseContent_lines m m' :
  wrapFits wordwrap (tm.width m) (tm.content m) -> tm.height m <> 0 ->
  tm.parseContent wordwrap render m = Some m' ->
  tm.parsedContent m'
    = shownLines render (tm.selectedLine m) 0
        (map (rowLines wordwrap (tm.width m)) (tm.content m)).
Proof.
  intros Hfit Hh. pose proof (wrapFits_rows wordwrap _ _ Hfit) as Hrows.
  destruct Hfit as (Hw & _). unfold tm.parseContent.
  destruct (Z.eqb_spec (tm.width m) 0); [lia|].
  destruct (Z.eqb_spec (tm.height m) 0); [contradiction|]. simpl.
  destruct (tm.parseRows _ _ _ _ _) as [[m1 p1]|] eqn:E; [|discriminate].
  simpl. intros [= <-]. apply parseRows_lines in E as (lss & Hlss & E).
  simpl in E, Hlss. rewrite E.
  assert (lss = map (rowLines wordwrap (tm.width m)) (tm.content m)) as ->;
    [|reflexivity].
  clear E. revert Hrows.
  induction Hlss as [|row ls rows lss Hr _ IH]; intros H2.
  - reflexivity.
  - inversion H2 as [|? ? ? ? Hr' Hrs']; subst.
    simpl. f_equal; [congruence|]. apply IH. assumption.
Qed.

End tm_lines.

(** ** Wrap round trip and not-ready widgets *)

Lemma wrapRow_negative_width wordwrap width line :
  - 2 ^ 60 <= width <= 1 ->
  len (wordwrap line (width - 2)) <= 2 ^ 60 ->
  tm.wrapRow wordwrap width line = None.
Proof.
  intros Hw Hl. unfold tm.wrapRow, tm.splitLines. unwrap.
  pose proof (split_newline_nonempty (wordwrap line (width - 2))) as Hne.
  pose proof (split_newline_length (wordwrap line (width - 2))) as Hlen.
  destruct (split_newline _) as [|p ps]; [congruence|].
  inversion Hlen as [|? ? Hp _]; subst. unfold len in Hl.
  cbn [range_loop]. unfold tm.splitLine, len. unwrap.
  rewrite Z.geb_leb.
  destruct (Z.leb_spec (width - 2) (Z.of_nat (length p) - 1)); [|lia].
  cbn [tm.splitLoop]. unfold len. unwrap.
  destruct (Z.ltb_spec 0 (Z.of_nat (length p) - 1 - width - 2 + 5)); [|lia].
  unfold slice.
  destruct (Z.leb_spec 0 (0 + width - 2)); [lia|]. reflexivity.
Qed.

Lemma rowLines_concat wordwrap width row :
  concat (rowLines wordwrap width row)
    = filter (fun c => c <> newline) (wordwrap row (width - 2)).
Proof.
  unfold rowLines. rewrite <- split_newline_concat.
  induction (split_newline (wordwrap row (width - 2))) as [|p ps IH];
    [reflexivity|].
  simpl. rewrite concat_app, IH. f_equal. apply chunks_concat.
Qed.

(** C3, as amended.  For a wrap width [W = width - 2] of at least one rune,
    the display lines of a row are the hard-split lines of what the word
    wrapper returned: concatenated they give that output without its
    newlines, hence the row itself whenever the word wrapper changed the row
    only by putting newlines into it; and a wrapped line longer than [W] is
    cut into lines of exactly [W] runes followed by a last line of one to
    [W] runes. *)
Theorem C3_display_lines_of_a_row wordwrap (width : Z) (row : gostring) :
  0 < width - 2 -> width <= 2 ^ 60 ->
  len (wordwrap row (width - 2)) <= 2 ^ 60 ->
  exists lines,
    tm.wrapRow wordwrap width row = Some lines /\
    lines = rowLines wordwrap width row /\
    concat lines = filter (fun c => c <> newline) (wordwrap row (width - 2)) /\
    (filter (fun c => c <> newline) (wordwrap row (width - 2)) = row ->
     concat lines = row) /\
    Forall (fun p =>
              exists cs last,
                hardSplit (Z.to_nat (width - 2)) p = cs ++ [last] /\
                concat (cs ++ [last]) = p /\
                Forall (fun c => len c = width - 2) cs /\
                len last <= width - 2 /\
                (p <> [] -> 1 <= len last))
      (split_newline (wordwrap row (width - 2))).
Proof.
  intros HW Hw Hl. exists (rowLines wordwrap width row).
  pose proof (rowLines_concat wordwrap width row) as Hc.
  split; [apply wrapRow_hardSplit; [lia|assumption]|].
  split; [reflexivity|]. split; [exact Hc|]. split; [congruence|].
  apply Forall_forall. intros p _.
  destruct (chunks_sizes (length p) (Z.to_nat (width - 2)) p)
    as (cs & last & E & Hcs & Hlast & Hne); [lia|lia|].
  exists cs, last. unfold hardSplit. rewrite E.
  split; [reflexivity|]. split; [rewrite <- E; apply chunks_concat|].
  split; [|split].
  - eapply Forall_impl; [exact Hcs|]. simpl. unfold len. intros; lia.
  - unfold len. lia.
  - intros Hp. apply Hne in Hp. unfold len. lia.
Qed.

Lemma C3_display_lines_of_a_row_witness :
  (0 < 7 - 2 /\ 7 <= 2 ^ 60 /\
   len (plainWrap (str "abcdefghijkl") (7 - 2)) <= 2 ^ 60) /\
  exists lines,
    tm.wrapRow plainWrap 7 (str "abcdefghijkl") = Some lines /\
    lines = rowLines plainWrap 7 (str "abcdefghijkl") /\
    concat lines
      = filter (fun c => c <> newline) (plainWrap (str "abcdefghijkl") (7 - 2)) /\
    (filter (fun c => c <> newline) (plainWrap (str "abcdefghijkl") (7 - 2))
       = str "abcdefghijkl" ->
     concat lines = str "abcdefghijkl") /\
    Forall (fun p =>
              exists cs last,
                hardSplit (Z.to_nat (7 - 2)) p = cs ++ [last] /\
                concat (cs ++ [last]) = p /\
                Forall (fun c => len c = 7 - 2) cs /\
                len last <= 7 - 2 /\
                (p <> [] -> 1 <= len last))
      (split_newline (plainWrap (str "abcdefghijkl") (7 - 2))).
Proof.
  assert (0 < 7 - 2 /\ 7 <= 2 ^ 60 /\
          len (plainWrap (str "abcdefghijkl") (7 - 2)) <= 2 ^ 60) as H.
  { split; [lia|]. split; [lia|]. vm_compute. discriminate. }
  split; [exact H|].
  apply (C3_display_lines_of_a_row plainWrap 7 (str "abcdefghijkl"));
    apply H.
Defined.

(** The claim C3 as it was stated fails on a row that has a newline in it:
    the newline is a line break that nothing puts back. *)
Lemma C3_counterexample :
  ~ exists wordwrap lines,
      len (wordwrap twoLineRow (7 - 2)) <= 2 ^ 60 /\
      tm.wrapRow wordwrap 7 twoLineRow = Some lines /\
      concat lines = twoLineRow.
Proof.
  intros (ww & lines & Hl & E & H).
  rewrite wrapRow_hardSplit in E by (lia || exact Hl). injection E as <-.
  fold (rowLines ww 7 twoLineRow) in H. rewrite rowLines_concat in H.
  assert (newline ∈ twoLineRow) as Hin by (vm_compute; set_solver).
  rewrite <- H in Hin. apply list_elem_of_filter in Hin as [Hne _].
  apply Hne. reflexivity.
Qed.

(** C9, as amended.  With a width of 0 or a height of 0 parseContent returns
    the model as it is, display state included. *)
Theorem C9_not_ready_is_a_noop wordwrap render (m : tm.TextModel) :
  tm.width m = 0 \/ tm.height m = 0 ->
  tm.parseContent wordwrap render m = Some m.
Proof. apply parseContent_not_ready. Qed.

Lemma C9_not_ready_is_a_noop_witness :
  (tm.width (tmEmpty 0 5) = 0 \/ tm.height (tmEmpty 0 5) = 0) /\
  tm.parseContent plainWrap plainRender (tmEmpty 0 5) = Some (tmEmpty 0 5).
Proof.
  assert (tm.width (tmEmpty 0 5) = 0 \/ tm.height (tmEmpty 0 5) = 0) as H
    by (left; reflexivity).
  split; [exact H|].
  apply (C9_not_ready_is_a_noop plainWrap plainRender (tmEmpty 0 5) H).
Defined.

(** The claim C9 as it was stated fails below zero: with a negative height
    the rows are wrapped as usual, so the display state changes; with a
    negative width the first row already stops the program. *)
Lemma C9_counterexample :
  (~ exists wordwrap render,
       tm.parseContent wordwrap render tmNegativeHeight
         = Some tmNegativeHeight) /\
  (~ exists wordwrap render,
       len (wordwrap (str "a") (-1 - 2)) <= 2 ^ 60 /\
       is_Some (tm.parseContent wordwrap render tmNegativeWidth)).
Proof.
  split.
  - intros (ww & r & H). apply parseContent_shows in H; simpl; try discriminate.
    apply H. reflexivity.
  - intros (ww & r & Hl & m' & H). unfold tm.parseContent in H. simpl in H.
    unfold tm.parseRows in H. cbn [range_loop] in H. unfold tm.parseRow in H.
    cbn [tm.width tm.set_parsedSelectableLinesMap
         tm.set_selectableParsedLinesMap tm.set_selectedParsedLines
         tm.set_parsedContent tm.content tmNegativeWidth] in H.
    rewrite wrapRow_negative_width in H; [discriminate|lia|exact Hl].
Qed.

(** ** Appending to the line list *)

(** C10.  AppendContent follows the tail: with the last row selected before
    the call the new last row is selected after it and, once the display
    lines no longer fit the window, the window ends with the last display
    line; with any other row selected, selection and scroll position stay.
    The call returns whenever the widget is not ready or can wrap. *)
Theorem C10_append_follows_the_tail wordwrap render
    (m : tm.TextModel) (text : list gostring) :
  len (tm.content m) + len text <= 2 ^ 60 ->
  - 2 ^ 60 <= tm.height m <= 2 ^ 60 ->
  (forall m',
     tm.AppendContent wordwrap render text m = Some m' ->
     len (tm.parsedContent m') <= 2 ^ 60 ->
     tm.content m' = tm.content m ++ text /\
     (tm.selectedLine m = len (tm.content m) - 1 ->
      tm.selectedLine m' = len (tm.content m') - 1 /\
      (tm.viewportHeight m' < len (tm.parsedContent m') ->
       tm.scrolledTop m' + tm.viewportHeight m' = len (tm.parsedContent m')) /\
      (len (tm.parsedContent m') <= tm.viewportHeight m' ->
       tm.scrolledTop m' = tm.scrolledTop m)) /\
     (tm.selectedLine m <> len (tm.content m) - 1 ->
      tm.selectedLine m' = tm.selectedLine m /\
      tm.scrolledTop m' = tm.scrolledTop m)) /\
  (tm.width m = 0 \/ tm.height m = 0 \/
   wrapFits wordwrap (tm.width m) (tm.content m ++ text) ->
   is_Some (tm.AppendContent wordwrap render text m)).
Proof.
  intros Hlen Hh. pose proof (len_nonneg (tm.content m)) as Hc0.
  pose proof (len_nonneg text) as Ht0. split.
  - intros m' H Hp. unfold tm.AppendContent in H. unwrap.
    destruct (tm.parseContent wordwrap render _) as [m3|] eqn:E;
      [|discriminate].
    cbn [mbind option_bind] in H. injection H as <-.
    apply parseContent_settings in E as (Hw3 & Hh3 & Hc3 & Hs3 & Ht3).
    unfold tm.viewportHeight.
    destruct (Z.eqb_spec (tm.selectedLine m) (len (tm.content m) - 1))
      as [Hsel|Hsel]; tm_fields; cbn [andb] in *.
    + assert (len (tm.content m3) = len (tm.content m) + len text) as Hl3
        by (rewrite Hc3; apply len_app).
      revert Hp. rewrite Hh3. unwrap. rewrite Z.gtb_ltb.
      destruct (Z.ltb_spec (tm.height m - 2) (len (tm.parsedContent m3)));
        tm_fields; intros Hp; unwrap; repeat (first [apply conj | intro]);
        rewrite ?Hs3, ?Ht3, ?Hc3, ?Hh3, ?len_app in *;
        try reflexivity; lia.
    + repeat (first [apply conj | intro]);
        rewrite ?Hs3, ?Ht3, ?Hc3, ?Hh3, ?len_app in *;
        try reflexivity; lia.
  - intros Hready. unfold tm.AppendContent.
    set (m2 := tm.set_content _ _).
    assert (tm.width m2 = tm.width m /\ tm.height m2 = tm.height m /\
            tm.content m2 = tm.content m ++ text) as (Hw2 & Hh2 & Hc2).
    { unfold m2. destruct (_ =? _); tm_fields; auto. }
    assert (is_Some (tm.parseContent wordwrap render m2)) as [m3 E].
    { destruct Hready as [H0|[H0|Hfit]].
      - exists m2. apply parseContent_not_ready. left. congruence.
      - exists m2. apply parseContent_not_ready. right. congruence.
      - destruct (Z.eq_dec (tm.height m2) 0) as [H0|H0].
        + exists m2. apply parseContent_not_ready. right. exact H0.
        + destruct (parseContent_ready wordwrap render m2) as (m3 & E & _);
            [rewrite Hw2, Hc2; exact Hfit|exact H0|].
          exists m3. exact E. }
    rewrite E. cbn [mbind option_bind]. eexists. reflexivity.
Qed.

Lemma C10_append_follows_the_tail_witness :
  (len (tm.content tmTail) + len [str "four"; str "five"] <= 2 ^ 60 /\
   - 2 ^ 60 <= tm.height tmTail <= 2 ^ 60) /\
  (forall m',
     tm.AppendContent plainWrap plainRender [str "four"; str "five"] tmTail
       = Some m' ->
     len (tm.parsedContent m') <= 2 ^ 60 ->
     tm.content m' = tm.content tmTail ++ [str "four"; str "five"] /\
     (tm.selectedLine tmTail = len (tm.content tmTail) - 1 ->
      tm.selectedLine m' = len (tm.content m') - 1 /\
      (tm.viewportHeight m' < len (tm.parsedContent m') ->
       tm.scrolledTop m' + tm.viewportHeight m' = len (tm.parsedContent m')) /\
      (len (tm.parsedContent m') <= tm.viewportHeight m' ->
       tm.scrolledTop m' = tm.scrolledTop tmTail)) /\
     (tm.selectedLine tmTail <> len (tm.content tmTail) - 1 ->
      tm.selectedLine m' = tm.selectedLine tmTail /\
      tm.scrolledTop m' = tm.scrolledTop tmTail)) /\
  (tm.width tmTail = 0 \/ tm.height tmTail = 0 \/
   wrapFits plainWrap (tm.width tmTail)
     (tm.content tmTail ++ [str "four"; str "five"]) ->
   is_Some
     (tm.AppendContent plainWrap plainRender [str "four"; str "five"] tmTail)).
Proof.
  assert (len (tm.content tmTail) + len [str "four"; str "five"] <= 2 ^ 60 /\
          - 2 ^ 60 <= tm.height tmTail <= 2 ^ 60) as H.
  { vm_compute. repeat split; discriminate. }
  split; [exact H|].
  apply (C10_append_follows_the_tail plainWrap plainRender tmTail
           [str "four"; str "five"]); apply H.
Defined.

(** ** Scroll arithmetic *)

Ltac table_fields :=
  cbn [table.width table.height table.headers table.content
       table.selectedLine table.scrolledTop table.filter table.filterColums
       table.filteredContent table.sortByCol table.sortOrder
       table.sortedContent
       table.set_content table.set_selectedLine table.set_scrolledTop
       table.set_filter table.set_filteredContent table.set_sortByCol
       table.set_sortOrder table.set_sortedContent table.isNil] in *.

Ltac basic_fields :=
  cbn [basictable.width basictable.height basictable.content
       basictable.selectedLine basictable.scrolledTop
       basictable.set_content basictable.set_selectedLine
       basictable.set_scrolledTop] in *.

(** Split on a condition that has no condition inside. *)
Ltac case_if :=
  match goal with
  | |- context [if ?c then _ else _] =>
      lazymatch c with
      | context [if _ then _ else _] => fail
      | _ => destruct c eqn:?
      end
  end.

Ltac bool_hyps :=
  repeat match goal with
    | H : (_ && _) = true |- _ => apply andb_prop in H; destruct H
    | H : (_ && _) = false |- _ => apply andb_false_iff in H
    | H : (_ >? _) = _ |- _ => rewrite Z.gtb_ltb in H
    | H : (_ >=? _) = _ |- _ => rewrite Z.geb_leb in H
    | H : (_ <? _) = true |- _ => apply Z.ltb_lt in H
    | H : (_ <? _) = false |- _ => apply Z.ltb_ge in H
    | H : (_ <=? _) = true |- _ => apply Z.leb_le in H
    | H : (_ <=? _) = false |- _ => apply Z.leb_gt in H
    | H : (_ =? _) = true |- _ => apply Z.eqb_eq in H
    | H : (_ =? _) = false |- _ => apply Z.eqb_neq in H
    end.

Ltac scroll :=
  repeat (tm_fields; table_fields; basic_fields; unwrap;
          try (case_if; bool_hyps)).

Lemma start_ones (n r : nat) :
  (r <= n)%nat -> start (replicate n 1) r = Z.of_nat r.
Proof.
  unfold start. revert n. induction r as [|r IH]; intros n H; [reflexivity|].
  destruct n as [|n]; [lia|]. simpl. rewrite IH by lia. lia.
Qed.

Lemma total_ones (n : nat) : total (replicate n 1) = Z.of_nat n.
Proof. induction n as [|n IH]; simpl; [reflexivity|]. rewrite IH. lia. Qed.

(** C8.  A hundred rows of one display line each in a window of ten lines:
    selecting row 99 from any scroll position inside the bound puts
    [scrolledTop] at exactly the number of display lines minus the window
    height, 90; in the line list and in both tables. *)
Theorem C8_selecting_row_99_of_100 :
  (forall wordwrap render (m : tm.TextModel),
     wrapFits wordwrap (tm.width m) (tm.content m) ->
     heights wordwrap (tm.width m) (tm.content m) = replicate 100 1 ->
     tm.viewportHeight m = 10 ->
     0 <= tm.scrolledTop m <= 90 ->
     exists m',
       tm.SetSelectedLine wordwrap render 99 m = Some m' /\
       len (tm.parsedContent m') = 100 /\
       tm.scrolledTop m' = len (tm.parsedContent m') - tm.viewportHeight m' /\
       tm.scrolledTop m' = 90) /\
  (forall m : basictable.TableModel,
     len (basictable.content m) = 100 ->
     basictable.viewportHeight m = 10 ->
     0 <= basictable.scrolledTop m <= 90 ->
     basictable.scrolledTop (basictable.SetSelectedLine 99 m)
       = len (basictable.content m) - basictable.viewportHeight m /\
     basictable.scrolledTop (basictable.SetSelectedLine 99 m) = 90) /\
  (forall m : table.TableModel,
     len (table.filteredContent m) = 100 ->
     table.viewportHeight m = 10 ->
     - 2 ^ 60 <= table.height m <= 2 ^ 60 ->
     0 <= table.scrolledTop m <= 90 ->
     table.scrolledTop (table.SetSelectedLine 99 m)
       = len (table.filteredContent m) - table.viewportHeight m /\
     table.scrolledTop (table.SetSelectedLine 99 m) = 90).
Proof.
  split; [|split].
  - intros ww render m Hfit Hhs Hvh Hst. unfold tm.viewportHeight in *.
    destruct (SetSelectedLine_ready ww render m 99%nat 1 Hfit)
      as (m' & E & Hw & Hh & Hc & Hs & G & Ht); [lia..| |].
    { rewrite Hhs. reflexivity. }
    exists m'. split; [exact E|].
    rewrite (geo_total _ _ G), Ht, Hh, Hhs, total_ones, start_ones by lia.
    unfold scrollToRow. scroll; lia.
  - intros m Hlen Hvh Hst. unfold basictable.viewportHeight in *.
    unfold basictable.SetSelectedLine. rewrite Hlen. scroll; lia.
  - intros m Hlen Hvh Hh Hst.
    unfold table.viewportHeight, table.pageHeight in *.
    unfold table.SetSelectedLine. rewrite Hlen. table_fields.
    destruct (table.filter m); cbn [table.isNil] in *; scroll; lia.
Qed.

Lemma C8_selecting_row_99_of_100_witness :
  (exists m',
     tm.SetSelectedLine plainWrap plainRender 99 tmHundred = Some m' /\
     len (tm.parsedContent m') = 100 /\
     tm.scrolledTop m' = len (tm.parsedContent m') - tm.viewportHeight m' /\
     tm.scrolledTop m' = 90) /\
  (basictable.scrolledTop (basictable.SetSelectedLine 99 basicHundred)
     = len (basictable.content basicHundred)
       - basictable.viewportHeight basicHundred /\
   basictable.scrolledTop (basictable.SetSelectedLine 99 basicHundred) = 90) /\
  (table.scrolledTop (table.SetSelectedLine 99 tableHundred)
     = len (table.filteredContent tableHundred)
       - table.viewportHeight tableHundred /\
   table.scrolledTop (table.SetSelectedLine 99 tableHundred) = 90).
Proof.
  destruct C8_selecting_row_99_of_100 as (Htm & Hbasic & Htable).
  split; [|split].
  - apply (Htm plainWrap plainRender tmHundred).
    + split; [vm_compute; split; discriminate|].
      split; [refine (bool_decide_unpack _ _); vm_compute; exact I|].
      vm_compute. discriminate.
    + vm_compute. reflexivity.
    + reflexivity.
    + vm_compute. split; discriminate.
  - apply (Hbasic basicHundred).
    + reflexivity.
    + reflexivity.
    + vm_compute. split; discriminate.
  - apply (Htable tableHundred).
    + reflexivity.
    + reflexivity.
    + vm_compute. split; discriminate.
    + vm_compute. split; discriminate.
Defined.

(** ** ViewScroll *)

(** C5, as amended.  ViewScroll changes nothing but [scrolledTop], so the
    selected line stays.  It moves [scrolledTop] by exactly [num] when the
    target is inside the scroll range, and leaves it where it was, without
    clamping to the boundary, when the target is beyond the range.  The
    range ends at [len(parsedContent) - height + 2] in the line list, at
    [len(filteredContent) - height + 3] and [len(content) - height + 4] in
    the tables; it starts at 0 in the tables, and an upward move of the line
    list is made when the target is above 0. *)
Theorem C5_view_scroll_moves_or_stays :
  (forall (m : tm.TextModel) (num : Z),
     - 2 ^ 60 <= num <= 2 ^ 60 ->
     - 2 ^ 60 <= tm.scrolledTop m <= 2 ^ 60 ->
     - 2 ^ 60 <= tm.height m <= 2 ^ 60 ->
     len (tm.parsedContent m) <= 2 ^ 60 ->
     tm.ViewScroll num m
       = tm.set_scrolledTop (tm.scrolledTop (tm.ViewScroll num m)) m /\
     tm.selectedLine (tm.ViewScroll num m) = tm.selectedLine m /\
     (0 < num ->
      tm.scrolledTop m + num <= len (tm.parsedContent m) - tm.height m + 2 ->
      tm.scrolledTop (tm.ViewScroll num m) = tm.scrolledTop m + num) /\
     (0 < num ->
      len (tm.parsedContent m) - tm.height m + 2 < tm.scrolledTop m + num ->
      tm.scrolledTop (tm.ViewScroll num m) = tm.scrolledTop m) /\
     (num < 0 -> 0 < tm.scrolledTop m + num ->
      tm.scrolledTop (tm.ViewScroll num m) = tm.scrolledTop m + num) /\
     (num < 0 -> tm.scrolledTop m + num < 0 ->
      tm.scrolledTop (tm.ViewScroll num m) = tm.scrolledTop m) /\
     (num = 0 -> tm.scrolledTop (tm.ViewScroll num m) = tm.scrolledTop m)) /\
  (forall (m : table.TableModel) (num : Z),
     - 2 ^ 60 <= num <= 2 ^ 60 ->
     - 2 ^ 60 <= table.scrolledTop m <= 2 ^ 60 ->
     - 2 ^ 60 <= table.height m <= 2 ^ 60 ->
     len (table.filteredContent m) <= 2 ^ 60 ->
     table.ViewScroll num m
       = table.set_scrolledTop (table.scrolledTop (table.ViewScroll num m)) m /\
     table.selectedLine (table.ViewScroll num m) = table.selectedLine m /\
     (0 < num ->
      table.scrolledTop m + num
        <= len (table.filteredContent m) - table.height m + 3 ->
      table.scrolledTop (table.ViewScroll num m) = table.scrolledTop m + num) /\
     (0 < num ->
      len (table.filteredContent m) - table.height m + 3
        < table.scrolledTop m + num ->
      table.scrolledTop (table.ViewScroll num m) = table.scrolledTop m) /\
     (num < 0 -> 0 <= table.scrolledTop m + num ->
      table.scrolledTop (table.ViewScroll num m) = table.scrolledTop m + num) /\
     (num < 0 -> table.scrolledTop m + num < 0 ->
      table.scrolledTop (table.ViewScroll num m) = table.scrolledTop m) /\
     (num = 0 ->
      table.scrolledTop (table.ViewScroll num m) = table.scrolledTop m)) /\
  (forall (m : basictable.TableModel) (num : Z),
     - 2 ^ 60 <= num <= 2 ^ 60 ->
     - 2 ^ 60 <= basictable.scrolledTop m <= 2 ^ 60 ->
     - 2 ^ 60 <= basictable.height m <= 2 ^ 60 ->
     len (basictable.content m) <= 2 ^ 60 ->
     basictable.ViewScroll num m
       = basictable.set_scrolledTop
           (basictable.scrolledTop (basictable.ViewScroll num m)) m /\
     basictable.selectedLine (basictable.ViewScroll num m)
       = basictable.selectedLine m /\
     (0 < num ->
      basictable.scrolledTop m + num
        <= len (basictable.content m) - basictable.height m + 4 ->
      basictable.scrolledTop (basictable.ViewScroll num m)
        = basictable.scrolledTop m + num) /\
     (0 < num ->
      len (basictable.content m) - basictable.height m + 4
        < basictable.scrolledTop m + num ->
      basictable.scrolledTop (basictable.ViewScroll num m)
        = basictable.scrolledTop m) /\
     (num < 0 -> 0 <= basictable.scrolledTop m + num ->
      basictable.scrolledTop (basictable.ViewScroll num m)
        = basictable.scrolledTop m + num) /\
     (num < 0 -> basictable.scrolledTop m + num < 0 ->
      basictable.scrolledTop (basictable.ViewScroll num m)
        = basictable.scrolledTop m) /\
     (num = 0 ->
      basictable.scrolledTop (basictable.ViewScroll num m)
        = basictable.scrolledTop m)).
Proof.
  split; [|split].
  - intros m num Hn Hs Hh Hl. pose proof (len_nonneg (tm.parsedContent m)).
    unfold tm.ViewScroll. destruct m. scroll;
      repeat (first [apply conj | intro]); try reflexivity; lia.
  - intros m num Hn Hs Hh Hl.
    pose proof (len_nonneg (table.filteredContent m)).
    unfold table.ViewScroll. destruct m. scroll;
      repeat (first [apply conj | intro]); try reflexivity; lia.
  - intros m num Hn Hs Hh Hl.
    pose proof (len_nonneg (basictable.content m)).
    unfold basictable.ViewScroll. destruct m. scroll;
      repeat (first [apply conj | intro]); try reflexivity; lia.
Qed.

Lemma C5_view_scroll_moves_or_stays_witness :
  ((- 2 ^ 60 <= 3 <= 2 ^ 60 /\
    - 2 ^ 60 <= tm.scrolledTop tmTwenty <= 2 ^ 60 /\
    - 2 ^ 60 <= tm.height tmTwenty <= 2 ^ 60 /\
    len (tm.parsedContent tmTwenty) <= 2 ^ 60) /\
   tm.selectedLine (tm.ViewScroll 3 tmTwenty) = tm.selectedLine tmTwenty /\
   tm.scrolledTop (tm.ViewScroll 3 tmTwenty) = tm.scrolledTop tmTwenty + 3) /\
  ((- 2 ^ 60 <= 95 <= 2 ^ 60 /\
    - 2 ^ 60 <= table.scrolledTop tableHundred <= 2 ^ 60 /\
    - 2 ^ 60 <= table.height tableHundred <= 2 ^ 60 /\
    len (table.filteredContent tableHundred) <= 2 ^ 60) /\
   table.selectedLine (table.ViewScroll 95 tableHundred)
     = table.selectedLine tableHundred /\
   table.scrolledTop (table.ViewScroll 95 tableHundred)
     = table.scrolledTop tableHundred) /\
  ((- 2 ^ 60 <= -1 <= 2 ^ 60 /\
    - 2 ^ 60 <= basictable.scrolledTop basicHundred <= 2 ^ 60 /\
    - 2 ^ 60 <= basictable.height basicHundred <= 2 ^ 60 /\
    len (basictable.content basicHundred) <= 2 ^ 60) /\
   basictable.selectedLine (basictable.ViewScroll (-1) basicHundred)
     = basictable.selectedLine basicHundred /\
   basictable.scrolledTop (basictable.ViewScroll (-1) basicHundred)
     = basictable.scrolledTop basicHundred).
Proof.
  destruct C5_view_scroll_moves_or_stays as (Htm & Htable & Hbasic).
  split; [|split].
  - assert (- 2 ^ 60 <= 3 <= 2 ^ 60 /\
            - 2 ^ 60 <= tm.scrolledTop tmTwenty <= 2 ^ 60 /\
            - 2 ^ 60 <= tm.height tmTwenty <= 2 ^ 60 /\
            len (tm.parsedContent tmTwenty) <= 2 ^ 60) as H.
    { vm_compute. repeat split; discriminate. }
    split; [exact H|].
    destruct (Htm tmTwenty 3) as (_ & Hsel & Hmove & _); try apply H.
    split; [exact Hsel|]. apply Hmove; vm_compute; [reflexivity|discriminate].
  - assert (- 2 ^ 60 <= 95 <= 2 ^ 60 /\
            - 2 ^ 60 <= table.scrolledTop tableHundred <= 2 ^ 60 /\
            - 2 ^ 60 <= table.height tableHundred <= 2 ^ 60 /\
            len (table.filteredContent tableHundred) <= 2 ^ 60) as H.
    { vm_compute. repeat split; discriminate. }
    split; [exact H|].
    destruct (Htable tableHundred 95) as (_ & Hsel & _ & Hstay & _);
      try apply H.
    split; [exact Hsel|]. apply Hstay; vm_compute; reflexivity.
  - assert (- 2 ^ 60 <= -1 <= 2 ^ 60 /\
            - 2 ^ 60 <= basictable.scrolledTop basicHundred <= 2 ^ 60 /\
            - 2 ^ 60 <= basictable.height basicHundred <= 2 ^ 60 /\
            len (basictable.content basicHundred) <= 2 ^ 60) as H.
    { vm_compute. repeat split; discriminate. }
    split; [exact H|].
    destruct (Hbasic basicHundred (-1)) as (_ & Hsel & _ & _ & _ & Hstay & _);
      try apply H.
    split; [exact Hsel|]. apply Hstay; vm_compute; reflexivity.
Defined.

(** The claim C5 as it was stated fails on a move past the end: twenty
    display lines in a window of ten, scrolled to the top; ViewScroll(15)
    leaves [scrolledTop] at 0, the clamped target is 10. *)
Lemma C5_counterexample :
  tm.scrolledTop (tm.ViewScroll 15 tmTwenty) = 0 /\
  clamp 0
    (maxScroll (len (tm.parsedContent tmTwenty)) (tm.viewportHeight tmTwenty))
    (tm.scrolledTop tmTwenty + 15) = 10 /\
  tm.scrolledTop (tm.ViewScroll 15 tmTwenty)
    <> clamp 0
         (maxScroll (len (tm.parsedContent tmTwenty))
            (tm.viewportHeight tmTwenty))
         (tm.scrolledTop tmTwenty + 15).
Proof. vm_compute. repeat split; discriminate. Qed.

(** ** The scroll bound *)

(** PageScroll of the table with a filter keeps the bound, whatever the
    scroll position before: the end of the range is taken with
    [max(_, 0)]. *)
Lemma table_PageScroll_bound (m : table.TableModel) num moveSelected :
  - 2 ^ 30 <= num <= 2 ^ 30 ->
  - 2 ^ 30 <= table.height m <= 2 ^ 30 ->
  - 2 ^ 60 <= table.scrolledTop m <= 2 ^ 60 ->
  len (table.filteredContent m) <= 2 ^ 60 ->
  scrollBound (table.scrolledTop (table.PageScroll num moveSelected m))
    (len (table.filteredContent (table.PageScroll num moveSelected m)))
    (table.viewportHeight (table.PageScroll num moveSelected m)).
Proof.
  intros Hn Hh Hs Hl. pose proof (len_nonneg (table.filteredContent m)).
  unfold scrollBound, maxScroll, table.viewportHeight, table.PageScroll,
    table.pageHeight.
  destruct m as [w h hd c sel st flt cols fc col ord sc]. table_fields.
  assert (- 2 ^ 61 <= (h - 3) * num <= 2 ^ 61) by nia.
  assert (- 2 ^ 61 <= (h - 1 - 3) * num <= 2 ^ 61) by nia.
  destruct flt; cbn [table.isNil]; destruct moveSelected; scroll; lia.
Qed.

(** C1 fails on the code.  PageScroll of the table without a filter takes
    the end of the range without [max(_, 0)]: three rows in a window of
    six, scrolled to the top, and one page down leaves [scrolledTop] at -3.
    SetContent of the table with a filter keeps the scroll position of the
    rows it replaces: a hundred rows scrolled to 90, replaced by three. *)
Theorem C1_scroll_bound_is_broken :
  (scrollBound (basictable.scrolledTop basicShort)
     (len (basictable.content basicShort))
     (basictable.viewportHeight basicShort) /\
   basictable.scrolledTop (basictable.PageScroll 1 false basicShort) = -3 /\
   ~ scrollBound
       (basictable.scrolledTop (basictable.PageScroll 1 false basicShort))
       (len (basictable.content (basictable.PageScroll 1 false basicShort)))
       (basictable.viewportHeight
          (basictable.PageScroll 1 false basicShort))) /\
  (forall toLower compareString sortFunc,
     scrollBound (table.scrolledTop tableHundredEnd)
       (len (table.sortedContent tableHundredEnd))
       (table.viewportHeight tableHundredEnd) /\
     exists m',
       table.SetContent toLower compareString sortFunc people tableHundredEnd
         = Some m' /\
       table.scrolledTop m' = 90 /\
       len (table.sortedContent m') = 3 /\
       ~ scrollBound (table.scrolledTop m') (len (table.sortedContent m'))
           (table.viewportHeight m')).
Proof.
  split.
  - unfold scrollBound. vm_compute. repeat split; try discriminate.
    intros [H _]. apply H. reflexivity.
  - intros toLower compareString sortFunc. split.
    + unfold scrollBound. vm_compute. split; discriminate.
    + eexists. split; [reflexivity|]. unfold scrollBound. vm_compute.
      repeat split. intros [_ H]. apply H. reflexivity.
Qed.

(** ** Sort *)

(** A column at or past the number of headers is rejected: the model comes
    back as it is. *)
Lemma Sort_column_too_large compareString sortFunc
    (m : table.TableModel) col dir :
  len (table.headers m) <= 2 ^ 60 ->
  len (table.headers m) <= col ->
  table.Sort compareString sortFunc col dir m = Some m.
Proof.
  intros Hs H. unfold table.Sort. pose proof (len_nonneg (table.headers m)).
  unwrap. rewrite Z.gtb_ltb.
  destruct (Z.ltb_spec (len (table.headers m) - 1) col); [reflexivity|lia].
Qed.

(** C4 fails on the code.  The guard of Sort is [col > len(m.headers)-1]
    alone, so a column below zero is not rejected: with no direction the
    call stores the column, with a direction the comparison of the first
    two rows reads [a[-1]] and the program stops. *)
Theorem C4_negative_column_is_not_rejected compareString sortFunc :
  (exists m',
     table.Sort compareString sortFunc (-1) table.SortUnsorted
       tablePeople = Some m' /\
     table.sortByCol m' = -1 /\
     table.sortByCol tablePeople = 0 /\
     m' <> tablePeople) /\
  table.Sort compareString sortFunc (-1) table.SortAscendig
    tablePeople = None /\
  table.Sort compareString sortFunc (-1) table.SortDescending
    tablePeople = None.
Proof.
  split; [|split; reflexivity].
  eexists. split; [reflexivity|]. repeat split. discriminate.
Qed.

(** ** The filter *)

Lemma has_prefix_spec s sub :
  has_prefix s sub = true <-> exists post, s = sub ++ post.
Proof.
  revert s. induction sub as [|b sub IH]; intros s; simpl.
  - split; [intros _; exists s; reflexivity|destruct s; reflexivity].
  - destruct s as [|a s]; simpl.
    + split; [discriminate|intros [post H]; discriminate].
    + rewrite andb_true_iff, IH, Z.eqb_eq. split.
      * intros [-> [post ->]]. exists post. reflexivity.
      * intros [post [= -> ->]]. split; [reflexivity|]. exists post.
        reflexivity.
Qed.

(** [strings.Contains] is the substring relation. *)
Lemma contains_spec s sub :
  contains s sub = true <-> exists pre post, s = pre ++ sub ++ post.
Proof.
  induction s as [|a s IH]; cbn [contains].
  - rewrite orb_false_r, has_prefix_spec. split.
    + intros [post H]. exists [], post. exact H.
    + intros (pre & post & H). destruct pre; [|discriminate].
      exists post. exact H.
  - rewrite orb_true_iff, has_prefix_spec, IH. split.
    + intros [[post H]|(pre & post & ->)].
      * exists [], post. exact H.
      * exists (a :: pre), post. reflexivity.
    + intros (pre & post & H). destruct pre as [|x pre].
      * left. exists post. exact H.
      * right. injection H as -> ->. exists pre, post. reflexivity.
Qed.

Lemma hasCell_cellOr c line :
  table.hasCell c line = true -> index line c = Some (table.cellOr line c).
Proof.
  unfold table.hasCell, table.cellOr. destruct (index line c);
    [reflexivity|discriminate].
Qed.

Section table_filter.

Variable toLower : rune -> rune.

Lemma lineMatches_spec flt line cols :
  Forall (fun c => table.hasCell c line = true) cols ->
  table.lineMatches toLower flt line cols
    = Some (existsb
              (fun c =>
                 contains (table.ToLower toLower (table.cellOr line c)) flt)
              cols).
Proof.
  induction 1 as [|c cols Hc _ IH]; simpl; [reflexivity|].
  rewrite (hasCell_cellOr _ _ Hc). cbn [mbind option_bind].
  destruct (contains _ flt); [reflexivity|exact IH].
Qed.

Lemma filter_loop cols text rows :
  rowsHave cols rows ->
  forall i acc,
    range_loop
      (fun _ line ret =>
         keep ← table.lineMatches toLower (table.ToLower toLower text)
                  line cols;
         Some (if keep : bool then ret ++ [line] else ret))
      i rows acc
    = Some (acc ++ filter (fun line => matchesFilter toLower cols text line
                                       = true) rows).
Proof.
  induction 1 as [|line rows Hline _ IH]; intros i acc; cbn [range_loop].
  - rewrite filter_nil, app_nil_r. reflexivity.
  - rewrite (lineMatches_spec _ _ _ Hline). cbn [mbind option_bind].
    rewrite filter_cons. fold (matchesFilter toLower cols text line).
    destruct (matchesFilter toLower cols text line) eqn:E.
    + rewrite decide_True by reflexivity. rewrite IH, <- app_assoc.
      reflexivity.
    + rewrite decide_False by discriminate. apply IH.
Qed.

Lemma filterContent_spec (m : table.TableModel) :
  rowsHave (table.filterColums m) (table.content m) ->
  table.filterContent toLower m
    = Some (match table.filter m with
            | [] => table.content m
            | _ :: _ =>
                filter (fun line =>
                          matchesFilter toLower (table.filterColums m)
                            (table.filter m) line = true)
                  (table.content m)
            end).
Proof.
  intros H. unfold table.filterContent. destruct (table.filter m) as [|c f] eqn:E;
    [reflexivity|].
  rewrite <- E. rewrite (filter_loop _ _ _ H). reflexivity.
Qed.

(** With at least one filter column the empty text matches every row. *)
Lemma matchesFilter_empty cols line :
  cols <> [] -> matchesFilter toLower cols [] line = true.
Proof.
  destruct cols as [|c cols]; [congruence|]. intros _.
  unfold matchesFilter. simpl.
  assert (forall s, has_prefix s [] = true) as Hp by (intros []; reflexivity).
  destruct (table.ToLower toLower (table.cellOr line c)); simpl; reflexivity.
Qed.

Lemma filter_all {A} (P : A -> Prop) `{forall x, Decision (P x)} (l : list A) :
  (forall x, P x) -> filter P l = l.
Proof.
  intros HP. induction l as [|x l IH]; [reflexivity|].
  rewrite filter_cons, decide_True by apply HP. f_equal. exact IH.
Qed.

(** The rows that match, by the substring relation. *)
Lemma matchesFilter_spec cols text line :
  matchesFilter toLower cols text line = true <->
  exists c pre post,
    c ∈ cols /\
    table.ToLower toLower (table.cellOr line c)
      = pre ++ table.ToLower toLower text ++ post.
Proof.
  unfold matchesFilter. rewrite existsb_exists. split.
  - intros (c & Hin & Hc). apply contains_spec in Hc as (pre & post & E).
    exists c, pre, post. split; [apply list_elem_of_In; exact Hin|exact E].
  - intros (c & pre & post & Hin & E). exists c.
    split; [apply list_elem_of_In; exact Hin|].
    apply contains_spec. exists pre, post. exact E.
Qed.

End table_filter.

(** C6.  SetFilter on a table whose rows have the cells that the filter and
    the sort read: the filtered rows are the rows of the content, in their
    order, of which some filter column contains the text as a
    case-insensitive substring; the empty text keeps every row; scroll
    position and selected line are 0; the sorted rows are the current sort
    of the new filtered rows. *)
Theorem C6_set_filter toLower compareString sortFunc
    (m : table.TableModel) (text : gostring) :
  rowsHave (table.filterColums m) (table.content m) ->
  (table.sortOrder m = table.SortUnsorted \/
   rowsHave [table.sortByCol m] (table.content m)) ->
  exists m',
    table.SetFilter toLower compareString sortFunc text m = Some m' /\
    table.filter m' = text /\
    table.content m' = table.content m /\
    table.sortByCol m' = table.sortByCol m /\
    table.sortOrder m' = table.sortOrder m /\
    (text = [] -> table.filteredContent m' = table.content m) /\
    (text <> [] \/ table.filterColums m <> [] ->
     table.filteredContent m'
       = filter (fun line =>
                   matchesFilter toLower (table.filterColums m) text line
                   = true)
           (table.content m)) /\
    (forall line,
       line ∈ table.filteredContent m' <->
       line ∈ table.content m /\
       (text = [] \/
        exists c pre post,
          c ∈ table.filterColums m /\
          table.ToLower toLower (table.cellOr line c)
            = pre ++ table.ToLower toLower text ++ post)) /\
    table.scrolledTop m' = 0 /\
    table.selectedLine m' = 0 /\
    table.sortFilteredContent compareString sortFunc m'
      = Some (table.sortedContent m') /\
    table.sortedContent m'
      = match table.sortOrder m with
        | table.SortUnsorted => table.filteredContent m'
        | _ => sortFunc (table.compareRows compareString m')
                 (table.filteredContent m')
        end.
Proof.
  intros Hrows Hsort. unfold table.SetFilter.
  rewrite filterContent_spec by exact Hrows. cbn [mbind option_bind].
  table_fields.
  set (fc := match text with
             | [] => table.content m
             | _ :: _ =>
                 filter (fun line =>
                           matchesFilter toLower (table.filterColums m) text
                             line = true) (table.content m)
             end).
  assert (forall line, line ∈ fc -> line ∈ table.content m) as Hsub.
  { intros line. unfold fc. destruct text; [tauto|].
    rewrite list_elem_of_filter. tauto. }
  assert (table.sortOrder m = table.SortUnsorted \/
          forallb (table.hasCell (table.sortByCol m)) fc = true) as Hcells.
  { destruct Hsort as [Hu|Hc]; [left; exact Hu|right].
    apply forallb_forall. intros line Hin.
    apply list_elem_of_In, Hsub in Hin.
    unfold rowsHave in Hc. rewrite Forall_forall in Hc.
    specialize (Hc line Hin). inversion Hc; assumption. }
  assert (exists s,
            table.sortFilteredContent compareString sortFunc
              (table.set_filteredContent fc (table.set_filter text m))
              = Some s /\
            s = match table.sortOrder m with
                | table.SortUnsorted => fc
                | _ => sortFunc
                         (table.compareRows compareString
                            (table.set_filteredContent fc
                               (table.set_filter text m))) fc
                end) as (s & Es & Hs).
  { unfold table.sortFilteredContent. table_fields.
    destruct (table.sortOrder m) eqn:Eo; eauto;
      destruct Hcells as [Hu|Hc]; try discriminate;
      rewrite Hc, andb_false_r; eauto. }
  rewrite Es. cbn [mbind option_bind]. eexists. split; [reflexivity|].
  table_fields. repeat apply conj; try reflexivity.
  - intros ->. reflexivity.
  - intros [Ht|Hc]; unfold fc.
    + destruct text; [congruence|reflexivity].
    + destruct text; [|reflexivity]. symmetry. apply filter_all.
      intros line. apply matchesFilter_empty, Hc.
  - intros line. unfold fc. destruct text as [|c text].
    + split; [intros H; split; [exact H|left; reflexivity]|tauto].
    + rewrite list_elem_of_filter, matchesFilter_spec. split.
      * intros [H1 H2]. split; [exact H2|right; exact H1].
      * intros [H1 [H2|H2]]; [discriminate|]. split; assumption.
  - unfold table.sortFilteredContent in *. table_fields. exact Es.
  - rewrite Hs. destruct (table.sortOrder m); reflexivity.
Qed.

Lemma C6_set_filter_witness :
  (rowsHave (table.filterColums tablePeople) (table.content tablePeople) /\
   (table.sortOrder tablePeople = table.SortUnsorted \/
    rowsHave [table.sortByCol tablePeople] (table.content tablePeople))) /\
  exists m',
    table.SetFilter rune_lower lexCompare mergeSortFunc (str "a") tablePeople
      = Some m' /\
    table.filteredContent m'
      = [[str "Alice"; str "30"]; [str "Cathy"; str "40"]] /\
    table.scrolledTop m' = 0 /\
    table.selectedLine m' = 0.
Proof.
  assert (rowsHave (table.filterColums tablePeople)
            (table.content tablePeople) /\
          (table.sortOrder tablePeople = table.SortUnsorted \/
           rowsHave [table.sortByCol tablePeople]
             (table.content tablePeople))) as H.
  { split; [|left; reflexivity]. repeat constructor. }
  split; [exact H|].
  destruct (C6_set_filter rune_lower lexCompare mergeSortFunc tablePeople
              (str "a")) as (m' & E & _ & _ & _ & _ & _ & Hf & _ & Hs & Hl & _);
    [apply H..|].
  exists m'. split; [exact E|]. split; [|split; assumption].
  rewrite Hf by (left; discriminate). vm_compute. reflexivity.
Defined.

(** ** The sort *)

Lemma lexCompare_antisym a b : lexCompare b a = - lexCompare a b.
Proof.
  revert b. induction a as [|x a IH]; intros [|y b]; simpl; try reflexivity.
  destruct (Z.ltb_spec x y), (Z.ltb_spec y x); try reflexivity; try lia.
  apply IH.
Qed.

Lemma lexCompare_trans a b c :
  lexCompare a b <= 0 -> lexCompare b c <= 0 -> lexCompare a c <= 0.
Proof.
  revert b c. induction a as [|x a IH]; intros [|y b] [|z c]; simpl;
    try lia.
  destruct (Z.ltb_spec x y), (Z.ltb_spec y x), (Z.ltb_spec y z),
    (Z.ltb_spec z y), (Z.ltb_spec x z), (Z.ltb_spec z x);
    try lia; apply IH.
Qed.

Lemma mergeSortFunc_perm cmp l : mergeSortFunc cmp l ≡ₚ l.
Proof. unfold mergeSortFunc. apply merge_sort_Permutation. Qed.

Lemma mergeSortFunc_sorted cmp l :
  (forall a b, cmp b a = - cmp a b) ->
  Sorted (fun a b => cmp a b <= 0) (mergeSortFunc cmp l).
Proof.
  intros Hanti. unfold mergeSortFunc. apply Sorted_merge_sort.
  intros a b. specialize (Hanti a b). simpl. lia.
Qed.

Lemma Sorted_weaken {A} (R R' : A -> A -> Prop) l :
  (forall a b, R a b -> R' a b) -> Sorted R l -> Sorted R' l.
Proof.
  intros HR. induction 1 as [|x l _ IH Hhd]; constructor; [exact IH|].
  destruct Hhd; constructor. apply HR. assumption.
Qed.

Section table_sort.

Variable compareString : gostring -> gostring -> Z.
Variable sortFunc :
  (list gostring -> list gostring -> Z) ->
  list (list gostring) -> list (list gostring).

(** The comparison of two texts and the sort, as far as the code relies on
    them: the comparison is a total preorder given by a sign, the sort
    returns the same rows in an order that the comparison accepts. *)
Hypothesis compare_antisym :
  forall a b, compareString b a = - compareString a b.
Hypothesis compare_trans :
  forall a b c,
    compareString a b <= 0 -> compareString b c <= 0 ->
    compareString a c <= 0.
Hypothesis sort_perm : forall cmp l, sortFunc cmp l ≡ₚ l.
Hypothesis sort_sorted :
  forall cmp l,
    (forall a b, cmp b a = - cmp a b) ->
    (forall a b c, cmp a b <= 0 -> cmp b c <= 0 -> cmp a c <= 0) ->
    Sorted (fun a b => cmp a b <= 0) (sortFunc cmp l).

Lemma keyLe_trans col : Transitive (keyLe compareString col).
Proof. intros a b c. unfold keyLe. apply compare_trans. Qed.

Lemma keyLe_flip_trans col : Transitive (flip (keyLe compareString col)).
Proof. intros a b c H1 H2. unfold flip in *. eapply keyLe_trans; eassumption. Qed.

Lemma sortFilteredContent_sorts (m : table.TableModel) :
  table.sortOrder m <> table.SortUnsorted ->
  Forall (fun line => table.hasCell (table.sortByCol m) line = true)
    (table.filteredContent m) ->
  table.sortFilteredContent compareString sortFunc m
    = Some (sortFunc (table.compareRows compareString m)
              (table.filteredContent m)).
Proof.
  intros Ho Hc. unfold table.sortFilteredContent.
  assert (forallb (table.hasCell (table.sortByCol m))
            (table.filteredContent m) = true) as ->.
  { apply forallb_forall. rewrite Forall_forall in Hc. intros x Hx.
    apply Hc, list_elem_of_In, Hx. }
  rewrite andb_false_r. destruct (table.sortOrder m); congruence.
Qed.

Lemma Sort_sorts (m : table.TableModel) col dir :
  dir <> table.SortUnsorted ->
  0 <= col < len (table.headers m) ->
  len (table.headers m) <= 2 ^ 60 ->
  Forall (fun line => table.hasCell col line = true)
    (table.filteredContent m) ->
  table.Sort compareString sortFunc col dir m
    = Some (table.set_sortedContent
              (sortFunc
                 (table.compareRows compareString
                    (table.set_sortOrder dir (table.set_sortByCol col m)))
                 (table.filteredContent m))
              (table.set_sortOrder dir (table.set_sortByCol col m))).
Proof.
  intros Hdir Hcol Hh Hc. unfold table.Sort. unwrap. rewrite Z.gtb_ltb.
  destruct (Z.ltb_spec (len (table.headers m) - 1) col); [lia|].
  assert (table.SortOrder_eqb dir table.SortUnsorted = false) as ->
    by (destruct dir; try reflexivity; congruence).
  rewrite sortFilteredContent_sorts; [reflexivity|..]; table_fields;
    assumption.
Qed.

Lemma sorted_ascending (m : table.TableModel) col :
  table.sortOrder m = table.SortAscendig -> table.sortByCol m = col ->
  Sorted (keyLe compareString col)
    (sortFunc (table.compareRows compareString m) (table.filteredContent m)).
Proof.
  intros Ho Hc.
  assert (forall a b, table.compareRows compareString m a b
                      = compareString (table.cellOr a col) (table.cellOr b col))
    as Hcmp by (intros; unfold table.compareRows; rewrite Ho, Hc; reflexivity).
  eapply Sorted_weaken;
    [|apply (sort_sorted (table.compareRows compareString m))].
  - intros a b. unfold keyLe. rewrite Hcmp. tauto.
  - intros a b. rewrite !Hcmp. apply compare_antisym.
  - intros a b c. rewrite !Hcmp. apply compare_trans.
Qed.

Lemma sorted_descending (m : table.TableModel) col :
  table.sortOrder m = table.SortDescending -> table.sortByCol m = col ->
  Sorted (flip (keyLe compareString col))
    (sortFunc (table.compareRows compareString m) (table.filteredContent m)).
Proof.
  intros Ho Hc.
  assert (forall a b, table.compareRows compareString m a b
                      = compareString (table.cellOr b col) (table.cellOr a col))
    as Hcmp by (intros; unfold table.compareRows; rewrite Ho, Hc; reflexivity).
  eapply Sorted_weaken;
    [|apply (sort_sorted (table.compareRows compareString m))].
  - intros a b. unfold flip, keyLe. rewrite Hcmp. tauto.
  - intros a b. rewrite !Hcmp. apply compare_antisym.
  - intros a b c. rewrite !Hcmp. intros H1 H2.
    eapply compare_trans; eassumption.
Qed.

(** With pairwise distinct keys there is one descending order of the rows:
    the ascending one, reversed. *)
Lemma descending_is_reverse col (rows up down : list (list gostring)) :
  (forall (i j : nat) a b,
     i <> j -> rows !! i = Some a -> rows !! j = Some b ->
     compareString (table.cellOr a col) (table.cellOr b col) <> 0) ->
  up ≡ₚ rows -> down ≡ₚ rows ->
  Sorted (keyLe compareString col) up -> Sorted (flip (keyLe compareString col)) down ->
  down = reverse up.
Proof.
  intros Hd Hup Hdown Sup Sdown.
  pose proof (keyLe_flip_trans col) as Ht.
  apply (Sorted_unique_strong (flip (keyLe compareString col))).
  - intros x1 x2 H1 H2 R1 R2. unfold flip, keyLe in R1, R2.
    rewrite Hdown in H1. rewrite reverse_Permutation, Hup in H2.
    apply list_elem_of_lookup in H1 as [i Hi].
    apply list_elem_of_lookup in H2 as [j Hj].
    destruct (decide (i = j)) as [->|Hij]; [congruence|].
    exfalso. apply (Hd i j x1 x2 Hij Hi Hj).
    pose proof (compare_antisym (table.cellOr x1 col) (table.cellOr x2 col)).
    lia.
  - exact Sdown.
  - apply Sorted_reverse, Sup.
  - rewrite reverse_Permutation, Hup, Hdown. reflexivity.
Qed.

End table_sort.

(** C7.  Sort with no direction and a valid column makes the sorted rows
    the filtered rows, in their order.  On filtered rows whose keys in a
    valid column are pairwise distinct, Sort upwards followed by Sort
    downwards gives the upward order reversed; the comparison of texts is a
    total preorder given by its sign, and the sort returns the same rows in
    an order the comparison accepts. *)
Theorem C7_sort_reversal compareString sortFunc :
  (forall (m : table.TableModel) col,
     0 <= col < len (table.headers m) ->
     len (table.headers m) <= 2 ^ 60 ->
     exists m',
       table.Sort compareString sortFunc col table.SortUnsorted m = Some m' /\
       table.filteredContent m' = table.filteredContent m /\
       table.sortedContent m' = table.filteredContent m) /\
  ((forall a b, compareString b a = - compareString a b) ->
   (forall a b c,
      compareString a b <= 0 -> compareString b c <= 0 ->
      compareString a c <= 0) ->
   (forall cmp l, sortFunc cmp l ≡ₚ l) ->
   (forall cmp l,
      (forall a b, cmp b a = - cmp a b) ->
      (forall a b c, cmp a b <= 0 -> cmp b c <= 0 -> cmp a c <= 0) ->
      Sorted (fun a b => cmp a b <= 0) (sortFunc cmp l)) ->
   forall (m : table.TableModel) col,
     0 <= col < len (table.headers m) ->
     len (table.headers m) <= 2 ^ 60 ->
     rowsHave [col] (table.filteredContent m) ->
     (forall (i j : nat) a b,
        i <> j ->
        table.filteredContent m !! i = Some a ->
        table.filteredContent m !! j = Some b ->
        compareString (table.cellOr a col) (table.cellOr b col) <> 0) ->
     exists up down,
       table.Sort compareString sortFunc col table.SortAscendig m = Some up /\
       table.Sort compareString sortFunc col table.SortDescending up
         = Some down /\
       table.sortedContent up ≡ₚ table.filteredContent m /\
       Sorted (fun a b =>
                 compareString (table.cellOr a col) (table.cellOr b col) <= 0)
         (table.sortedContent up) /\
       table.sortedContent down = reverse (table.sortedContent up)).
Proof.
  split.
  - intros m col Hcol Hh. unfold table.Sort. unwrap. rewrite Z.gtb_ltb.
    destruct (Z.ltb_spec (len (table.headers m) - 1) col); [lia|].
    eexists. split; [reflexivity|]. split; reflexivity.
  - intros Hanti Htrans Hperm Hsorted m col Hcol Hh Hcells Hdist.
    assert (Forall (fun line => table.hasCell col line = true)
              (table.filteredContent m)) as Hc.
    { eapply Forall_impl; [exact Hcells|]. simpl. intros line H.
      inversion H; assumption. }
    set (mu0 := table.set_sortOrder table.SortAscendig
                  (table.set_sortByCol col m)).
    set (mu := table.set_sortedContent
                 (sortFunc (table.compareRows compareString mu0)
                    (table.filteredContent m)) mu0).
    set (md0 := table.set_sortOrder table.SortDescending
                  (table.set_sortByCol col mu)).
    set (md := table.set_sortedContent
                 (sortFunc (table.compareRows compareString md0)
                    (table.filteredContent m)) md0).
    exists mu, md.
    split; [apply Sort_sorts; [discriminate|assumption..]|].
    split; [apply (Sort_sorts compareString sortFunc mu col);
            [discriminate|assumption..]|].
    pose proof (sorted_ascending compareString sortFunc Hanti Htrans
                  Hsorted mu0 col eq_refl eq_refl) as Sup.
    pose proof (sorted_descending compareString sortFunc Hanti Htrans
                  Hsorted md0 col eq_refl eq_refl) as Sdown.
    split; [apply Hperm|]. split; [exact Sup|].
    apply (descending_is_reverse compareString Hanti Htrans col
             (table.filteredContent m)).
    + exact Hdist.
    + apply Hperm.
    + apply Hperm.
    + exact Sup.
    + exact Sdown.
Qed.

Lemma C7_sort_reversal_witness :
  exists up down,
    table.Sort lexCompare mergeSortFunc 0 table.SortAscendig tablePeople
      = Some up /\
    table.Sort lexCompare mergeSortFunc 0 table.SortDescending up
      = Some down /\
    table.sortedContent up ≡ₚ table.filteredContent tablePeople /\
    Sorted (fun a b =>
              lexCompare (table.cellOr a 0) (table.cellOr b 0) <= 0)
      (table.sortedContent up) /\
    table.sortedContent down = reverse (table.sortedContent up).
Proof.
  destruct (C7_sort_reversal lexCompare mergeSortFunc) as [_ H].
  apply (H lexCompare_antisym lexCompare_trans mergeSortFunc_perm
           (fun cmp l Ha _ => mergeSortFunc_sorted cmp l Ha) tablePeople 0).
  - vm_compute. split; [discriminate|reflexivity].
  - vm_compute. discriminate.
  - repeat constructor.
  - intros i j a b Hij Hi Hj.
    destruct i as [|[|[|i]]]; destruct j as [|[|[|j]]];
      try congruence; simpl in Hi, Hj; try discriminate;
      injection Hi as <-; injection Hj as <-; vm_compute; discriminate.
Defined.

(** ** Keeping the selection in the window *)

(** Every display line belongs to a row. *)
Lemma row_of_line hs k :
  Forall (fun h => 1 <= h) hs -> 0 <= k < total hs ->
  exists (r : nat) h, hs !! r = Some h /\ start hs r <= k < start hs r + h.
Proof.
  induction hs as [|h hs IH] using rev_ind; intros Hhs Hk.
  - simpl in Hk. lia.
  - apply Forall_app in Hhs as [Hhs Hh]. rewrite total_app in Hk.
    simpl in Hk. destruct (Z.lt_ge_cases k (total hs)) as [Hlt|Hge].
    + destruct IH as (r & h' & Hr & Hin); [assumption|lia|].
      exists r, h'. pose proof (lookup_lt_Some _ _ _ Hr).
      rewrite lookup_app_l, start_snoc by lia. split; assumption.
    + exists (length hs), h.
      rewrite lookup_app_r, Nat.sub_diag, start_snoc, start_all by lia.
      split; [reflexivity|lia].
Qed.

Lemma tmSelectionVisible_intro (m : tm.TextModel) a h k :
  tm.selectedParsedLines m = seqZ a h ->
  a <= k < a + h ->
  tm.scrolledTop m <= k < tm.scrolledTop m + tm.viewportHeight m ->
  tmSelectionVisible m = true.
Proof.
  intros E Hk Hw. unfold tmSelectionVisible. apply existsb_exists.
  exists k. split.
  - rewrite E. apply list_elem_of_In, elem_of_seqZ. lia.
  - apply andb_true_iff. split; [apply Z.leb_le|apply Z.ltb_lt]; lia.
Qed.

Lemma lineOfParsed_geometry hs (m m1 : tm.TextModel) (r : nat) h k :
  geometry hs m ->
  tm.selectableParsedLinesMap m1 = tm.selectableParsedLinesMap m ->
  hs !! r = Some h -> start hs r <= k < start hs r + h ->
  tm.lineOfParsed m1 k = Z.of_nat r.
Proof.
  intros G E Hr Hk. unfold tm.lineOfParsed.
  rewrite E, (geo_lines _ _ G r h k Hr Hk). reflexivity.
Qed.

Lemma parsedOfLine_geometry hs (m m1 : tm.TextModel) (r : nat) h :
  geometry hs m ->
  tm.parsedSelectableLinesMap m1 = tm.parsedSelectableLinesMap m ->
  hs !! r = Some h ->
  tm.parsedOfLine m1 (Z.of_nat r) = seqZ (start hs r) h.
Proof.
  intros G E Hr. unfold tm.parsedOfLine.
  rewrite E, (geo_rows _ _ G r), Hr. reflexivity.
Qed.

Section tm_selection.

Variable wordwrap : gostring -> Z -> gostring.
Variable render : gostring -> gostring.

(** A widget whose display state is current has the geometry of its
    rows. *)
Lemma current_geometry (m : tm.TextModel) :
  wrapFits wordwrap (tm.width m) (tm.content m) -> tm.height m <> 0 ->
  tm.parseContent wordwrap render m = Some m ->
  geometry (heights wordwrap (tm.width m) (tm.content m)) m /\
  Forall (fun h => 1 <= h) (heights wordwrap (tm.width m) (tm.content m)).
Proof.
  intros Hfit Hh E.
  destruct (parseContent_ready wordwrap render m Hfit Hh)
    as (m' & E' & _ & G & F).
  rewrite E in E'. injection E' as <-. split; assumption.
Qed.

(** Wrapping again after selection and scroll position were set: the
    selected row is in the window when one of its lines is. *)
Lemma reparse_visible (m m1 : tm.TextModel) (r : nat) (h k : Z) :
  wrapFits wordwrap (tm.width m) (tm.content m) -> tm.height m <> 0 ->
  tm.width m1 = tm.width m -> tm.height m1 = tm.height m ->
  tm.content m1 = tm.content m ->
  heights wordwrap (tm.width m) (tm.content m) !! r = Some h ->
  tm.selectedLine m1 = Z.of_nat r ->
  start (heights wordwrap (tm.width m) (tm.content m)) r <= k
    < start (heights wordwrap (tm.width m) (tm.content m)) r + h ->
  tm.scrolledTop m1 <= k < tm.scrolledTop m1 + (tm.height m - 2) ->
  exists m',
    tm.parseContent wordwrap render m1 = Some m' /\
    tmSelectionVisible m' = true /\
    tm.selectedLine m' = Z.of_nat r /\
    tm.scrolledTop m' = tm.scrolledTop m1 /\
    len (tm.parsedContent m')
      = total (heights wordwrap (tm.width m) (tm.content m)).
Proof.
  intros Hfit Hh Hw1 Hh1 Hc1 Hr Hsel Hk Hwin.
  destruct (parseContent_ready wordwrap render m1)
    as (m' & E & (Hw' & Hh' & Hc' & Hs' & Ht') & G & F).
  { rewrite Hw1, Hc1. exact Hfit. }
  { congruence. }
  rewrite Hw1, Hc1 in G, F. exists m'. split; [exact E|].
  split; [|split; [congruence|split; [exact Ht'|apply (geo_total _ _ G)]]].
  pose proof (geo_selected _ _ G) as Hspl.
  rewrite Hs', Hsel, index_nat, Hr, Nat2Z.id in Hspl.
  eapply tmSelectionVisible_intro; [exact Hspl|exact Hk|].
  unfold tm.viewportHeight. rewrite Ht', Hh', Hh1. exact Hwin.
Qed.

(** SetSelectedLine of a row that exists brings the row into the window,
    and leaves the window at the top when everything fits and it was
    there. *)
Lemma tm_SetSelectedLine_visible (m : tm.TextModel) (n : nat) :
  wrapFits wordwrap (tm.width m) (tm.content m) ->
  3 <= tm.height m <= 2 ^ 60 ->
  - 2 ^ 60 <= tm.scrolledTop m <= 2 ^ 60 ->
  (n < length (tm.content m))%nat ->
  exists m',
    tm.SetSelectedLine wordwrap render (Z.of_nat n) m = Some m' /\
    tm.selectedLine m' = Z.of_nat n /\
    tmSelectionVisible m' = true /\
    (tmContentFits m' = true -> tm.scrolledTop m <= 0 ->
     tm.scrolledTop m' = 0).
Proof.
  intros Hfit Hh Hst Hn.
  set (hs := heights wordwrap (tm.width m) (tm.content m)).
  destruct (lookup_lt_is_Some_2 hs n) as [h Hr].
  { unfold hs. rewrite heights_length. exact Hn. }
  destruct (SetSelectedLine_ready wordwrap render m n h Hfit)
    as (m' & E & Hw & Hh' & Hc & Hs & G & Ht); [lia..|exact Hr|].
  fold hs in G, Ht.
  destruct (parseContent_ready wordwrap render m Hfit ltac:(lia))
    as (_ & _ & _ & _ & F). fold hs in F.
  destruct (start_end hs n h F Hr) as (Hs0 & Hh1 & Hend).
  assert (total hs <= 2 ^ 60) as Htot by apply Hfit.
  exists m'. split; [exact E|]. split; [exact Hs|].
  pose proof (geo_selected _ _ G) as Hspl.
  rewrite Hs, index_nat, Hr, Nat2Z.id in Hspl.
  assert (tm.scrolledTop m' <= start hs n
            < tm.scrolledTop m' + (tm.height m - 2) \/
          tm.scrolledTop m' <= start hs n + h - 1
            < tm.scrolledTop m' + (tm.height m - 2)) as Hwin.
  { rewrite Ht. unfold scrollToRow. scroll; lia. }
  split.
  - destruct Hwin as [Hwin|Hwin];
      (eapply tmSelectionVisible_intro; [exact Hspl| |];
       [|unfold tm.viewportHeight; rewrite Hh'; exact Hwin]); lia.
  - unfold tmContentFits, tm.viewportHeight.
    rewrite (geo_total _ _ G), Hh', Ht. intros Hfits Htop.
    apply Z.leb_le in Hfits. unfold scrollToRow. scroll; lia.
Qed.

(** PageScroll with [moveSelected], when the page moves: downwards from
    above the end of the range, upwards from below its start. *)
Lemma tm_PageScroll_visible (m : tm.TextModel) (num : Z) :
  wrapFits wordwrap (tm.width m) (tm.content m) ->
  tm.parseContent wordwrap render m = Some m ->
  3 <= tm.height m <= 2 ^ 30 ->
  - 2 ^ 30 <= num <= 2 ^ 30 ->
  scrollBound (tm.scrolledTop m) (len (tm.parsedContent m))
    (tm.viewportHeight m) ->
  (0 < num /\
   tm.scrolledTop m < len (tm.parsedContent m) - tm.viewportHeight m) \/
  (num < 0 /\ 0 < tm.scrolledTop m) ->
  exists m',
    tm.PageScroll wordwrap render num true m = Some m' /\
    tmSelectionVisible m' = true /\
    scrollBound (tm.scrolledTop m') (len (tm.parsedContent m'))
      (tm.viewportHeight m').
Proof.
  intros Hfit Hcur Hh Hnum Hb Hmove.
  destruct (current_geometry m Hfit ltac:(lia) Hcur) as (G & F).
  set (hs := heights wordwrap (tm.width m) (tm.content m)) in *.
  assert (total hs <= 2 ^ 60) as Htot by apply Hfit.
  pose proof (geo_total _ _ G) as HT.
  unfold scrollBound, maxScroll, tm.viewportHeight in *.
  assert (- 2 ^ 61 <= (tm.height m - 2) * num <= 2 ^ 61) as Hprod by nia.
  assert (- 2 ^ 61 <= (tm.height m - 2) * - num <= 2 ^ 61) as Hprod' by nia.
  assert (forall m1 (r : nat) h k,
            tm.width m1 = tm.width m -> tm.height m1 = tm.height m ->
            tm.content m1 = tm.content m ->
            hs !! r = Some h -> tm.selectedLine m1 = Z.of_nat r ->
            start hs r <= k < start hs r + h ->
            tm.scrolledTop m1 <= k < tm.scrolledTop m1 + (tm.height m - 2) ->
            0 <= tm.scrolledTop m1 <= total hs - (tm.height m - 2) ->
            exists m',
              Some m1 ≫= tm.parseContent wordwrap render = Some m' /\
              tmSelectionVisible m' = true /\
              0 <= tm.scrolledTop m'
                <= 0 `max` (len (tm.parsedContent m') - (tm.height m' - 2)))
    as Hfin.
  { intros m1 r h k Hw1 Hh1 Hc1 Hr Hs1 Hk Hwin Hbound.
    destruct (reparse_visible m m1 r h k Hfit ltac:(lia) Hw1 Hh1 Hc1 Hr Hs1
                Hk Hwin) as (m' & E & V & _ & Ht & Hl).
    exists m'. split; [exact E|]. split; [exact V|].
    fold hs in Hl. rewrite Ht, Hl.
    assert (tm.height m' = tm.height m) as ->; [|lia].
    apply parseContent_settings in E. destruct E as (_ & Hh' & _).
    congruence. }
  assert (exists (r : nat) h,
            hs !! r = Some h /\ Z.of_nat r = len (tm.content m) - 1 /\
            start hs r + h = total hs) as Hlast.
  { assert (0 < total hs) as Hpos by lia.
    assert (hs <> []) as Hne by (intros E; rewrite E in Hpos; simpl in Hpos; lia).
    assert (length hs = length (tm.content m)) as Hlen
      by (unfold hs; apply heights_length).
    destruct (lookup_lt_is_Some_2 hs (length hs - 1)) as [h Hr].
    { destruct hs; [congruence|simpl; lia]. }
    exists (length hs - 1)%nat, h. split; [exact Hr|].
    assert (0 < length hs)%nat by (destruct hs; [congruence|simpl; lia]).
    split; [unfold len; lia|].
    rewrite <- (start_next _ _ _ Hr), start_all by lia. reflexivity. }
  assert (0 <= len (tm.content m) <= 2 ^ 60) as Hclen.
  { pose proof (total_length hs F) as Hl. unfold len in *.
    unfold hs in Hl at 1. rewrite heights_length in Hl. lia. }
  unfold tm.PageScroll. rewrite HT in *.
  destruct Hmove as [[Hpos Hroom]|[Hneg Hroom]].
  - destruct (Z.ltb_spec 0 num) as [_|]; [|lia]. rewrite Z.gtb_ltb.
    destruct (Z.ltb_spec 0 num) as [_|]; [|lia].
    unwrap. rewrite ?HT. unwrap.
    destruct (Z.ltb_spec (tm.scrolledTop m) (total hs - tm.height m + 2));
      [|lia].
    tm_fields. rewrite ?HT. unwrap. rewrite !Z.gtb_ltb.
    destruct Hlast as (rl & hl & Hrl & Erl & Hendl).
    destruct (start_end hs rl hl F Hrl) as (? & ? & ?).
    destruct (Z.ltb_spec (total hs - 2)
                (tm.scrolledTop m + (tm.height m - 2) * num)).
    { tm_fields. rewrite ?HT. unwrap.
      apply (Hfin _ rl hl (total hs - 1)); tm_fields;
        try reflexivity; try assumption; lia. }
    destruct (Z.ltb_spec (total hs - 1 - tm.height m - 2)
                (tm.scrolledTop m + (tm.height m - 2) * num)).
    { tm_fields. rewrite ?HT. unwrap.
      apply (Hfin _ rl hl (total hs - 1)); tm_fields;
        try reflexivity; try assumption; lia. }
    tm_fields. unwrap.
    set (k0 := tm.scrolledTop m + (tm.height m - 2) * num + tm.height m - 3).
    destruct (row_of_line hs k0 F) as (r & h & Hr & Hk0); [unfold k0; nia|].
    destruct (start_end hs r h F Hr) as (? & ? & ?).
    repeat match goal with
      | |- context [tm.lineOfParsed ?m1 k0] =>
          rewrite (lineOfParsed_geometry hs m m1 r h k0 G eq_refl Hr Hk0)
      end.
    unfold tm.parsedAt. tm_fields.
    repeat match goal with
      | |- context [tm.parsedOfLine ?m1 (Z.of_nat r)] =>
          rewrite (parsedOfLine_geometry hs m m1 r h G eq_refl Hr)
      end.
    unfold len. rewrite length_seqZ, Z2Nat.id by lia. unwrap.
    rewrite index_seqZ by lia. cbn [mbind option_bind].
    unwrap.
    apply (Hfin _ r h (start hs r + (h - 1))); tm_fields;
      try reflexivity; try assumption; try lia.
    unfold k0 in Hk0. nia.
  - destruct (Z.ltb_spec 0 num) as [|_]; [lia|]. rewrite Z.gtb_ltb.
    destruct (Z.ltb_spec 0 num) as [|_]; [lia|].
    destruct (Z.ltb_spec num 0) as [_|]; [|lia].
    rewrite Z.gtb_ltb.
    destruct (Z.ltb_spec 0 (tm.scrolledTop m)) as [_|]; [|lia].
    tm_fields. unwrap.
    assert (0 < total hs) as Hpos by lia.
    destruct (row_of_line hs 0 F) as (r0 & h0 & Hr0 & Hk00); [lia|].
    destruct (start_end hs r0 h0 F Hr0) as (? & ? & ?).
    assert (r0 = 0%nat) as ->.
    { destruct r0; [reflexivity|].
      pose proof (start_mono hs 1 (S r0) F ltac:(lia)).
      destruct hs as [|h1 hs']; [discriminate|].
      inversion F; subst. unfold start in *. simpl in *. lia. }
    destruct (Z.ltb_spec (tm.scrolledTop m - (tm.height m - 2) * - num) 0).
    { tm_fields.
      apply (Hfin _ 0%nat h0 0); tm_fields;
        try reflexivity; try assumption; lia. }
    tm_fields.
    set (k0 := tm.scrolledTop m - (tm.height m - 2) * - num) in *.
    destruct (row_of_line hs k0 F) as (r & h & Hr & Hk0); [nia|].
    destruct (start_end hs r h F Hr) as (? & ? & ?).
    repeat match goal with
      | |- context [tm.lineOfParsed ?m1 k0] =>
          rewrite (lineOfParsed_geometry hs m m1 r h k0 G eq_refl Hr Hk0)
      end.
    unfold tm.parsedAt. tm_fields.
    repeat match goal with
      | |- context [tm.parsedOfLine ?m1 (Z.of_nat r)] =>
          rewrite (parsedOfLine_geometry hs m m1 r h G eq_refl Hr)
      end.
    rewrite index_seqZ by lia. cbn [mbind option_bind].
    apply (Hfin _ r h (start hs r)); tm_fields;
      try reflexivity; try assumption; try lia.
    nia.
Qed.

End tm_selection.

(** The same for the table with a filter and a sort. *)
Lemma tableSelectionVisible_intro (m : table.TableModel) :
  0 <= table.selectedLine m < len (table.sortedContent m) ->
  table.scrolledTop m <= table.selectedLine m
    < table.scrolledTop m + table.viewportHeight m ->
  tableSelectionVisible m = true.
Proof.
  intros H1 H2. unfold tableSelectionVisible.
  rewrite !andb_true_iff, !Z.leb_le, !Z.ltb_lt. lia.
Qed.

Lemma table_SetSelectedLine_visible (m : table.TableModel) (line : Z) :
  0 <= line < len (table.filteredContent m) ->
  len (table.sortedContent m) = len (table.filteredContent m) ->
  1 <= table.viewportHeight m ->
  - 2 ^ 60 <= table.height m <= 2 ^ 60 ->
  - 2 ^ 60 <= table.scrolledTop m <= 2 ^ 60 ->
  len (table.filteredContent m) <= 2 ^ 60 ->
  table.selectedLine (table.SetSelectedLine line m) = line /\
  tableSelectionVisible (table.SetSelectedLine line m) = true /\
  (tableContentFits (table.SetSelectedLine line m) = true ->
   table.scrolledTop m = 0 ->
   table.scrolledTop (table.SetSelectedLine line m) = 0).
Proof.
  intros Hline Hlen Hvh Hh Hst Hl.
  destruct m as [w h hd c sel st flt cols fc col ord sc].
  unfold table.viewportHeight, table.pageHeight in *. table_fields.
  assert (table.sortedContent
            (table.SetSelectedLine line
               (table.mkTableModel w h hd c sel st flt cols fc col ord sc))
          = sc /\
          table.filter
            (table.SetSelectedLine line
               (table.mkTableModel w h hd c sel st flt cols fc col ord sc))
          = flt /\
          table.height
            (table.SetSelectedLine line
               (table.mkTableModel w h hd c sel st flt cols fc col ord sc))
          = h) as (Es & Ef & Eh).
  { unfold table.SetSelectedLine. table_fields.
    repeat (case_if; table_fields); repeat split; reflexivity. }
  split; [|split].
  - unfold table.SetSelectedLine. scroll; lia.
  - apply tableSelectionVisible_intro;
      unfold table.viewportHeight, table.pageHeight;
      rewrite ?Es, ?Ef, ?Eh, ?Hlen;
      unfold table.SetSelectedLine; destruct flt; scroll; lia.
  - unfold tableContentFits, table.viewportHeight, table.pageHeight.
    rewrite Es, Ef, Eh, Hlen. intros Hfits Htop. apply Z.leb_le in Hfits.
    unfold table.SetSelectedLine; destruct flt; scroll; lia.
Qed.

Lemma table_PageScroll_visible (m : table.TableModel) (num : Z) :
  num <> 0 ->
  len (table.sortedContent m) = len (table.filteredContent m) ->
  1 <= table.viewportHeight m ->
  - 2 ^ 30 <= num <= 2 ^ 30 ->
  - 2 ^ 30 <= table.height m <= 2 ^ 30 ->
  - 2 ^ 60 <= table.scrolledTop m <= 2 ^ 60 ->
  len (table.filteredContent m) <= 2 ^ 60 ->
  (tableContentFits (table.PageScroll num true m) = false ->
   tableSelectionVisible (table.PageScroll num true m) = true) /\
  (tableContentFits (table.PageScroll num true m) = true ->
   table.scrolledTop (table.PageScroll num true m) = 0).
Proof.
  intros Hnum Hlen Hvh Hn Hh Hst Hl.
  pose proof (len_nonneg (table.filteredContent m)) as Hl0.
  destruct m as [w h hd c sel st flt cols fc col ord sc].
  unfold table.viewportHeight, table.pageHeight in *. table_fields.
  assert (table.sortedContent
            (table.PageScroll num true
               (table.mkTableModel w h hd c sel st flt cols fc col ord sc))
          = sc /\
          table.filter
            (table.PageScroll num true
               (table.mkTableModel w h hd c sel st flt cols fc col ord sc))
          = flt /\
          table.height
            (table.PageScroll num true
               (table.mkTableModel w h hd c sel st flt cols fc col ord sc))
          = h) as (Es & Ef & Eh).
  { unfold table.PageScroll. table_fields.
    repeat (case_if; table_fields); repeat split; reflexivity. }
  unfold tableContentFits, table.viewportHeight, table.pageHeight.
  rewrite Es, Ef, Eh, Hlen.
  assert (- 2 ^ 61 <= (h - 3) * num <= 2 ^ 61) by nia.
  assert (- 2 ^ 61 <= (h - 1 - 3) * num <= 2 ^ 61) by nia.
  split.
  - intros Hfits. apply Z.leb_gt in Hfits.
    apply tableSelectionVisible_intro;
      unfold table.viewportHeight, table.pageHeight;
      rewrite ?Es, ?Ef, ?Eh, ?Hlen;
      unfold table.PageScroll, table.pageHeight; table_fields;
      destruct flt; table_fields; unwrap;
      [set (d := (h - 3) * num) in *; assert (h - 3 <= Z.abs d) by nia
      |set (d := (h - 1 - 3) * num) in *; assert (h - 1 - 3 <= Z.abs d) by nia
      |set (d := (h - 3) * num) in *; assert (h - 3 <= Z.abs d) by nia
      |set (d := (h - 1 - 3) * num) in *; assert (h - 1 - 3 <= Z.abs d) by nia];
      assert (0 < num -> 0 < d) by nia; assert (num < 0 -> d < 0) by nia;
      clearbody d; scroll; lia.
  - intros Hfits. apply Z.leb_le in Hfits.
    unfold table.PageScroll, table.pageHeight; table_fields;
      destruct flt; table_fields; unwrap;
      [set (d := (h - 3) * num) in *|set (d := (h - 1 - 3) * num) in *];
      clearbody d; scroll; lia.
Qed.
(** C2, as amended.  The selected row has a display line inside the window
    [[scrolledTop, scrolledTop + height)]
    - after SetSelectedLine with a row that exists, in the line list (ready,
      at least one line high) and in the table;
    - after SelectLastLine, in the line list when the selection was above
      the last row, in the table when there is a row;
    - after PageScroll with [moveSelected], in the line list when the page
      moves (downwards from above the end of the scroll range, upwards from
      below its start, display state current), in the table for a page
      count other than 0 unless all rows fit the window;
    and [scrolledTop] is 0 when everything fits the window: after
    SetSelectedLine and SelectLastLine if it was 0 before, after PageScroll
    always. *)
Theorem C2_selection_stays_in_the_window :
  (forall wordwrap render (m : tm.TextModel) (n : nat),
     wrapFits wordwrap (tm.width m) (tm.content m) ->
     3 <= tm.height m <= 2 ^ 60 ->
     - 2 ^ 60 <= tm.scrolledTop m <= 2 ^ 60 ->
     (n < length (tm.content m))%nat ->
     exists m',
       tm.SetSelectedLine wordwrap render (Z.of_nat n) m = Some m' /\
       tm.selectedLine m' = Z.of_nat n /\
       tmSelectionVisible m' = true /\
       (tmContentFits m' = true -> tm.scrolledTop m = 0 ->
        tm.scrolledTop m' = 0)) /\
  (forall wordwrap render (m : tm.TextModel),
     wrapFits wordwrap (tm.width m) (tm.content m) ->
     3 <= tm.height m <= 2 ^ 60 ->
     - 2 ^ 60 <= tm.scrolledTop m <= 2 ^ 60 ->
     0 <= tm.selectedLine m < len (tm.content m) - 1 ->
     exists m',
       tm.SelectLastLine wordwrap render m = Some m' /\
       tm.selectedLine m' = len (tm.content m) - 1 /\
       tmSelectionVisible m' = true /\
       (tmContentFits m' = true -> tm.scrolledTop m = 0 ->
        tm.scrolledTop m' = 0)) /\
  (forall wordwrap render (m : tm.TextModel) (num : Z),
     wrapFits wordwrap (tm.width m) (tm.content m) ->
     tm.parseContent wordwrap render m = Some m ->
     3 <= tm.height m <= 2 ^ 30 ->
     - 2 ^ 30 <= num <= 2 ^ 30 ->
     scrollBound (tm.scrolledTop m) (len (tm.parsedContent m))
       (tm.viewportHeight m) ->
     (0 < num /\
      tm.scrolledTop m < len (tm.parsedContent m) - tm.viewportHeight m) \/
     (num < 0 /\ 0 < tm.scrolledTop m) ->
     exists m',
       tm.PageScroll wordwrap render num true m = Some m' /\
       tmSelectionVisible m' = true /\
       (tmContentFits m' = true -> tm.scrolledTop m' = 0)) /\
  (forall (m : table.TableModel) (line : Z),
     0 <= line < len (table.filteredContent m) ->
     len (table.sortedContent m) = len (table.filteredContent m) ->
     1 <= table.viewportHeight m ->
     - 2 ^ 60 <= table.height m <= 2 ^ 60 ->
     - 2 ^ 60 <= table.scrolledTop m <= 2 ^ 60 ->
     len (table.filteredContent m) <= 2 ^ 60 ->
     table.selectedLine (table.SetSelectedLine line m) = line /\
     tableSelectionVisible (table.SetSelectedLine line m) = true /\
     (tableContentFits (table.SetSelectedLine line m) = true ->
      table.scrolledTop m = 0 ->
      table.scrolledTop (table.SetSelectedLine line m) = 0)) /\
  (forall (m : table.TableModel),
     1 <= len (table.filteredContent m) ->
     len (table.sortedContent m) = len (table.filteredContent m) ->
     1 <= table.viewportHeight m ->
     - 2 ^ 60 <= table.height m <= 2 ^ 60 ->
     - 2 ^ 60 <= table.scrolledTop m <= 2 ^ 60 ->
     len (table.filteredContent m) <= 2 ^ 60 ->
     table.selectedLine (table.SelectLastLine m)
       = len (table.filteredContent m) - 1 /\
     tableSelectionVisible (table.SelectLastLine m) = true /\
     (tableContentFits (table.SelectLastLine m) = true ->
      table.scrolledTop m = 0 ->
      table.scrolledTop (table.SelectLastLine m) = 0)) /\
  (forall (m : table.TableModel) (num : Z),
     num <> 0 ->
     len (table.sortedContent m) = len (table.filteredContent m) ->
     1 <= table.viewportHeight m ->
     - 2 ^ 30 <= num <= 2 ^ 30 ->
     - 2 ^ 30 <= table.height m <= 2 ^ 30 ->
     - 2 ^ 60 <= table.scrolledTop m <= 2 ^ 60 ->
     len (table.filteredContent m) <= 2 ^ 60 ->
     (tableContentFits (table.PageScroll num true m) = false ->
      tableSelectionVisible (table.PageScroll num true m) = true) /\
     (tableContentFits (table.PageScroll num true m) = true ->
      table.scrolledTop (table.PageScroll num true m) = 0)).
Proof.
  repeat apply conj.
  - intros ww render m n Hfit Hh Hst Hn.
    destruct (tm_SetSelectedLine_visible ww render m n Hfit Hh Hst Hn)
      as (m' & E & Hs & V & Hf).
    exists m'. repeat split; try assumption. intros H1 H2. apply Hf; [exact H1|lia].
  - intros ww render m Hfit Hh Hst Hsel.
    assert (len (tm.content m) <= 2 ^ 60) as Hl.
    { destruct (parseContent_ready ww render m Hfit ltac:(lia))
        as (_ & _ & _ & _ & F).
      pose proof (total_length _ F) as Hl. unfold len in *.
      rewrite heights_length in Hl. destruct Hfit as (_ & _ & Ht). lia. }
    unfold tm.SelectLastLine. unwrap.
    destruct (Z.ltb_spec (tm.selectedLine m) (len (tm.content m) - 1)); [|lia].
    destruct (tm_SetSelectedLine_visible ww render m
                (length (tm.content m) - 1) Hfit Hh Hst)
      as (m' & E & Hs & V & Hf); [unfold len in *; lia|].
    replace (Z.of_nat (length (tm.content m) - 1))
      with (len (tm.content m) - 1) in * by (unfold len in *; lia).
    exists m'. repeat split; try assumption. intros H1 H2. apply Hf; [exact H1|lia].
  - intros ww render m num Hfit Hcur Hh Hnum Hb Hmove.
    destruct (tm_PageScroll_visible ww render m num Hfit Hcur Hh Hnum Hb Hmove)
      as (m' & E & V & Hb').
    exists m'. split; [exact E|]. split; [exact V|].
    unfold tmContentFits, scrollBound, maxScroll in *. intros H.
    apply Z.leb_le in H. lia.
  - intros m line. apply table_SetSelectedLine_visible.
  - intros m Hl1 Hlen Hvh Hh Hst Hl. unfold table.SelectLastLine. unwrap.
    apply table_SetSelectedLine_visible; try assumption. lia.
  - intros m num. apply table_PageScroll_visible.
Qed.

Lemma C2_selection_stays_in_the_window_witness :
  (exists m',
     tm.SetSelectedLine plainWrap plainRender (Z.of_nat 57) tmHundred
       = Some m' /\
     tm.selectedLine m' = Z.of_nat 57 /\ tmSelectionVisible m' = true) /\
  (exists m',
     tm.SelectLastLine plainWrap plainRender tmHundred = Some m' /\
     tm.selectedLine m' = len (tm.content tmHundred) - 1 /\
     tmSelectionVisible m' = true) /\
  (exists m',
     tm.PageScroll plainWrap plainRender 1 true tmHundred = Some m' /\
     tmSelectionVisible m' = true) /\
  (table.selectedLine (table.SetSelectedLine 57 tableHundred) = 57 /\
   tableSelectionVisible (table.SetSelectedLine 57 tableHundred) = true) /\
  (table.selectedLine (table.SelectLastLine tableHundred)
     = len (table.filteredContent tableHundred) - 1 /\
   tableSelectionVisible (table.SelectLastLine tableHundred) = true) /\
  (tableContentFits (table.PageScroll 1 true tableHundred) = false ->
   tableSelectionVisible (table.PageScroll 1 true tableHundred) = true).
Proof.
  destruct C2_selection_stays_in_the_window
    as (Hset & Hlast & Hpage & Htset & Htlast & Htpage).
  assert (wrapFits plainWrap (tm.width tmHundred) (tm.content tmHundred))
    as Hfit.
  { split; [vm_compute; split; discriminate|].
    split; [refine (bool_decide_unpack _ _); vm_compute; exact I|].
    vm_compute. discriminate. }
  repeat apply conj.
  - destruct (Hset plainWrap plainRender tmHundred 57%nat Hfit)
      as (m' & E & Hs & V & _).
    + vm_compute. split; discriminate.
    + vm_compute. split; discriminate.
    + vm_compute. lia.
    + exists m'. repeat split; assumption.
  - destruct (Hlast plainWrap plainRender tmHundred Hfit)
      as (m' & E & Hs & V & _).
    + vm_compute. split; discriminate.
    + vm_compute. split; discriminate.
    + vm_compute. split; [discriminate|reflexivity].
    + exists m'. repeat split; assumption.
  - destruct (Hpage plainWrap plainRender tmHundred 1 Hfit)
      as (m' & E & V & _).
    + vm_compute. reflexivity.
    + vm_compute. split; discriminate.
    + vm_compute. split; discriminate.
    + unfold scrollBound. vm_compute. split; discriminate.
    + left. vm_compute. split; reflexivity.
    + exists m'. split; assumption.
  - apply (Htset tableHundred 57); vm_compute;
      try reflexivity; try discriminate; split; try discriminate; reflexivity.
  - apply (Htset tableHundred 57); vm_compute;
      try reflexivity; try discriminate; split; try discriminate; reflexivity.
  - apply (Htlast tableHundred); vm_compute;
      try reflexivity; try discriminate; split; discriminate.
  - apply (Htlast tableHundred); vm_compute;
      try reflexivity; try discriminate; split; discriminate.
  - apply (Htpage tableHundred 1); vm_compute;
      try reflexivity; try discriminate; split; discriminate.
Defined.

(** The claim C2 as it was stated fails where an operation does not move:
    SelectLastLine of the line list does nothing when the last row is
    selected already, and PageScroll does nothing at the end of the scroll
    range, wherever ViewScroll has left the window. *)
Lemma C2_counterexample :
  (tm.SelectLastLine plainWrap plainRender tmHundredAway
     = Some tmHundredAway /\
   tm.selectedLine tmHundredAway = 99 /\
   tm.scrolledTop tmHundredAway = 40 /\
   tmSelectionVisible tmHundredAway = false /\
   tmContentFits tmHundredAway = false) /\
  (tm.PageScroll plainWrap plainRender 1 true tmHundredEnd
     = Some tmHundredEnd /\
   tm.selectedLine tmHundredEnd = 0 /\
   tm.scrolledTop tmHundredEnd = 90 /\
   tmSelectionVisible tmHundredEnd = false /\
   tmContentFits tmHundredEnd = false).
Proof. vm_compute. repeat split; reflexivity. Qed.

(** ** Loops over a slice *)

(** An invariant of the rounds holds when the loop is through. *)
Lemma range_loop_inv {A St} (P : nat -> St -> Prop)
    (body : Z -> A -> St -> option St) :
  forall xs i s s',
    P 0%nat s ->
    (forall (j : nat) x s s',
       xs !! j = Some x -> P j s -> body (i + Z.of_nat j) x s = Some s' ->
       P (S j) s') ->
    range_loop body i xs s = Some s' ->
    P (length xs) s'.
Proof.
  intros xs. revert P.
  induction xs as [|x xs IH]; intros P i s s' HP Hstep; cbn [range_loop].
  - intros [= <-]. exact HP.
  - destruct (body i x s) as [s1|] eqn:E; [|discriminate].
    cbn [mbind option_bind]. intros H.
    apply (IH (fun j => P (S j)) (i + 1) s1 s'); [| |exact H].
    + apply (Hstep 0%nat x s s1 eq_refl HP). rewrite Z.add_0_r. exact E.
    + intros j y s2 s3 Hj HP2 E2. apply (Hstep (S j) y s2 s3 Hj HP2).
      replace (i + Z.of_nat (S j)) with (i + 1 + Z.of_nat j) by lia.
      exact E2.
Qed.

(** A loop whose rounds all return is through after the last one. *)
Lemma range_loop_Some {A St} (P : nat -> St -> Prop)
    (body : Z -> A -> St -> option St) :
  forall xs i s,
    P 0%nat s ->
    (forall (j : nat) x s,
       xs !! j = Some x -> P j s ->
       exists s', body (i + Z.of_nat j) x s = Some s' /\ P (S j) s') ->
    exists s', range_loop body i xs s = Some s' /\ P (length xs) s'.
Proof.
  intros xs. revert P.
  induction xs as [|x xs IH]; intros P i s HP Hstep; cbn [range_loop].
  - exists s. split; [reflexivity|exact HP].
  - destruct (Hstep 0%nat x s eq_refl HP) as (s1 & E & HP1).
    rewrite Z.add_0_r in E. rewrite E. cbn [mbind option_bind].
    apply (IH (fun j => P (S j)) (i + 1) s1 HP1).
    intros j y s2 Hj HP2.
    replace (i + 1 + Z.of_nat j) with (i + Z.of_nat (S j)) by lia.
    apply (Hstep (S j) y s2 Hj HP2).
Qed.

(** A round that panics in every state the loop can be in stops the
    loop. *)
Lemma range_loop_None {A St} (P : St -> Prop)
    (body : Z -> A -> St -> option St) :
  forall xs i s (j : nat) x,
    P s ->
    (forall j x s s', P s -> body j x s = Some s' -> P s') ->
    xs !! j = Some x ->
    (forall s', P s' -> body (i + Z.of_nat j) x s' = None) ->
    range_loop body i xs s = None.
Proof.
  induction xs as [|y xs IH]; intros i s j x HP Hstep Hj Hfail;
    [discriminate|].
  cbn [range_loop]. destruct j as [|j].
  - injection Hj as ->. rewrite Z.add_0_r in Hfail.
    rewrite Hfail by exact HP. reflexivity.
  - destruct (body i y s) as [s1|] eqn:E; [|reflexivity].
    cbn [mbind option_bind].
    apply (IH (i + 1) s1 j x);
      [eapply Hstep; eassumption|exact Hstep|exact Hj|].
    intros s' Hs'.
    replace (i + 1 + Z.of_nat j) with (i + Z.of_nat (S j)) by lia.
    apply Hfail, Hs'.
Qed.

(** ** The column widths of the table *)

Lemma total_bound (B : Z) (l : list Z) :
  Forall (fun c => - B <= c <= B) l ->
  - (len l * B) <= total l <= len l * B.
Proof.
  unfold len. induction 1 as [|c l Hc Hl IH]; simpl total; simpl length.
  - lia.
  - rewrite Nat2Z.inj_succ. lia.
Qed.

Lemma total_snoc (l : list Z) c : total (l ++ [c]) = total l + c.
Proof. rewrite total_app. simpl. lia. Qed.

Lemma autoCount_app l1 l2 : autoCount (l1 ++ l2) = autoCount l1 + autoCount l2.
Proof. unfold autoCount, len. rewrite filter_app, length_app. lia. Qed.

Lemma autoCount_bound l : 0 <= autoCount l <= len l.
Proof.
  unfold autoCount, len. pose proof (length_filter (fun c => c = 0) l). lia.
Qed.

Lemma autoCount_cons_0 l : autoCount (0 :: l) = 1 + autoCount l.
Proof.
  unfold autoCount, len. rewrite filter_cons_True by reflexivity.
  simpl length. lia.
Qed.

Lemma autoCount_cons_ne c l : c <> 0 -> autoCount (c :: l) = autoCount l.
Proof.
  intros H. unfold autoCount. rewrite filter_cons_False by exact H.
  reflexivity.
Qed.

Lemma autoCount_pos l (i : nat) :
  l !! i = Some 0 -> 0 < autoCount l.
Proof.
  intros H. rewrite <- (take_drop_middle l i 0 H), autoCount_app.
  rewrite autoCount_cons_0.
  pose proof (autoCount_bound (take i l)).
  pose proof (autoCount_bound (drop (S i) l)). lia.
Qed.

Lemma autoCount_zero l :
  (forall i : nat, l !! i <> Some 0) -> autoCount l = 0.
Proof.
  induction l as [|c l IH]; intros H; [reflexivity|].
  rewrite autoCount_cons_ne.
  - apply IH. intros i. apply (H (S i)).
  - intros ->. apply (H 0%nat). reflexivity.
Qed.

Lemma shareOut_app base rem seen l1 l2 :
  shareOut base rem seen (l1 ++ l2)
    = shareOut base rem seen l1
        ++ shareOut base rem (seen + autoCount l1) l2.
Proof.
  revert seen. induction l1 as [|c l1 IH]; intros seen.
  - simpl. unfold autoCount, len. simpl. rewrite Z.add_0_r. reflexivity.
  - simpl. destruct (Z.eqb_spec c 0) as [->|Hc]; rewrite IH.
    + rewrite autoCount_cons_0.
      replace (seen + (1 + autoCount l1)) with (seen + 1 + autoCount l1)
        by lia.
      reflexivity.
    + rewrite autoCount_cons_ne by exact Hc. reflexivity.
Qed.

Lemma shareOut_length base rem seen l :
  length (shareOut base rem seen l) = length l.
Proof.
  revert seen. induction l as [|c l IH]; intros seen; simpl; [reflexivity|].
  destruct (c =? 0); simpl; rewrite IH; reflexivity.
Qed.

(** The shared-out widths add up to the fixed widths, [base] for each
    automatic column and the part of [rem] that was handed out. *)
Lemma shareOut_total base rem seen l :
  total (shareOut base rem seen l)
    = total l + base * autoCount l
      + Z.max 0 (Z.min (autoCount l) (rem - seen)).
Proof.
  revert seen. induction l as [|c l IH]; intros seen.
  - simpl. unfold autoCount, len. simpl. lia.
  - pose proof (autoCount_bound l).
    simpl shareOut. destruct (Z.eqb_spec c 0) as [->|Hc]; simpl total.
    + rewrite IH, autoCount_cons_0.
      destruct (Z.ltb_spec seen rem); lia.
    + rewrite IH, autoCount_cons_ne by exact Hc. lia.
Qed.

Section table_columns.

Variable Strip : gostring -> gostring.
Variable mcolSizes : list Z.

Hypothesis sizes_small : Forall (fun c => - 2 ^ 30 <= c <= 2 ^ 30) mcolSizes.

Lemma take_small (k : nat) :
  - (Z.of_nat k * 2 ^ 30) <= total (take k mcolSizes) <= Z.of_nat k * 2 ^ 30.
Proof.
  pose proof (total_bound (2 ^ 30) (take k mcolSizes)) as H.
  unfold len in H. rewrite length_take in H.
  assert (Forall (fun c => - 2 ^ 30 <= c <= 2 ^ 30) (take k mcolSizes)) as F.
  { apply Forall_take. exact sizes_small. }
  specialize (H F). nia.
Qed.

(** The first loop copies the fixed sizes and adds them up. *)
Lemma fixed_loop (hs : list gostring) cs fx :
  Z.of_nat (length hs) <= 2 ^ 30 ->
  range_loop
    (fun colNum (_ : gostring) '(colSizes, fixedSize) =>
       c ← index mcolSizes colNum;
       Some (if negb (c =? 0)
             then (<[Z.to_nat colNum := c]> colSizes, fixedSize +i c)
             else (colSizes, fixedSize)))
    0 hs (replicate (length hs) 0, 0) = Some (cs, fx) ->
  (length hs <= length mcolSizes)%nat /\
  cs = take (length hs) mcolSizes /\ fx = total (take (length hs) mcolSizes).
Proof.
  intros Hn E.
  apply (range_loop_inv
           (fun k '(cs, fx) =>
              (k <= length hs)%nat -> 
              (k <= length mcolSizes)%nat /\
              cs = take k mcolSizes ++ replicate (length hs - k) 0 /\
              fx = total (take k mcolSizes))) in E.
  - destruct E as (H1 & H2 & H3); [lia|]. rewrite Nat.sub_diag in H2.
    simpl in H2. rewrite app_nil_r in H2. tauto.
  - intros _. rewrite Nat.sub_0_r. simpl. split; [lia|]. split; reflexivity.
  - intros j x [cs0 fx0] [cs1 fx1] Hj HP. rewrite Z.add_0_l.
    pose proof (lookup_lt_Some _ _ _ Hj) as Hjn.
    destruct HP as (H1 & -> & ->); [lia|].
    unfold index. destruct (Z.leb_spec 0 (Z.of_nat j)); [|lia].
    rewrite Nat2Z.id.
    destruct (mcolSizes !! j) as [c|] eqn:Ec; [|discriminate].
    cbn [mbind option_bind]. pose proof (lookup_lt_Some _ _ _ Ec) as Hjm.
    pose proof (take_small j).
    assert (- 2 ^ 30 <= c <= 2 ^ 30) as Hc.
    { eapply (proj1 (Forall_lookup _ _) sizes_small). exact Ec. }
    assert (take (S j) mcolSizes = take j mcolSizes ++ [c]) as Ht.
    { erewrite take_S_r by exact Ec. reflexivity. }
    intros E1 _. split; [lia|]. rewrite Ht, total_snoc.
    replace (length hs - j)%nat with (S (length hs - S j)) in * by lia.
    destruct (Z.eqb_spec c 0) as [->|Hc0]; cbn [negb] in E1;
      injection E1 as <- <-.
    + split; [|lia]. rewrite <- app_assoc. reflexivity.
    + split; [|unwrap; lia].
      rewrite <- app_assoc. 
      rewrite insert_app_r_alt by (rewrite length_take; lia).
      rewrite length_take. replace (j - j `min` length mcolSizes)%nat with 0%nat by lia.
      reflexivity.
Qed.


Lemma agree_take (n : nat) :
  (n <= length mcolSizes)%nat -> agree mcolSizes n (take n mcolSizes).
Proof.
  intros Hn. split; [rewrite length_take; lia|].
  intros i c Hi _ Hin. rewrite lookup_take_lt by exact Hin. exact Hi.
Qed.

(** The rounds of the second and of the third loop. *)
Lemma widen_round (n j : nat) (s : gostring) cs cs' :
  agree mcolSizes n cs ->
  (c ← index mcolSizes (Z.of_nat j);
   if c =? 0 then table.widen (Z.of_nat j) (len (Strip s)) cs
   else Some cs) = Some cs' ->
  agree mcolSizes n cs' /\ (j < length mcolSizes)%nat /\
  (mcolSizes !! j = Some 0 -> (j < n)%nat).
Proof.
  intros [Hl Ha]. rewrite index_nat.
  destruct (mcolSizes !! j) as [c|] eqn:Ec; [|discriminate].
  cbn [mbind option_bind]. pose proof (lookup_lt_Some _ _ _ Ec) as Hjm.
  destruct (Z.eqb_spec c 0) as [->|Hc].
  - unfold table.widen. rewrite index_nat.
    destruct (cs !! j) as [cur|] eqn:Ecur; [|discriminate].
    cbn [mbind option_bind]. pose proof (lookup_lt_Some _ _ _ Ecur) as Hjn.
    rewrite Nat2Z.id. intros [= <-].
    split; [|split; [exact Hjm|intros _; lia]].
    destruct (cur <? len (Strip s)); [|split; assumption].
    split; [rewrite length_insert; exact Hl|].
    intros i c Hi Hc Hin. destruct (decide (i = j)) as [->|Hij].
    + congruence.
    + rewrite list_lookup_insert_ne by congruence. apply Ha; assumption.
  - intros [= <-]. split; [split; assumption|].
    split; [exact Hjm|congruence].
Qed.

Lemma widen_round_returns (n j : nat) (s : gostring) cs :
  agree mcolSizes n cs -> (j < length mcolSizes)%nat ->
  (mcolSizes !! j = Some 0 -> (j < n)%nat) ->
  exists cs',
    (c ← index mcolSizes (Z.of_nat j);
     if c =? 0 then table.widen (Z.of_nat j) (len (Strip s)) cs
     else Some cs) = Some cs'.
Proof.
  intros [Hl Ha] Hjm Hjn. rewrite index_nat.
  destruct (lookup_lt_is_Some_2 mcolSizes j Hjm) as [c Ec]. rewrite Ec.
  cbn [mbind option_bind]. destruct (Z.eqb_spec c 0) as [->|Hc].
  - unfold table.widen. rewrite index_nat.
    destruct (lookup_lt_is_Some_2 cs j) as [cur Ecur];
      [specialize (Hjn Ec); lia|].
    rewrite Ecur. cbn [mbind option_bind]. eexists. reflexivity.
  - eexists. reflexivity.
Qed.

(** The fourth loop counts the automatic columns. *)
Lemma count_loop (cs : list Z) :
  (length cs <= length mcolSizes)%nat -> Z.of_nat (length cs) <= 2 ^ 30 ->
  exists varSize,
    range_loop
      (fun i col '(varSize, varNum) =>
         c ← index mcolSizes i;
         Some (if c =? 0 then (varSize +i col, varNum +i 1)
               else (varSize, varNum)))
      0 cs (0, 0)
    = Some (varSize, autoCount (take (length cs) mcolSizes)).
Proof.
  intros Hl Hb.
  destruct (range_loop_Some
              (fun k '(_, vn) =>
                 (k <= length cs)%nat -> vn = autoCount (take k mcolSizes))
              (fun i col '(varSize, varNum) =>
                 c ← index mcolSizes i;
                 Some (if c =? 0 then (varSize +i col, varNum +i 1)
                       else (varSize, varNum)))
              cs 0 (0, 0)) as ([vs vn] & E & H).
  - intros _. reflexivity.
  - intros j x [vs vn] Hj HP. pose proof (lookup_lt_Some _ _ _ Hj) as Hjn.
    rewrite Z.add_0_l, index_nat.
    destruct (lookup_lt_is_Some_2 mcolSizes j) as [c Ec]; [lia|].
    rewrite Ec. cbn [mbind option_bind]. eexists. split; [reflexivity|].
    rewrite HP by lia. erewrite take_S_r by exact Ec.
    rewrite autoCount_app. pose proof (autoCount_bound (take j mcolSizes)) as Hab.
    unfold len in Hab. rewrite length_take in Hab.
    destruct (Z.eqb_spec c 0) as [->|Hc]; intros _.
    + rewrite autoCount_cons_0. change (autoCount []) with 0. unwrap. lia.
    + rewrite autoCount_cons_ne by exact Hc. change (autoCount []) with 0.
      lia.
  - exists vs. rewrite E, H by lia. reflexivity.
Qed.


(** The last loop shares the free width out. *)
Lemma share_loop (n : nat) (cs : list Z) base rem :
  agree mcolSizes n cs -> (n <= length mcolSizes)%nat ->
  - 2 ^ 62 <= base <= 2 ^ 62 -> - 2 ^ 62 <= rem <= 2 ^ 62 ->
  exists r,
    range_loop
      (fun i (_ : Z) '(colSizes, rem) =>
         c ← index mcolSizes i;
         Some (if c =? 0 then
                 if rem >? 0
                 then (<[Z.to_nat i := base +i 1]> colSizes, rem -i 1)
                 else (<[Z.to_nat i := base]> colSizes, rem)
               else (colSizes, rem)))
      0 cs (cs, rem)
    = Some (shareOut base rem 0 (take n mcolSizes), r).
Proof.
  intros [Hl Ha] Hn Hb Hr.
  destruct (range_loop_Some
              (fun k '(cs', r) =>
                 (k <= n)%nat ->
                 cs' = shareOut base rem 0 (take k mcolSizes) ++ drop k cs /\
                 r = if rem <=? 0 then rem
                     else Z.max 0 (rem - autoCount (take k mcolSizes)))
              (fun i (_ : Z) '(colSizes, rem) =>
                 c ← index mcolSizes i;
                 Some (if c =? 0 then
                         if rem >? 0
                         then (<[Z.to_nat i := base +i 1]> colSizes, rem -i 1)
                         else (<[Z.to_nat i := base]> colSizes, rem)
                       else (colSizes, rem)))
              cs 0 (cs, rem)) as ([cs' r] & E & H).
  - intros _. change (take 0 mcolSizes) with (@nil Z).
    change (autoCount []) with 0. rewrite drop_0. split; [reflexivity|].
    destruct (Z.leb_spec rem 0); lia.
  - intros j x [cs0 r0] Hj HP. pose proof (lookup_lt_Some _ _ _ Hj) as Hjn.
    rewrite Z.add_0_l, index_nat, Nat2Z.id.
    destruct (lookup_lt_is_Some_2 mcolSizes j) as [c Ec]; [lia|].
    rewrite Ec. cbn [mbind option_bind]. eexists. split; [reflexivity|].
    destruct HP as [-> ->]; [lia|].
    pose proof (autoCount_bound (take j mcolSizes)) as Hab.
    assert (length (shareOut base rem 0 (take j mcolSizes)) = j) as HlA.
    { rewrite shareOut_length, length_take. lia. }
    assert (forall v,
              <[j := v]> (shareOut base rem 0 (take j mcolSizes) ++ drop j cs)
              = shareOut base rem 0 (take j mcolSizes)
                  ++ v :: drop (S j) cs) as Hins.
    { intros v. rewrite insert_app_r_alt by lia.
      rewrite HlA, Nat.sub_diag, (drop_S cs x j Hj). reflexivity. }
    destruct (Z.eqb_spec c 0) as [->|Hc].
    + rewrite Z.gtb_ltb.
      destruct (Z.ltb_spec 0
                  (if rem <=? 0 then rem
                   else Z.max 0 (rem - autoCount (take j mcolSizes))))
        as [Hpos|Hpos];
        intros _; erewrite (take_S_r mcolSizes) by exact Ec;
        rewrite shareOut_app, autoCount_app, Z.add_0_l, <- app_assoc,
          autoCount_cons_0, Hins;
        change (autoCount []) with 0; cbn [shareOut]; rewrite Z.eqb_refl;
        destruct (Z.leb_spec rem 0);
        destruct (Z.ltb_spec (autoCount (take j mcolSizes)) rem);
        try lia; unwrap; (split; [reflexivity|lia]).
    + intros _. erewrite (take_S_r mcolSizes) by exact Ec.
      rewrite shareOut_app, autoCount_app, Z.add_0_l, <- app_assoc.
      rewrite autoCount_cons_ne by exact Hc. change (autoCount []) with 0.
      cbn [shareOut]. destruct (Z.eqb_spec c 0); [contradiction|].
      rewrite Z.add_0_r, (drop_S cs x j Hj). split; [|reflexivity].
      assert (x = c) as ->; [|reflexivity].
      specialize (Ha j c Ec Hc ltac:(lia)). congruence.
  - exists r. rewrite E. destruct H as [-> _]; [lia|].
    rewrite drop_ge by lia. rewrite app_nil_r, Hl. reflexivity.
Qed.


Lemma computeColSizes_fit (m : table.TableModel) sizes :
  len (table.headers m) <= 2 ^ 30 ->
  table.computeColSizes Strip mcolSizes m = Some sizes ->
  columnsFit mcolSizes m.
Proof.
  intros Hn E. unfold table.computeColSizes in E. unfold len in Hn.
  match type of E with
  | context [range_loop ?b 0 (table.headers m) ?s] =>
      destruct (range_loop b 0 (table.headers m) s) as [[cs1 fx]|] eqn:E1;
        [|discriminate]
  end.
  apply fixed_loop in E1 as (Hlen & -> & ->); [|exact Hn].
  cbn [mbind option_bind] in E.
  match type of E with
  | context [range_loop ?b 0 (table.headers m) ?s] =>
      destruct (range_loop b 0 (table.headers m) s) as [cs2|] eqn:E2;
        [|discriminate]
  end.
  apply (range_loop_inv
           (fun _ cs => agree mcolSizes (length (table.headers m)) cs)) in E2;
    [|apply agree_take; exact Hlen|].
  2:{ intros j x s0 s1 _ HP. rewrite Z.add_0_l. intros Hb.
      eapply widen_round in Hb; [apply Hb|exact HP]. }
  cbn [mbind option_bind] in E.
  match type of E with
  | context [range_loop ?b 0 (table.filteredContent m) ?s] =>
      destruct (range_loop b 0 (table.filteredContent m) s)
        as [cs3|] eqn:E3; [|discriminate]
  end.
  apply (range_loop_inv
           (fun k cs =>
              agree mcolSizes (length (table.headers m)) cs /\
              Forall (rowFits (length (table.headers m)) mcolSizes)
                (take k (table.filteredContent m)))) in E3.
  - destruct E3 as [Hag3 Hrows]. rewrite firstn_all in Hrows.
    cbn [mbind option_bind] in E.
    destruct (count_loop cs3) as [vs Ec];
      [destruct Hag3 as [-> _]; exact Hlen
      |destruct Hag3 as [-> _]; exact Hn|].
    rewrite Ec in E. cbn [mbind option_bind] in E.
    destruct Hag3 as [Hl3 _]. rewrite Hl3 in E.
    split; [exact Hlen|]. split; [|exact Hrows].
    pose proof (autoCount_bound
                  (take (length (table.headers m)) mcolSizes)).
    unfold int_quo in E.
    destruct (Z.eqb_spec
                (autoCount (take (length (table.headers m)) mcolSizes)) 0);
      [discriminate|lia].
  - split; [exact E2|]. constructor.
  - intros j line s0 s1 Hj [HP HF] Hb.
    apply (range_loop_inv
             (fun k cs =>
                agree mcolSizes (length (table.headers m)) cs /\
                forall i : nat, (i < k)%nat ->
                  (i < length mcolSizes)%nat /\
                  (mcolSizes !! i = Some 0 ->
                   (i < length (table.headers m))%nat))) in Hb.
    + destruct Hb as [Hag Hcells]. split; [exact Hag|].
      erewrite take_S_r by exact Hj. apply Forall_app. split; [exact HF|].
      constructor; [|constructor]. split.
      * destruct line as [|c line]; [simpl; lia|].
        destruct (Hcells (length line)) as [H _]; simpl; lia.
      * intros i Hi. apply Hcells. exact Hi.
    + split; [exact HP|]. intros i Hi. lia.
    + intros i col s2 s3 _ [HP2 Hc2]. rewrite Z.add_0_l. intros Hb2.
      eapply widen_round in Hb2 as (Hag & Hlt & Hz); [|exact HP2].
      split; [exact Hag|]. intros i' Hi'.
      destruct (decide (i' = i)) as [->|Hne]; [tauto|apply Hc2; lia].
Qed.

Lemma computeColSizes_value (m : table.TableModel) :
  len (table.headers m) <= 2 ^ 30 ->
  - 2 ^ 60 <= table.width m <= 2 ^ 60 ->
  columnsFit mcolSizes m ->
  table.computeColSizes Strip mcolSizes m
    = Some (columnSizes (table.width m)
              (take (length (table.headers m)) mcolSizes)).
Proof.
  intros Hn Hw (Hlen & Hauto & Hrows). unfold len in Hn.
  set (n := length (table.headers m)) in *.
  unfold table.computeColSizes. fold n.
  destruct (range_loop_Some
              (fun k '(cs, fx) =>
                 (k <= n)%nat ->
                 cs = take k mcolSizes ++ replicate (n - k) 0 /\
                 fx = total (take k mcolSizes))
              (fun colNum (_ : gostring) '(colSizes, fixedSize) =>
                 c ← index mcolSizes colNum;
                 Some (if negb (c =? 0)
                       then (<[Z.to_nat colNum := c]> colSizes,
                             fixedSize +i c)
                       else (colSizes, fixedSize)))
              (table.headers m) 0 (replicate n 0, 0))
    as ([cs1 fx] & E1 & H1).
  { intros _. rewrite Nat.sub_0_r. split; reflexivity. }
  { intros j x [cs0 fx0] Hj HP.
    pose proof (lookup_lt_Some _ _ _ Hj) as Hjn. fold n in Hjn.
    rewrite Z.add_0_l, index_nat, Nat2Z.id.
    destruct (lookup_lt_is_Some_2 mcolSizes j) as [c Ec]; [lia|].
    rewrite Ec. cbn [mbind option_bind]. eexists. split; [reflexivity|].
    destruct HP as [-> ->]; [lia|].
    pose proof (take_small j).
    assert (- 2 ^ 30 <= c <= 2 ^ 30) as Hc.
    { eapply (proj1 (Forall_lookup _ _) sizes_small). exact Ec. }
    replace (n - j)%nat with (S (n - S j)) by lia.
    destruct (Z.eqb_spec c 0) as [->|Hc0]; cbn [negb]; intros _;
      erewrite take_S_r by exact Ec; rewrite total_snoc, <- app_assoc.
    - split; [reflexivity|lia].
    - split; [|unwrap; lia].
      rewrite insert_app_r_alt by (rewrite length_take; lia).
      rewrite length_take.
      replace (j - j `min` length mcolSizes)%nat with 0%nat by lia.
      reflexivity. }
  rewrite E1. cbn [mbind option_bind].
  destruct H1 as [-> ->]; [lia|]. fold n. rewrite Nat.sub_diag, app_nil_r.
  destruct (range_loop_Some
              (fun _ cs => agree mcolSizes n cs)
              (fun colNum hCol colSizes =>
                 c ← index mcolSizes colNum;
                 if c =? 0
                 then table.widen colNum (len (Strip hCol)) colSizes
                 else Some colSizes)
              (table.headers m) 0 (take n mcolSizes))
    as (cs2 & E2 & H2).
  { apply agree_take. exact Hlen. }
  { intros j x s0 Hj HP. pose proof (lookup_lt_Some _ _ _ Hj) as Hjn.
    fold n in Hjn. rewrite Z.add_0_l.
    destruct (widen_round_returns n j x s0 HP) as [s1 Es]; [lia|lia|].
    exists s1. split; [exact Es|]. eapply widen_round; eassumption. }
  rewrite E2. cbn [mbind option_bind].
  destruct (range_loop_Some
              (fun _ cs => agree mcolSizes n cs)
              (fun _ (line : list gostring) colSizes =>
                 range_loop
                   (fun colNum col colSizes =>
                      c ← index mcolSizes colNum;
                      if c =? 0
                      then table.widen colNum (len (Strip col)) colSizes
                      else Some colSizes)
                   0 line colSizes)
              (table.filteredContent m) 0 cs2)
    as (cs3 & E3 & H3).
  { exact H2. }
  { intros j line s0 Hj HP.
    pose proof (proj1 (Forall_lookup _ _) Hrows j line Hj) as [Hll Hlz].
    apply (range_loop_Some (fun _ cs => agree mcolSizes n cs)); [exact HP|].
    intros i col s1 Hi HP1. pose proof (lookup_lt_Some _ _ _ Hi) as Hil.
    rewrite Z.add_0_l.
    destruct (widen_round_returns n i col s1 HP1) as [s2 Es];
      [lia|apply Hlz; exact Hil|].
    exists s2. split; [exact Es|]. eapply widen_round; eassumption. }
  rewrite E3. cbn [mbind option_bind].
  destruct H3 as [Hl3 Ha3].
  destruct (count_loop cs3) as [vs Ec]; [lia|lia|].
  rewrite Ec, Hl3. cbn [mbind option_bind].
  pose proof (take_small n) as Hfx.
  pose proof (autoCount_bound (take n mcolSizes)) as Hac.
  unfold len in Hac. rewrite length_take in Hac.
  assert (table.width m -i (len (table.headers m) +i 1)
            -i total (take n mcolSizes)
          = freeWidth (table.width m) (take n mcolSizes)) as ->.
  { unfold freeWidth, len. rewrite length_take. fold n. unwrap.
    replace (n `min` length mcolSizes)%nat with n by lia. reflexivity. }
  set (free := freeWidth (table.width m) (take n mcolSizes)).
  assert (- 2 ^ 62 <= free <= 2 ^ 62) as Hfree.
  { unfold free, freeWidth, len. rewrite length_take. lia. }
  unfold int_quo, int_rem.
  destruct (Z.eqb_spec (autoCount (take n mcolSizes)) 0); [lia|].
  cbn [mbind option_bind].
  assert (- 2 ^ 62 <= Z.quot free (autoCount (take n mcolSizes)) <= 2 ^ 62)
    as Hq.
  { pose proof (Z.quot_rem' free (autoCount (take n mcolSizes))).
    pose proof (Z.rem_bound_abs free (autoCount (take n mcolSizes))
                  ltac:(lia)).
    nia. }
  assert (- 2 ^ 62 <= Z.rem free (autoCount (take n mcolSizes)) <= 2 ^ 62)
    as Hrm.
  { pose proof (Z.rem_bound_abs free (autoCount (take n mcolSizes))
                  ltac:(lia)). lia. }
  rewrite wrap_id by lia.
  destruct (share_loop n cs3 (Z.quot free (autoCount (take n mcolSizes)))
              (Z.rem free (autoCount (take n mcolSizes))))
    as [r Es]; [split; assumption|lia|lia|lia|].
  rewrite Es. reflexivity.
Qed.

End table_columns.

(** X1.  computeColSizes returns exactly when the configured sizes have an
    entry for every header, at least one of these entries is 0 (an
    automatic column), and every filtered row has no more cells than there
    are configured sizes and no cell in an automatic column beyond the
    headers.  In every other case it stops with a panic: an index out of
    range, or the division by the number of automatic columns. *)
Theorem X1_computeColSizes_returns Strip mcolSizes (m : table.TableModel) :
  len (table.headers m) <= 2 ^ 30 ->
  - 2 ^ 60 <= table.width m <= 2 ^ 60 ->
  Forall (fun c => - 2 ^ 30 <= c <= 2 ^ 30) mcolSizes ->
  is_Some (table.computeColSizes Strip mcolSizes m)
  <-> columnsFit mcolSizes m.
Proof.
  intros Hn Hw Hs. split.
  - intros [sizes E]. eapply computeColSizes_fit; eassumption.
  - intros Hfit. rewrite computeColSizes_value by assumption. eexists.
    reflexivity.
Qed.

Lemma X1_computeColSizes_returns_witness :
  is_Some (table.computeColSizes plainStrip [0; 10] tablePeople)
  <-> columnsFit [0; 10] tablePeople.
Proof.
  apply X1_computeColSizes_returns.
  - unfold len. simpl. lia.
  - simpl. lia.
  - repeat constructor; lia.
Defined.

(** X2.  A table without an automatic column cannot compute its column
    widths: when no header has a configured size of 0, be it that every
    column has a fixed width or that no sizes were configured at all,
    computeColSizes panics. *)
Theorem X2_computeColSizes_needs_an_automatic_column Strip mcolSizes
    (m : table.TableModel) :
  len (table.headers m) <= 2 ^ 30 ->
  Forall (fun c => - 2 ^ 30 <= c <= 2 ^ 30) mcolSizes ->
  (forall i : nat, (i < length (table.headers m))%nat ->
     mcolSizes !! i <> Some 0) ->
  table.computeColSizes Strip mcolSizes m = None.
Proof.
  intros Hn Hs Hfixed.
  destruct (table.computeColSizes Strip mcolSizes m) as [sizes|] eqn:E;
    [|reflexivity].
  apply computeColSizes_fit in E as (_ & Hauto & _); [|assumption..].
  rewrite autoCount_zero in Hauto; [lia|].
  intros i Hi. pose proof (lookup_lt_Some _ _ _ Hi) as Hlt.
  rewrite length_take in Hlt. rewrite lookup_take_lt in Hi by lia.
  apply (Hfixed i); [lia|exact Hi].
Qed.

Lemma X2_computeColSizes_needs_an_automatic_column_witness :
  table.computeColSizes plainStrip [20; 10] tablePeople = None /\
  table.computeColSizes plainStrip [] tablePeople = None.
Proof.
  split; apply X2_computeColSizes_needs_an_automatic_column;
    try (unfold len; simpl; lia); try (repeat constructor; lia);
    intros [|[|i]] Hi; simpl in *; try discriminate; lia.
Defined.

(** X3.  The widths that computeColSizes returns depend on the window
    width, the number of headers and the configured sizes only: a fixed
    column keeps its size, the automatic ones share the free width, the
    first ones getting one more when it does not divide evenly.  The widths
    that the second and the third loop measure on the header and cell texts
    are all overwritten. *)
Theorem X3_computeColSizes_shares_the_free_width Strip mcolSizes
    (m : table.TableModel) sizes :
  len (table.headers m) <= 2 ^ 30 ->
  - 2 ^ 60 <= table.width m <= 2 ^ 60 ->
  Forall (fun c => - 2 ^ 30 <= c <= 2 ^ 30) mcolSizes ->
  table.computeColSizes Strip mcolSizes m = Some sizes ->
  sizes = columnSizes (table.width m)
            (take (length (table.headers m)) mcolSizes).
Proof.
  intros Hn Hw Hs E. pose proof E as Hfit.
  apply computeColSizes_fit in Hfit; [|assumption..].
  rewrite computeColSizes_value in E by assumption. congruence.
Qed.

Lemma X3_computeColSizes_shares_the_free_width_witness :
  [14; 9; 13]
  = columnSizes 40 (take 3 [0; 9; 0]).
Proof.
  apply (X3_computeColSizes_shares_the_free_width plainStrip [0; 9; 0]
           (table.set_headers [str "name"; str "age"; str "town"]
              tablePeople)).
  - unfold len. simpl. lia.
  - simpl. lia.
  - repeat constructor; lia.
  - reflexivity.
Defined.

(** X4.  When the free width is not negative, the widths that
    computeColSizes returns fill the window exactly: together with the two
    side borders and the separators between the columns they add up to the
    window width. *)
Theorem X4_computeColSizes_fills_the_width Strip mcolSizes
    (m : table.TableModel) sizes :
  len (table.headers m) <= 2 ^ 30 ->
  - 2 ^ 60 <= table.width m <= 2 ^ 60 ->
  Forall (fun c => - 2 ^ 30 <= c <= 2 ^ 30) mcolSizes ->
  0 <= freeWidth (table.width m)
         (take (length (table.headers m)) mcolSizes) ->
  table.computeColSizes Strip mcolSizes m = Some sizes ->
  total sizes + (len (table.headers m) + 1) = table.width m.
Proof.
  intros Hn Hw Hs Hfree E. pose proof E as Hfit.
  apply computeColSizes_fit in Hfit; [|assumption..].
  rewrite computeColSizes_value in E by assumption. injection E as <-.
  destruct Hfit as (Hlen & Hauto & _). unfold columnSizes.
  set (l := take (length (table.headers m)) mcolSizes) in *.
  rewrite shareOut_total.
  pose proof (Z.quot_rem' (freeWidth (table.width m) l) (autoCount l)).
  pose proof (Z.rem_bound_pos (freeWidth (table.width m) l) (autoCount l)
                Hfree Hauto).
  assert (len l = len (table.headers m)) as Hl.
  { unfold l, len. rewrite length_take. lia. }
  unfold freeWidth in *. rewrite Hl in *. lia.
Qed.

Lemma X4_computeColSizes_fills_the_width_witness :
  total [14; 9; 13] + (3 + 1) = 40.
Proof.
  apply (X4_computeColSizes_fills_the_width plainStrip [0; 9; 0]
           (table.set_headers [str "name"; str "age"; str "town"]
              tablePeople)).
  - unfold len. simpl. lia.
  - simpl. lia.
  - repeat constructor; lia.
  - vm_compute. discriminate.
  - reflexivity.
Defined.

(** ** Key handling *)

Ltac ui_fields :=
  cbn [table.set_width table.set_height table.set_headers
       table.set_filterColums basictable.set_width basictable.set_height
       tm.set_width tm.set_height] in *.

(** What a key does to the table without a filter: one of nine things. *)
Lemma basictable_Update_key keys text (m : basictable.TableModel) :
  let m' := fst (basictable.Update keys (KeyMsg text) m) in
  m' = m \/
  len (basictable.content m) <> 0 /\
  (m' = basictable.SetSelectedLine (basictable.selectedLine m +i 1) m \/
   m' = basictable.SetSelectedLine (basictable.selectedLine m -i 1) m \/
   m' = basictable.ViewScroll 1 m \/
   m' = basictable.ViewScroll (-1) m \/
   m' = basictable.PageScroll 1 true m \/
   m' = basictable.PageScroll (-1) true m \/
   m' = basictable.SetSelectedLine 0 m \/
   m' = basictable.SetSelectedLine (len (basictable.content m) -i 1) m).
Proof.
  unfold basictable.Update.
  destruct (Z.eqb_spec (len (basictable.content m)) 0) as [|Hne];
    [left; reflexivity|].
  repeat (case_if; cbn [fst]); tauto.
Qed.

Lemma basictable_SetSelectedLine_range line (m : basictable.TableModel) :
  0 <= basictable.selectedLine m < len (basictable.content m) ->
  0 <= basictable.selectedLine (basictable.SetSelectedLine line m)
    < len (basictable.content (basictable.SetSelectedLine line m)).
Proof.
  intros H. unfold basictable.SetSelectedLine.
  repeat (case_if; bool_hyps; basic_fields); lia.
Qed.

Lemma basictable_PageScroll_range num (m : basictable.TableModel) :
  num = 1 \/ num = -1 ->
  5 <= basictable.height m <= 2 ^ 60 ->
  - 2 ^ 60 <= basictable.scrolledTop m <= 2 ^ 60 ->
  len (basictable.content m) <= 2 ^ 60 ->
  0 <= basictable.selectedLine m < len (basictable.content m) ->
  0 <= basictable.selectedLine (basictable.PageScroll num true m)
    < len (basictable.content (basictable.PageScroll num true m)).
Proof.
  intros Hn Hh Hs Hl Hsel. destruct m as [w h c sel st].
  unfold basictable.PageScroll. basic_fields.
  destruct Hn as [-> | ->]; scroll; lia.
Qed.

(** X7.  A key press leaves the selection of the table without a filter on
    a row that exists, in a window of five lines or more: whatever key
    table is configured and whatever key comes in. *)
Theorem X7_basictable_Update_keeps_selection keys text
    (m : basictable.TableModel) :
  5 <= basictable.height m <= 2 ^ 60 ->
  - 2 ^ 60 <= basictable.scrolledTop m <= 2 ^ 60 ->
  len (basictable.content m) <= 2 ^ 60 ->
  0 <= basictable.selectedLine m < len (basictable.content m) ->
  0 <= basictable.selectedLine (fst (basictable.Update keys (KeyMsg text) m))
    < len (basictable.content
             (fst (basictable.Update keys (KeyMsg text) m))).
Proof.
  intros Hh Hs Hl Hsel.
  destruct (basictable_Update_key keys text m)
    as [->|(_ & [->|[->|[->|[->|[->|[->|[->| ->]]]]]]])].
  - exact Hsel.
  - apply basictable_SetSelectedLine_range, Hsel.
  - apply basictable_SetSelectedLine_range, Hsel.
  - unfold basictable.ViewScroll. repeat case_if; exact Hsel.
  - unfold basictable.ViewScroll. repeat case_if; exact Hsel.
  - apply basictable_PageScroll_range; auto.
  - apply basictable_PageScroll_range; auto.
  - apply basictable_SetSelectedLine_range, Hsel.
  - apply basictable_SetSelectedLine_range, Hsel.
Qed.

Lemma X7_basictable_Update_keeps_selection_witness :
  0 <= basictable.selectedLine
         (fst (basictable.Update basictable.DefaultKeys (KeyMsg (str "pgdown"))
                 basicShort))
    < len (basictable.content
             (fst (basictable.Update basictable.DefaultKeys
                     (KeyMsg (str "pgdown")) basicShort))).
Proof.
  apply X7_basictable_Update_keeps_selection.
  - simpl. lia.
  - simpl. lia.
  - vm_compute. discriminate.
  - vm_compute. split; [discriminate|reflexivity].
Defined.

(** What a key does to the table with a filter: one of nine things. *)
Lemma table_Update_key keys text (m : table.TableModel) :
  let m' := fst (table.Update keys (KeyMsg text) m) in
  m' = m \/
  m' = table.SetSelectedLine (table.selectedLine m +i 1) m \/
  m' = table.SetSelectedLine (table.selectedLine m -i 1) m \/
  m' = table.ViewScroll 1 m \/
  m' = table.ViewScroll (-1) m \/
  m' = table.PageScroll 1 true m \/
  m' = table.PageScroll (-1) true m \/
  m' = table.SetSelectedLine 0 m \/
  m' = table.SelectLastLine m.
Proof.
  unfold table.Update. repeat (case_if; cbn [fst]); tauto.
Qed.

Lemma table_SetSelectedLine_bound line (m : table.TableModel) :
  - 2 ^ 60 <= table.height m <= 2 ^ 60 ->
  len (table.filteredContent m) <= 2 ^ 60 ->
  tableBound m -> tableBound (table.SetSelectedLine line m).
Proof.
  intros Hh Hl. pose proof (len_nonneg (table.filteredContent m)).
  unfold tableBound, scrollBound, maxScroll, table.viewportHeight,
    table.pageHeight, table.SetSelectedLine.
  destruct m as [w h hd c sel st flt cols fc col ord sc]. table_fields.
  intros Hb. destruct flt; cbn [table.isNil] in *; scroll; lia.
Qed.

Lemma table_ViewScroll_bound num (m : table.TableModel) :
  - 2 ^ 60 <= num <= 2 ^ 60 ->
  - 2 ^ 60 <= table.height m <= 2 ^ 60 ->
  len (table.filteredContent m) <= 2 ^ 60 ->
  tableBound m -> tableBound (table.ViewScroll num m).
Proof.
  intros Hn Hh Hl. pose proof (len_nonneg (table.filteredContent m)).
  unfold tableBound, scrollBound, maxScroll, table.viewportHeight,
    table.pageHeight, table.ViewScroll.
  destruct m as [w h hd c sel st flt cols fc col ord sc]. table_fields.
  intros Hb. destruct flt; cbn [table.isNil] in *; scroll; lia.
Qed.

(** X6.  A key press keeps the scroll position of the table with a filter
    inside its bound: whatever key table is configured and whatever key
    comes in, [scrolledTop] stays between 0 and the number of filtered rows
    less the rows of the window. *)
Theorem X6_table_Update_keeps_scroll_bound keys text
    (m : table.TableModel) :
  - 2 ^ 30 <= table.height m <= 2 ^ 30 ->
  len (table.filteredContent m) <= 2 ^ 59 ->
  tableBound m -> tableBound (fst (table.Update keys (KeyMsg text) m)).
Proof.
  intros Hh Hl Hb.
  destruct (table_Update_key keys text m)
    as [->|[->|[->|[->|[->|[->|[->|[->| ->]]]]]]]].
  - exact Hb.
  - apply table_SetSelectedLine_bound; [lia|lia|exact Hb].
  - apply table_SetSelectedLine_bound; [lia|lia|exact Hb].
  - apply table_ViewScroll_bound; [lia|lia|lia|exact Hb].
  - apply table_ViewScroll_bound; [lia|lia|lia|exact Hb].
  - apply table_PageScroll_bound; [lia|lia| |lia].
    unfold tableBound, scrollBound, maxScroll in Hb.
    pose proof (len_nonneg (table.filteredContent m)).
    unfold table.viewportHeight, table.pageHeight in Hb.
    destruct (table.isNil (table.filter m)); revert Hb; unwrap; lia.
  - apply table_PageScroll_bound; [lia|lia| |lia].
    unfold tableBound, scrollBound, maxScroll in Hb.
    pose proof (len_nonneg (table.filteredContent m)).
    unfold table.viewportHeight, table.pageHeight in Hb.
    destruct (table.isNil (table.filter m)); revert Hb; unwrap; lia.
  - apply table_SetSelectedLine_bound; [lia|lia|exact Hb].
  - apply table_SetSelectedLine_bound; [lia|lia|exact Hb].
Qed.

Lemma X6_table_Update_keeps_scroll_bound_witness :
  tableBound
    (fst (table.Update table.DefaultKeys (KeyMsg (str "pgdown"))
            tableHundred)).
Proof.
  apply X6_table_Update_keeps_scroll_bound.
  - simpl. lia.
  - vm_compute. discriminate.
  - unfold tableBound, scrollBound. vm_compute. split; discriminate.
Defined.

(** X8.  PageScroll(1, true) on a table whose filtered rows all fit the
    window leaves the window at the top and selects the last row, with one
    exception: when the rows leave exactly one row of the window free, the
    row after the last one is selected, which does not exist.  (On a table
    without rows the selection becomes -1, or 0 in a window of one row.) *)
Theorem X8_table_PageScroll_selects_past_the_end (m : table.TableModel) :
  3 <= table.pageHeight m -> - 2 ^ 60 <= table.height m <= 2 ^ 60 ->
  0 <= table.scrolledTop m <= 2 ^ 60 ->
  len (table.filteredContent m) <= table.viewportHeight m ->
  table.scrolledTop (table.PageScroll 1 true m) = 0 /\
  table.selectedLine (table.PageScroll 1 true m)
    = if len (table.filteredContent m) =? table.viewportHeight m - 1
      then len (table.filteredContent m)
      else len (table.filteredContent m) - 1.
Proof.
  intros Hh Hb Hs Hl. pose proof (len_nonneg (table.filteredContent m)).
  unfold table.viewportHeight, table.PageScroll, table.pageHeight in *.
  destruct m as [w h hd c sel st flt cols fc col ord sc]. table_fields.
  destruct flt; cbn [table.isNil] in *; scroll; lia.
Qed.

Lemma X8_table_PageScroll_selects_past_the_end_witness :
  table.scrolledTop (table.PageScroll 1 true tableNearlyFull) = 0 /\
  table.selectedLine (table.PageScroll 1 true tableNearlyFull) = 3.
Proof.
  apply (X8_table_PageScroll_selects_past_the_end tableNearlyFull).
  - vm_compute. discriminate.
  - simpl. lia.
  - simpl. lia.
  - vm_compute. discriminate.
Defined.

(** ** The line list stays in working order *)

Section tm_ready.

Variable wordwrap : gostring -> Z -> gostring.
Variable render : gostring -> gostring.

(** Wrapping again with a selection and a scroll position in range. *)
Lemma reparse_ready (m1 : tm.TextModel) :
  wrapFits wordwrap (tm.width m1) (tm.content m1) ->
  3 <= tm.height m1 <= 2 ^ 30 ->
  0 <= tm.selectedLine m1 < len (tm.content m1) ->
  0 <= tm.scrolledTop m1
    <= Z.max 0 (total (heights wordwrap (tm.width m1) (tm.content m1))
                - (tm.height m1 - 2)) ->
  exists m',
    tm.parseContent wordwrap render m1 = Some m' /\
    sameSettings m1 m' /\ tmReady wordwrap m'.
Proof.
  intros Hfit Hh Hsel Hst.
  destruct (parseContent_ready wordwrap render m1 Hfit ltac:(lia))
    as (m' & E & S & G & F).
  exists m'. split; [exact E|]. split; [exact S|].
  destruct S as (Hw & Hh' & Hc & Hs & Ht).
  unfold tmReady, scrollBound, maxScroll, tm.viewportHeight.
  rewrite Hw, Hh', Hc, Hs, Ht, (geo_total _ _ G). tauto.
Qed.

Lemma tmReady_rows (m : tm.TextModel) :
  tmReady wordwrap m ->
  Forall (fun h => 1 <= h) (heights wordwrap (tm.width m) (tm.content m)) /\
  len (tm.parsedContent m)
    = total (heights wordwrap (tm.width m) (tm.content m)) /\
  total (heights wordwrap (tm.width m) (tm.content m)) <= 2 ^ 60 /\
  len (tm.content m) <= 2 ^ 60.
Proof.
  intros (Hfit & Hh & G & Hsel & Hb).
  destruct (parseContent_ready wordwrap render m Hfit ltac:(lia))
    as (_ & _ & _ & _ & F).
  split; [exact F|]. split; [apply (geo_total _ _ G)|].
  assert (total (heights wordwrap (tm.width m) (tm.content m)) <= 2 ^ 60)
    as Htot by apply Hfit.
  split; [exact Htot|].
  pose proof (total_length _ F) as Hl. unfold len in *.
  rewrite heights_length in Hl. lia.
Qed.

Lemma tm_SetSelectedLine_ready (m : tm.TextModel) (numLine : Z) :
  tmReady wordwrap m -> 0 <= numLine < len (tm.content m) ->
  exists m',
    tm.SetSelectedLine wordwrap render numLine m = Some m' /\
    tmReady wordwrap m'.
Proof.
  intros R Hn. destruct (tmReady_rows m R) as (F & HT & Htot & Hcl).
  destruct R as (Hfit & Hh & G & Hsel & Hb).
  set (hs := heights wordwrap (tm.width m) (tm.content m)) in *.
  unfold scrollBound, maxScroll, tm.viewportHeight in Hb. rewrite HT in Hb.
  destruct (lookup_lt_is_Some_2 hs (Z.to_nat numLine)) as [h Hr].
  { unfold hs. rewrite heights_length. unfold len in Hn. lia. }
  destruct (SetSelectedLine_ready wordwrap render m (Z.to_nat numLine) h Hfit)
    as (m' & E & Hw & Hh' & Hc & Hs & G' & Ht); [lia..|exact Hr|].
  rewrite Z2Nat.id in E, Hs by lia. fold hs in G', Ht.
  destruct (start_end hs _ h F Hr) as (Hs0 & Hh1 & Hend).
  exists m'. split; [exact E|].
  unfold tmReady, scrollBound, maxScroll, tm.viewportHeight.
  rewrite Hw, Hh', Hc, Hs, (geo_total _ _ G'). fold hs.
  split; [exact Hfit|]. split; [lia|]. split; [exact G'|]. split; [lia|].
  rewrite Ht. unfold scrollToRow. scroll; lia.
Qed.

Lemma tm_ViewScroll_ready (m : tm.TextModel) (num : Z) :
  tmReady wordwrap m -> - 2 ^ 60 <= num <= 2 ^ 60 ->
  tmReady wordwrap (tm.ViewScroll num m).
Proof.
  intros R Hn. destruct (tmReady_rows m R) as (F & HT & Htot & Hcl).
  destruct R as (Hfit & Hh & G & Hsel & Hb).
  unfold tmReady, scrollBound, maxScroll, tm.viewportHeight in *.
  pose proof (len_nonneg (tm.parsedContent m)).
  unfold tm.ViewScroll.
  repeat (case_if; bool_hyps; tm_fields);
    (split; [exact Hfit|]; split; [lia|]; split; [tm_geo|];
     split; [lia|]; unwrap; lia).
Qed.


Lemma tm_PageScroll_ready (m : tm.TextModel) (num : Z) (moveSelected : bool) :
  tmReady wordwrap m -> - 2 ^ 30 <= num <= 2 ^ 30 ->
  exists m',
    tm.PageScroll wordwrap render num moveSelected m = Some m' /\
    tmReady wordwrap m'.
Proof.
  intros R Hnum. destruct (tmReady_rows m R) as (F & HT & Htot & Hcl).
  destruct R as (Hfit & Hh & G & Hsel & Hb).
  set (hs := heights wordwrap (tm.width m) (tm.content m)) in *.
  unfold scrollBound, maxScroll, tm.viewportHeight in Hb. rewrite HT in Hb.
  assert (- 2 ^ 61 <= (tm.height m - 2) * num <= 2 ^ 61) as Hprod by nia.
  assert (- 2 ^ 61 <= (tm.height m - 2) * - num <= 2 ^ 61) as Hprod' by nia.
  pose proof (total_nonneg hs F) as Htot0.
  assert (forall m1,
            tm.width m1 = tm.width m -> tm.height m1 = tm.height m ->
            tm.content m1 = tm.content m ->
            0 <= tm.selectedLine m1 < len (tm.content m) ->
            0 <= tm.scrolledTop m1
              <= Z.max 0 (total hs - (tm.height m - 2)) ->
            exists m',
              Some m1 ≫= tm.parseContent wordwrap render = Some m' /\
              tmReady wordwrap m') as Hfin.
  { intros m1 Hw1 Hh1 Hc1 Hs1 Ht1.
    destruct (reparse_ready m1) as (m' & E & _ & R');
      [rewrite Hw1, Hc1; exact Hfit|lia|rewrite Hc1; exact Hs1
      |rewrite Hw1, Hc1, Hh1; exact Ht1|].
    exists m'. split; [exact E|exact R']. }
  unfold tm.PageScroll. rewrite HT. rewrite !Z.gtb_ltb.
  destruct (Z.ltb_spec 0 num) as [Hpos|Hnpos].
  - unwrap.
    destruct (Z.ltb_spec (tm.scrolledTop m) (total hs - tm.height m + 2));
      [|apply Hfin; try reflexivity; lia].
    tm_fields. rewrite ?HT. unwrap.
    destruct (Z.ltb_spec (total hs - 2)
                (tm.scrolledTop m + (tm.height m - 2) * num)).
    { tm_fields. rewrite ?HT. unwrap.
      destruct moveSelected; apply Hfin; tm_fields;
        try reflexivity; lia. }
    destruct (Z.ltb_spec (total hs - 1 - tm.height m - 2)
                (tm.scrolledTop m + (tm.height m - 2) * num)).
    { tm_fields. rewrite ?HT. unwrap.
      destruct moveSelected; apply Hfin; tm_fields;
        try reflexivity; lia. }
    destruct moveSelected; [|apply Hfin; tm_fields; try reflexivity; nia].
    tm_fields. unwrap.
    set (k0 := tm.scrolledTop m + (tm.height m - 2) * num + tm.height m - 3).
    destruct (row_of_line hs k0 F) as (r & h & Hr & Hk0); [unfold k0; nia|].
    destruct (start_end hs r h F Hr) as (? & ? & ?).
    pose proof (lookup_lt_Some _ _ _ Hr) as Hrl.
    unfold hs in Hrl. rewrite heights_length in Hrl.
    repeat match goal with
      | |- context [tm.lineOfParsed ?m1 k0] =>
          rewrite (lineOfParsed_geometry hs m m1 r h k0 G eq_refl Hr Hk0)
      end.
    unfold tm.parsedAt. tm_fields.
    repeat match goal with
      | |- context [tm.parsedOfLine ?m1 (Z.of_nat r)] =>
          rewrite (parsedOfLine_geometry hs m m1 r h G eq_refl Hr)
      end.
    unfold len. rewrite length_seqZ, Z2Nat.id by lia. unwrap.
    rewrite index_seqZ by lia. cbn [mbind option_bind].
    unwrap.
    apply Hfin; tm_fields; try reflexivity; unfold len; try lia.
    unfold k0 in Hk0. nia.
  - destruct (Z.ltb_spec num 0) as [Hneg|];
      [|apply Hfin; try reflexivity; lia].
    destruct (Z.ltb_spec 0 (tm.scrolledTop m)) as [Hst|];
      [|apply Hfin; try reflexivity; lia].
    tm_fields. unwrap.
    destruct (Z.ltb_spec (tm.scrolledTop m - (tm.height m - 2) * - num) 0).
    { tm_fields.
      destruct moveSelected; apply Hfin; tm_fields;
        try reflexivity; lia. }
    destruct moveSelected; [|apply Hfin; tm_fields; try reflexivity; nia].
    tm_fields.
    set (k0 := tm.scrolledTop m - (tm.height m - 2) * - num) in *.
    destruct (row_of_line hs k0 F) as (r & h & Hr & Hk0); [nia|].
    destruct (start_end hs r h F Hr) as (? & ? & ?).
    pose proof (lookup_lt_Some _ _ _ Hr) as Hrl.
    unfold hs in Hrl. rewrite heights_length in Hrl.
    repeat match goal with
      | |- context [tm.lineOfParsed ?m1 k0] =>
          rewrite (lineOfParsed_geometry hs m m1 r h k0 G eq_refl Hr Hk0)
      end.
    unfold tm.parsedAt. tm_fields.
    repeat match goal with
      | |- context [tm.parsedOfLine ?m1 (Z.of_nat r)] =>
          rewrite (parsedOfLine_geometry hs m m1 r h G eq_refl Hr)
      end.
    rewrite index_seqZ by lia. cbn [mbind option_bind].
    apply Hfin; tm_fields; try reflexivity; unfold len; try lia.
    nia.
Qed.

End tm_ready.

Section tm_content.

Variable wordwrap : gostring -> Z -> gostring.
Variable render : gostring -> gostring.

Lemma tm_SetContent_ready (m : tm.TextModel) (text : list gostring) :
  text <> [] -> wrapFits wordwrap (tm.width m) text ->
  3 <= tm.height m <= 2 ^ 30 ->
  exists m',
    tm.SetContent wordwrap render text m = Some m' /\
    tmReady wordwrap m' /\
    tm.content m' = text /\ tm.selectedLine m' = 0 /\ tm.scrolledTop m' = 0.
Proof.
  intros Hne Hfit Hh. unfold tm.SetContent.
  destruct (reparse_ready wordwrap render
              (tm.set_content text
                 (tm.set_scrolledTop 0 (tm.set_selectedLine 0 m))))
    as (m' & E & (Hw & Hh' & Hc & Hs & Ht) & R); tm_fields;
    [exact Hfit|exact Hh| |lia|].
  - destruct text; [congruence|]. unfold len. simpl. lia.
  - exists m'. split; [exact E|]. split; [exact R|]. tm_fields. tauto.
Qed.

Lemma heights_app width (rows rows' : list gostring) :
  heights wordwrap width (rows ++ rows')
    = heights wordwrap width rows ++ heights wordwrap width rows'.
Proof. unfold heights. apply map_app. Qed.

Lemma heights_ge1 width (rows : list gostring) :
  Forall (fun h => 1 <= h) (heights wordwrap width rows).
Proof.
  unfold heights. apply Forall_map, Forall_forall. intros row _.
  unfold rowLines.
  pose proof (split_newline_nonempty (wordwrap row (width - 2))) as Hne.
  destruct (split_newline _) as [|p ps]; [congruence|]. simpl.
  unfold hardSplit at 1.
  destruct (length p) as [|n] eqn:El; simpl.
  - unfold len. simpl. lia.
  - destruct (_ <=? _)%nat; unfold len; simpl; lia.
Qed.

Lemma tm_AppendContent_ready (m : tm.TextModel) (text : list gostring) :
  tmReady wordwrap m ->
  wrapFits wordwrap (tm.width m) (tm.content m ++ text) ->
  exists m',
    tm.AppendContent wordwrap render text m = Some m' /\
    tmReady wordwrap m'.
Proof.
  intros R Hfit'. destruct (tmReady_rows wordwrap render m R)
    as (F & HT & Htot & Hcl).
  destruct R as (Hfit & Hh & G & Hsel & Hb).
  unfold scrollBound, maxScroll, tm.viewportHeight in Hb. rewrite HT in Hb.
  assert (total (heights wordwrap (tm.width m) (tm.content m ++ text))
          = total (heights wordwrap (tm.width m) (tm.content m))
            + total (heights wordwrap (tm.width m) text)) as Hsum.
  { rewrite heights_app, total_app. reflexivity. }
  pose proof (total_nonneg _ (heights_ge1 (tm.width m) text)) as Hnew.
  assert (total (heights wordwrap (tm.width m) (tm.content m ++ text))
          <= 2 ^ 60) as Htot' by apply Hfit'.
  pose proof (total_length _ (heights_ge1 (tm.width m) text)) as Hlt.
  unfold len in Hlt. rewrite heights_length in Hlt. fold (len text) in Hlt.
  assert (len (tm.content m ++ text) = len (tm.content m) + len text)
    as Hlen.
  { unfold len. rewrite length_app. lia. }
  pose proof (len_nonneg text) as Hl0.
  pose proof (total_nonneg _ F) as Hold.
  assert (forall m1,
            tm.width m1 = tm.width m -> tm.height m1 = tm.height m ->
            tm.content m1 = tm.content m ++ text ->
            tm.scrolledTop m1 = tm.scrolledTop m ->
            0 <= tm.selectedLine m1 < len (tm.content m ++ text) ->
            exists m',
              tm.parseContent wordwrap render m1 = Some m' /\
              tmReady wordwrap m' /\ tm.height m' = tm.height m /\
              tm.scrolledTop m' = tm.scrolledTop m) as Hfin.
  { intros m1 Hw1 Hh1 Hc1 Ht1 Hs1.
    destruct (reparse_ready wordwrap render m1)
      as (m' & E & (Hw & Hh' & Hc & Hs & Ht) & R');
      rewrite ?Hw1, ?Hh1, ?Hc1, ?Ht1;
      [exact Hfit'|exact Hh|exact Hs1|lia|].
    exists m'. split; [exact E|]. split; [exact R'|]. split; congruence. }
  unfold tm.AppendContent.
  destruct (Z.eqb_spec (tm.selectedLine m) (len (tm.content m) -i 1))
    as [Em|Em].
  - destruct (Hfin (tm.set_content (tm.content m ++ text)
                      (tm.set_selectedLine
                         (len (tm.content m) -i 1 +i len text) m)))
      as (m' & E & R' & Hh' & Ht'); tm_fields; try reflexivity;
      [unwrap; lia|].
    rewrite E. cbn [mbind option_bind andb]. eexists.
    split; [reflexivity|].
    destruct R' as (Hfit1 & Hh1 & G1 & Hsel1 & Hb1).
    rewrite Z.gtb_ltb.
    destruct (Z.ltb_spec (tm.height m' -i 2) (len (tm.parsedContent m')))
      as [Hlong|Hshort];
      [|split; [exact Hfit1|split; [exact Hh1|split; [exact G1|
         split; [exact Hsel1|exact Hb1]]]]].
    split; [exact Hfit1|]. split; [exact Hh1|]. split; [tm_geo|].
    split; [exact Hsel1|].
    unfold scrollBound, maxScroll, tm.viewportHeight. tm_fields.
    pose proof (geo_total _ _ G1) as HT1.
    assert (total (heights wordwrap (tm.width m') (tm.content m')) <= 2 ^ 60)
      as Htot1 by apply Hfit1.
    pose proof (len_nonneg (tm.parsedContent m')).
    revert Hlong. unwrap. lia.
  - destruct (Hfin (tm.set_content (tm.content m ++ text) m))
      as (m' & E & R' & Hh' & Ht'); tm_fields; try reflexivity; [lia|].
    rewrite E. cbn [mbind option_bind andb]. eexists.
    split; [reflexivity|exact R'].
Qed.

End tm_content.

(** Twenty one-line rows in a window of ten lines are in working order. *)
Lemma tmTwenty_ready : tmReady plainWrap tmTwenty.
Proof.
  destruct (tm_SetContent_ready plainWrap plainRender (tmEmpty 10 12)
              (replicate 20 (str "x")))
    as (m' & E & R & _).
  - discriminate.
  - split; [simpl; lia|]. split.
    + repeat constructor; vm_compute; discriminate.
    + vm_compute. discriminate.
  - simpl. lia.
  - unfold tmTwenty, tmOf. rewrite E. exact R.
Qed.

(** X5.  A key press leaves a line list in working order in working
    order, and Update returns: whatever key table is configured and whatever
    key comes in, the call does not panic, the selected row still exists,
    the display state is still the one of the rows, and the scroll position
    is still inside its bound.  The message is handed back. *)
Theorem X5_tm_Update_keeps_working_order wordwrap render keys text
    (m : tm.TextModel) :
  tmReady wordwrap m ->
  exists m',
    tm.Update wordwrap render keys (KeyMsg text) m = Some (m', KeyMsg text) /\
    tmReady wordwrap m'.
Proof.
  intros R. destruct (tmReady_rows wordwrap render m R) as (_ & _ & _ & Hcl).
  pose proof R as (_ & _ & _ & Hsel & _).
  assert (forall r : option tm.TextModel,
            (exists m', r = Some m' /\ tmReady wordwrap m') ->
            exists m',
              (r ≫= fun m0 => Some (m0, KeyMsg text)) = Some (m', KeyMsg text)
              /\ tmReady wordwrap m') as Hret.
  { intros r (m' & -> & R'). exists m'. split; [reflexivity|exact R']. }
  unfold tm.Update. apply Hret.
  destruct (Z.eqb_spec (len (tm.content m)) 0) as [|_]; [lia|].
  repeat (case_if; bool_hyps);
    try (exists m; split; [reflexivity|exact R]);
    try (eexists; split; [reflexivity|];
         apply tm_ViewScroll_ready; [exact render|exact R|lia]);
    try (apply tm_PageScroll_ready; [exact R|lia]);
    (apply tm_SetSelectedLine_ready; [exact R|unwrap; lia]).
Qed.

Lemma X5_tm_Update_keeps_working_order_witness :
  exists m',
    tm.Update plainWrap plainRender tm.DefaultKeys (KeyMsg (str "pgdown"))
      tmTwenty = Some (m', KeyMsg (str "pgdown")) /\
    tmReady plainWrap m'.
Proof.
  apply X5_tm_Update_keeps_working_order. exact tmTwenty_ready.
Defined.

(** X9.  SetContent with at least one row puts a line list that is wide
    enough to wrap and has a window of at least one line in working order,
    whatever state it was in: the rows are the new ones, the first row is
    selected and the window is at the top. *)
Theorem X9_tm_SetContent_gives_working_order wordwrap render
    (m : tm.TextModel) (text : list gostring) :
  text <> [] -> wrapFits wordwrap (tm.width m) text ->
  3 <= tm.height m <= 2 ^ 30 ->
  exists m',
    tm.SetContent wordwrap render text m = Some m' /\
    tmReady wordwrap m' /\
    tm.content m' = text /\ tm.selectedLine m' = 0 /\ tm.scrolledTop m' = 0.
Proof. apply tm_SetContent_ready. Qed.

Lemma X9_tm_SetContent_gives_working_order_witness :
  exists m',
    tm.SetContent plainWrap plainRender [str "one"; str "two"] tmHundredEnd
      = Some m' /\
    tmReady plainWrap m' /\
    tm.content m' = [str "one"; str "two"] /\
    tm.selectedLine m' = 0 /\ tm.scrolledTop m' = 0.
Proof.
  apply X9_tm_SetContent_gives_working_order.
  - discriminate.
  - split; [vm_compute; split; discriminate|]. split.
    + repeat constructor; vm_compute; discriminate.
    + vm_compute. discriminate.
  - vm_compute. split; discriminate.
Defined.

(** X10.  AppendContent keeps a line list in working order, as long as the
    rows can still be wrapped: the call returns, the selected row exists
    and the scroll position is inside its bound for the longer list. *)
Theorem X10_tm_AppendContent_keeps_working_order wordwrap render
    (m : tm.TextModel) (text : list gostring) :
  tmReady wordwrap m ->
  wrapFits wordwrap (tm.width m) (tm.content m ++ text) ->
  exists m',
    tm.AppendContent wordwrap render text m = Some m' /\
    tmReady wordwrap m'.
Proof. apply tm_AppendContent_ready. Qed.

Lemma X10_tm_AppendContent_keeps_working_order_witness :
  exists m',
    tm.AppendContent plainWrap plainRender [str "more"] tmTwenty = Some m' /\
    tmReady plainWrap m'.
Proof.
  apply X10_tm_AppendContent_keeps_working_order.
  - exact tmTwenty_ready.
  - split; [vm_compute; split; discriminate|]. split.
    + repeat constructor; vm_compute; discriminate.
    + vm_compute. discriminate.
Defined.

(** X11.  The selection and scroll methods keep a line list in working
    order: SetSelectedLine with a row that exists, SelectLastLine,
    ViewScroll by any number of lines and PageScroll by any number of
    pages, with or without moving the selection, all return, and afterwards
    the selected row exists, the display state is that of the rows and the
    scroll position is inside its bound. *)
Theorem X11_tm_methods_keep_working_order wordwrap render
    (m : tm.TextModel) (num : Z) (moveSelected : bool) :
  tmReady wordwrap m -> - 2 ^ 30 <= num <= 2 ^ 30 ->
  (0 <= num < len (tm.content m) ->
   exists m',
     tm.SetSelectedLine wordwrap render num m = Some m' /\
     tmReady wordwrap m') /\
  (exists m',
     tm.SelectLastLine wordwrap render m = Some m' /\ tmReady wordwrap m') /\
  tmReady wordwrap (tm.ViewScroll num m) /\
  (exists m',
     tm.PageScroll wordwrap render num moveSelected m = Some m' /\
     tmReady wordwrap m').
Proof.
  intros R Hnum. split; [|split; [|split]].
  - intros Hn. apply tm_SetSelectedLine_ready; assumption.
  - unfold tm.SelectLastLine.
    destruct (tmReady_rows wordwrap render m R) as (_ & _ & _ & Hcl).
    pose proof R as (_ & _ & _ & Hsel & _).
    case_if; bool_hyps.
    + apply tm_SetSelectedLine_ready; [exact R|unwrap; lia].
    + exists m. split; [reflexivity|exact R].
  - apply tm_ViewScroll_ready; [exact render|exact R|lia].
  - apply tm_PageScroll_ready; assumption.
Qed.

Lemma X11_tm_methods_keep_working_order_witness :
  (0 <= 3 < len (tm.content tmTwenty) ->
   exists m',
     tm.SetSelectedLine plainWrap plainRender 3 tmTwenty = Some m' /\
     tmReady plainWrap m') /\
  (exists m',
     tm.SelectLastLine plainWrap plainRender tmTwenty = Some m' /\
     tmReady plainWrap m') /\
  tmReady plainWrap (tm.ViewScroll 3 tmTwenty) /\
  (exists m',
     tm.PageScroll plainWrap plainRender 3 false tmTwenty = Some m' /\
     tmReady plainWrap m').
Proof.
  apply X11_tm_methods_keep_working_order.
  - exact tmTwenty_ready.
  - lia.
Defined.

(** ** Windows too narrow to wrap *)

Section tm_narrow.

Variable wordwrap : gostring -> Z -> gostring.
Variable render : gostring -> gostring.

(** At width 2 the loop of parseContent advances by 0 runes: on a line that
    is not empty it never ends. *)
Lemma splitLoop_stuck (w : gostring) :
  w <> [] -> len w <= 2 ^ 60 ->
  forall fuel z acc, tm.splitLoop fuel w 2 0 z acc = None.
Proof.
  intros Hne Hl. assert (0 < len w) as Hpos.
  { destruct w; [congruence|]. unfold len. simpl. lia. }
  induction fuel as [|fuel IH]; intros z acc; [reflexivity|].
  cbn [tm.splitLoop]. unwrap.
  destruct (Z.ltb_spec 0 (len w - 1 - 2 - 2 + 5)); [|lia].
  change (0 + 2 - 2) with 0. change (0 + (2 - 2)) with 0.
  unfold slice. change (0 <=? 0) with true. cbn [andb].
  destruct (Z.leb_spec 0 (len w)); [|lia]. cbn [mbind option_bind].
  apply IH.
Qed.

Lemma splitLine_stuck (w : gostring) acc :
  w <> [] -> len w <= 2 ^ 60 -> tm.splitLine 2 acc w = None.
Proof.
  intros Hne Hl. assert (0 < len w) as Hpos.
  { destruct w; [congruence|]. unfold len. simpl. lia. }
  unfold tm.splitLine. unwrap. rewrite Z.geb_leb.
  destruct (Z.leb_spec (2 - 2) (len w - 1)); [|lia].
  rewrite splitLoop_stuck by assumption. reflexivity.
Qed.

Lemma wrapRow_stuck (line : gostring) :
  filter (fun c => c <> newline) (wordwrap line 0) <> [] ->
  len (wordwrap line 0) <= 2 ^ 60 ->
  tm.wrapRow wordwrap 2 line = None.
Proof.
  intros Hne Hl. unfold tm.wrapRow, tm.splitLines. unwrap.
  change (2 - 2) with 0. rewrite <- split_newline_concat in Hne.
  pose proof (split_newline_length (wordwrap line 0)) as Hlen.
  assert (exists (j : nat) p,
            split_newline (wordwrap line 0) !! j = Some p /\ p <> [])
    as (j & p & Hj & Hp).
  { induction (split_newline (wordwrap line 0)) as [|q qs IH];
      [contradiction|].
    destruct q as [|c q].
    - destruct IH as (j & p & Hj & Hp); [exact Hne|inversion Hlen; assumption|].
      exists (S j), p. split; assumption.
    - exists 0%nat, (c :: q). split; [reflexivity|discriminate]. }
  apply (range_loop_None (fun _ => True) _ _ 0 [] j p);
    [exact I|trivial|exact Hj|].
  intros acc _. apply splitLine_stuck; [exact Hp|].
  pose proof (proj1 (Forall_lookup _ _) Hlen j p Hj) as Hpl.
  unfold len in *. lia.
Qed.

(** A row that cannot be wrapped stops parseContent. *)
Lemma parseContent_stops (m : tm.TextModel) (j : nat) (line : gostring) :
  tm.width m <> 0 -> tm.height m <> 0 ->
  tm.content m !! j = Some line ->
  tm.wrapRow wordwrap (tm.width m) line = None ->
  tm.parseContent wordwrap render m = None.
Proof.
  intros Hw Hh Hj Hrow. unfold tm.parseContent.
  destruct (Z.eqb_spec (tm.width m) 0); [contradiction|].
  destruct (Z.eqb_spec (tm.height m) 0); [contradiction|].
  cbn [orb]. tm_fields. unfold tm.parseRows.
  rewrite (range_loop_None
             (fun st : tm.TextModel * Z => tm.width (fst st) = tm.width m)
             _ _ 0 _ j line); [reflexivity|reflexivity| |exact Hj|].
  - intros i x [m0 p0] [m1 p1] HP E. cbn [fst] in *.
    apply parseRow_settings in E as [(Hw1 & _) _]. congruence.
  - intros [m0 p0] HP. cbn [fst] in HP. unfold tm.parseRow.
    rewrite HP, Hrow. reflexivity.
Qed.

End tm_narrow.

(** X12.  A line list with a row cannot be made narrower than three
    columns, except to width 0: SetSize with a width of 1 or a negative
    width panics on the first row it wraps (a slice with a negative end),
    and SetSize with width 2 never returns once the word wrapper gives back
    more than newlines for a row, because the loop that cuts long lines
    then advances by 0 runes. *)
Theorem X12_tm_SetSize_too_narrow wordwrap render (m : tm.TextModel)
    (w h : Z) (line : gostring) :
  h <> 0 -> line ∈ tm.content m ->
  len (wordwrap line (w - 2)) <= 2 ^ 60 ->
  (- 2 ^ 60 <= w <= 1 /\ w <> 0) \/
  (w = 2 /\ filter (fun c => c <> newline) (wordwrap line 0) <> []) ->
  tm.SetSize wordwrap render w h m = None.
Proof.
  intros Hh Hin Hl Hw. apply list_elem_of_lookup in Hin as [j Hj].
  unfold tm.SetSize.
  apply (parseContent_stops wordwrap render _ j line); tm_fields;
    cbn [tm.set_width tm.set_height tm.width tm.height tm.content];
    [lia|exact Hh|exact Hj|].
  destruct Hw as [[Hw Hw0]|[-> Hne]].
  - apply wrapRow_negative_width; assumption.
  - apply wrapRow_stuck; assumption.
Qed.

Lemma X12_tm_SetSize_too_narrow_witness :
  tm.SetSize plainWrap plainRender 2 12 tmTwenty = None /\
  tm.SetSize plainWrap plainRender (-1) 12 tmTwenty = None.
Proof.
  split.
  - apply (X12_tm_SetSize_too_narrow plainWrap plainRender tmTwenty 2 12
             (str "x")).
    + discriminate.
    + apply list_elem_of_lookup. exists 0%nat. reflexivity.
    + vm_compute. discriminate.
    + right. split; [reflexivity|discriminate].
  - apply (X12_tm_SetSize_too_narrow plainWrap plainRender tmTwenty (-1) 12
             (str "x")).
    + discriminate.
    + apply list_elem_of_lookup. exists 0%nat. reflexivity.
    + vm_compute. discriminate.
    + left. lia.
Defined.
